(** * Terminal process monitor: system_monitor.py and another_monitor.py

    A shallow embedding of the two dashboard variants.  Python values are
    modelled as the interpreter has them: [int] as [Z], finite [float]
    (binary64) as the rational it denotes, [str] as [string], exceptions as an
    error result.  Each arithmetic operation on floats rounds to nearest, ties
    to even, with 53 significant bits, as the interpreter does. *)

From Stdlib Require Import ZArith QArith Qabs Qround List String Ascii Bool Lia Lqa.
From Stdlib Require Import Sorting.Sorted Sorting.Permutation.
From Stdlib Require Import DecimalString.
From Stdlib Require Floats.SpecFloat.
Import ListNotations.

Local Open Scope string_scope.
Local Open Scope Z_scope.

(** ** Exceptions and fallible results *)

Inductive exn : Type :=
| ZeroDivisionError
| OverflowError
| ValueError
| TypeError
| CursesError
| NoSuchProcess
| AccessDenied.

Inductive result (A : Type) : Type :=
| Ok (a : A)
| Raise (e : exn).
Arguments Ok {A} a.
Arguments Raise {A} e.

Definition bind {A B : Type} (m : result A) (k : A -> result B) : result B :=
  match m with
  | Ok a => k a
  | Raise e => Raise e
  end.

Notation "x <- m ;; k" := (bind m (fun x => k))
  (at level 61, m at next level, right associativity).

Definition raises {A : Type} (m : result A) : Prop :=
  exists e, m = Raise e.

(** ** Binary64 rounding

    [round_half_even n d] is the integer nearest to [n / d] ([d > 0]), ties to
    the even one.  [binary64 q] is the binary64 value nearest to [q]: 53
    significant bits, the exponent of the last place not below -1074
    (subnormals).  Values of magnitude [2^1024] and above are not binary64
    numbers; [overflows] detects them. *)

Definition round_half_even (n d : Z) : Z :=
  let q := n / d in
  let r := n mod d in
  match 2 * r ?= d with
  | Lt => q
  | Gt => q + 1
  | Eq => if Z.even q then q else q + 1
  end.

(** floor (log2 (n / d)) for positive [n] and [d] *)
Definition ilog2_ratio (n d : Z) : Z :=
  let e0 := Z.log2 n - Z.log2 d in
  let above := if 0 <=? e0 then d * 2 ^ e0 <=? n else d <=? n * 2 ^ (- e0) in
  if above then e0 else e0 - 1.

(** exponent of the unit in the last place of [n / d] *)
Definition ulp_exp (n d : Z) : Z := Z.max (ilog2_ratio n d - 52) (-1074).

Definition round_mantissa (n d : Z) : Z :=
  let u := ulp_exp n d in
  if 0 <=? u then round_half_even n (d * 2 ^ u)
  else round_half_even (n * 2 ^ (- u)) d.

Definition scale2 (m u : Z) : Q :=
  if 0 <=? u then inject_Z (m * 2 ^ u) else Qred (m # Z.to_pos (2 ^ (- u))).

Definition binary64_pos (n d : Z) : Q :=
  scale2 (round_mantissa n d) (ulp_exp n d).

Definition binary64 (q : Q) : Q :=
  match Qnum q with
  | Z0 => 0%Q
  | Zpos n => binary64_pos (Zpos n) (Zpos (Qden q))
  | Zneg n => Qopp (binary64_pos (Zpos n) (Zpos (Qden q)))
  end.

Definition overflows (q : Q) : bool :=
  Qle_bool (inject_Z (2 ^ 1024)) (Qabs (binary64 q)).

(** ** Python numbers

    An int, or a finite float given by its exact value.  The floats of the
    program are percentages and byte counts divided by 1024; inf and nan do
    not arise from them. *)

Inductive number : Type :=
| Int (n : Z)
| Float (x : Q).

Definition to_Q (a : number) : Q :=
  match a with
  | Int n => inject_Z n
  | Float x => x
  end.

(** [a < b]: ints and finite floats compare by exact value *)
Definition num_ltb (a b : number) : bool :=
  negb (Qle_bool (to_Q b) (to_Q a)).

(** [a / b] (true division): the correctly rounded quotient.  Two ints whose
    quotient is beyond the float range raise OverflowError; a float is only
    ever divided by 100 or 1024 here, which cannot leave the range. *)
Definition truediv (a b : number) : result number :=
  if Qeq_bool (to_Q b) 0 then Raise ZeroDivisionError
  else
    let q := Qdiv (to_Q a) (to_Q b) in
    if overflows q then Raise OverflowError else Ok (Float (binary64 q)).

(** [a * b] with a float operand: the correctly rounded product (a product
    beyond the float range, inf in the interpreter, is outside this model of
    finite floats) *)
Definition fmul (a b : number) : number :=
  Float (binary64 (Qmult (to_Q a) (to_Q b))).

(** [int(x)]: truncation toward zero *)
Definition to_int (a : number) : Z :=
  match a with
  | Int n => n
  | Float x => Z.quot (Qnum x) (Zpos (Qden x))
  end.

(** ** Text *)

Definition string_of_nonneg (n : Z) : string :=
  NilZero.string_of_uint (N.to_uint (Z.to_N n)).

Definition string_of_Z (n : Z) : string :=
  if n <? 0 then "-" ++ string_of_nonneg (- n) else string_of_nonneg n.

Definition two_digits (n : Z) : string :=
  string_of_nonneg (n / 10) ++ string_of_nonneg (n mod 10).

(** [float(a)]: an int is converted to the nearest float, and one beyond the
    float range raises OverflowError *)
Definition to_float (a : number) : result Q :=
  match a with
  | Float x => Ok x
  | Int n =>
      if overflows (inject_Z n) then Raise OverflowError
      else Ok (binary64 (inject_Z n))
  end.

(** [f"{x:.2f}"] for a float [x]: its exact value rounded to two decimals,
    ties to even *)
Definition format_float_2f (x : Q) : string :=
  let c := round_half_even (Z.abs (Qnum x) * 100) (Zpos (Qden x)) in
  (if Qnum x <? 0 then "-" else "")
    ++ string_of_nonneg (c / 100) ++ "." ++ two_digits (c mod 100).

(** [f"{a:.2f}"]: the format converts an int to a float first *)
Definition format_2f (a : number) : result string :=
  x <- to_float a ;; Ok (format_float_2f x).

(** ** get_size (both files, lines 5-11) *)

Definition units : list string := [""; "K"; "M"; "G"; "T"; "P"].

Fixpoint get_size_loop (bytes : number) (us : list string) (suffix : string)
  : result (option string) :=
  match us with
  | [] => Ok None
  | unit :: rest =>
      if num_ltb bytes (Int 1024)
      then text <- format_2f bytes ;; Ok (Some (text ++ unit ++ suffix))
      else bytes' <- truediv bytes (Int 1024) ;;
           get_size_loop bytes' rest suffix
  end.

Definition get_size (bytes : Z) : result (option string) :=
  get_size_loop (Int bytes) units "B".

(** [1024 ^ j] as a denominator *)
Definition pow1024 (j : Z) : positive := Z.to_pos (1024 ^ j).
(** ** Strings and built-ins *)

Fixpoint repeat_string (s : string) (n : nat) : string :=
  match n with
  | O => ""
  | S n' => s ++ repeat_string s n'
  end.

(** [s * n]: empty when [n <= 0] *)
Definition str_mul (s : string) (n : Z) : string := repeat_string s (Z.to_nat n).

Definition len (s : string) : Z := Z.of_nat (String.length s).

(** [s.ljust(n)] *)
Definition ljust (s : string) (n : Z) : string := s ++ str_mul " " (n - len s).

(** [f"{s:<{n}}"] for a string [s]: a negative width puts a sign in the
    format specifier, which strings refuse with ValueError *)
Definition format_left (s : string) (n : Z) : result string :=
  if n <? 0 then Raise ValueError else Ok (ljust s n).

(** [f"{v}"] and [f"{v:<{n}}"] for a value that is a string or None: None has
    no format specifiers of its own and refuses a non-empty one with TypeError *)
Definition str_of_optional (v : option string) : string :=
  match v with
  | Some s => s
  | None => "None"
  end.

Definition format_left_optional (v : option string) (n : Z) : result string :=
  match v with
  | Some s => format_left s n
  | None => Raise TypeError
  end.

(** [s[:n]] for [0 <= n] *)
Definition str_prefix (s : string) (n : nat) : string := substring 0 n s.

Definition is_upper (c : ascii) : bool := (("A" <=? c) && (c <=? "Z"))%char.
Definition is_lower (c : ascii) : bool := (("a" <=? c) && (c <=? "z"))%char.
Definition is_digit (c : ascii) : bool := (("0" <=? c) && (c <=? "9"))%char.

(** whitespace as [str.strip] and [int] see it (ASCII range) *)
Definition is_space (c : ascii) : bool :=
  let n := N_of_ascii c in
  (((9 <=? n) && (n <=? 13)) || ((28 <=? n) && (n <=? 32)))%N.

Definition lower_char (c : ascii) : ascii :=
  if is_upper c then ascii_of_N (N_of_ascii c + 32) else c.
Definition upper_char (c : ascii) : ascii :=
  if is_lower c then ascii_of_N (N_of_ascii c - 32) else c.

Fixpoint map_string (f : ascii -> ascii) (s : string) : string :=
  match s with
  | EmptyString => EmptyString
  | String c s' => String (f c) (map_string f s')
  end.

Definition lower (s : string) : string := map_string lower_char s.
Definition upper (s : string) : string := map_string upper_char s.

Fixpoint lstrip (s : string) : string :=
  match s with
  | String c s' => if is_space c then lstrip s' else s
  | EmptyString => EmptyString
  end.

Fixpoint rstrip (s : string) : string :=
  match s with
  | EmptyString => EmptyString
  | String c s' =>
      match rstrip s' with
      | EmptyString => if is_space c then EmptyString else String c EmptyString
      | t => String c t
      end
  end.

Definition strip (s : string) : string := rstrip (lstrip s).

Fixpoint all_chars (p : ascii -> bool) (s : string) : bool :=
  match s with
  | EmptyString => true
  | String c s' => p c && all_chars p s'
  end.

(** [s.isdigit()] *)
Definition isdigit (s : string) : bool :=
  negb (s =? "")%string && all_chars is_digit s.

(** [a in b] *)
Definition contains (a b : string) : bool :=
  match index 0 a b with
  | Some _ => true
  | None => false
  end.

Definition digit_value (c : ascii) : Z := Z.of_N (N_of_ascii c) - 48.

(** the digits of an integer literal: groups of digits separated by single
    underscores; [prev] says whether the previous character was a digit *)
Fixpoint parse_digits (s : string) (acc : Z) (prev : bool) : option Z :=
  match s with
  | EmptyString => if prev then Some acc else None
  | String c s' =>
      if is_digit c then parse_digits s' (10 * acc + digit_value c) true
      else if (c =? "_")%char && prev then parse_digits s' acc false
      else None
  end.

(** whitespace that [int] skips around the number in an ASCII text: the
    characters 9 to 13 and the space, not the separators 28 to 31 that
    [str.strip] removes *)
Definition is_int_space (c : ascii) : bool :=
  let n := N_of_ascii c in
  (((9 <=? n) && (n <=? 13)) || (n =? 32))%N.

Fixpoint skip_leading_spaces (s : string) : string :=
  match s with
  | String c s' => if is_int_space c then skip_leading_spaces s' else s
  | EmptyString => EmptyString
  end.

Fixpoint skip_trailing_spaces (s : string) : string :=
  match s with
  | EmptyString => EmptyString
  | String c s' =>
      match skip_trailing_spaces s' with
      | EmptyString => if is_int_space c then EmptyString else String c EmptyString
      | t => String c t
      end
  end.

(** [int(s)] for an ASCII text: optional whitespace, an optional sign, the
    digits, optional whitespace *)
Definition int_of_string (s : string) : result Z :=
  let parsed :=
    match skip_trailing_spaces (skip_leading_spaces s) with
    | String "+" t => parse_digits t 0 false
    | String "-" t => option_map Z.opp (parse_digits t 0 false)
    | t => parse_digits t 0 false
    end in
  match parsed with
  | Some n => Ok n
  | None => Raise ValueError
  end.

(** ** [str] of a float: the shortest decimal that reads back as the same
    binary64 value, in positional notation between 1e-4 and 1e16 *)

Definition pow10_leb (e : Z) (q : Q) : bool :=
  if 0 <=? e then Qle_bool (inject_Z (10 ^ e)) q
  else Qle_bool (1 # Z.to_pos (10 ^ (- e))) q.

Definition ilog2_Q (q : Q) : Z := ilog2_ratio (Qnum q) (Zpos (Qden q)).

(** floor (log10 q) for [0 < q] *)
Definition ilog10 (q : Q) : Z :=
  let est := (ilog2_Q q * 30103) / 100000 in
  if pow10_leb (est + 1) q then est + 1
  else if pow10_leb est q then est
  else est - 1.

Definition scale10 (m e : Z) : Q :=
  if 0 <=? e then inject_Z (m * 10 ^ e) else m # Z.to_pos (10 ^ (- e)).

(** [q / 10^e] rounded to an integer *)
Definition round_at (q : Q) (e : Z) : Z :=
  if 0 <=? e then round_half_even (Qnum q) (Zpos (Qden q) * 10 ^ e)
  else round_half_even (Qnum q * 10 ^ (- e)) (Zpos (Qden q)).

(** the first precision [p] (of [fuel] tried from [p]) whose nearest
    [p]-digit decimal reads back as [q]; the result is (digits, exponent of
    the last digit) *)
Fixpoint shortest_digits (q : Q) (e10 : Z) (p : Z) (fuel : nat) : Z * Z :=
  let e := e10 - p + 1 in
  let m := round_at q e in
  match fuel with
  | O => (m, e)
  | S fuel' =>
      if Qeq_bool (binary64 (scale10 m e)) q then (m, e)
      else shortest_digits q e10 (p + 1) fuel'
  end.

Fixpoint strip_zeros (m e : Z) (fuel : nat) : Z * Z :=
  match fuel with
  | O => (m, e)
  | S fuel' => if (m mod 10 =? 0) && negb (m =? 0)
               then strip_zeros (m / 10) (e + 1) fuel' else (m, e)
  end.

Definition exponent_text (x : Z) : string :=
  (if x <? 0 then "-" else "+")
    ++ (if Z.abs x <? 10 then "0" else "") ++ string_of_nonneg (Z.abs x).

Definition float_str_pos (q : Q) : string :=
  let '(m0, e0) := shortest_digits q (ilog10 q) 1 16 in
  let '(m, e) := strip_zeros m0 e0 20 in
  let ds := string_of_nonneg m in
  let decpt := len ds + e in
  if (decpt <=? -4) || (16 <? decpt) then
    substring 0 1 ds
      ++ (if len ds =? 1 then "" else "." ++ substring 1 (String.length ds) ds)
      ++ "e" ++ exponent_text (decpt - 1)
  else if decpt <=? 0 then "0." ++ str_mul "0" (- decpt) ++ ds
  else if len ds <=? decpt then ds ++ str_mul "0" (decpt - len ds) ++ ".0"
  else substring 0 (Z.to_nat decpt) ds
         ++ "." ++ substring (Z.to_nat decpt) (String.length ds) ds.

Definition float_str (q : Q) : string :=
  match Qnum q with
  | Z0 => "0.0"
  | Zpos _ => float_str_pos q
  | Zneg _ => "-" ++ float_str_pos (Qopp q)
  end.

(** ** The Standard Library's IEEE 754 specification, for reference

    [binary64] above is checked against [SpecFloat]'s division at precision 53
    and exponent bound 1024 (see [binary64_agrees_with_SpecFloat]). *)

Definition Q_of_spec_float (f : SpecFloat.spec_float) : option Q :=
  match f with
  | SpecFloat.S754_zero _ => Some 0%Q
  | SpecFloat.S754_finite s m e =>
      Some (if s then Qopp (scale2 (Zpos m) e) else scale2 (Zpos m) e)
  | _ => None
  end.

Definition spec_float_div (n d : positive) : option Q :=
  Q_of_spec_float
    (SpecFloat.SFdiv 53 1024 (SpecFloat.S754_finite false n 0)
       (SpecFloat.S754_finite false d 0)).

Definition agrees_with_spec_float (nd : positive * positive) : bool :=
  match spec_float_div (fst nd) (snd nd) with
  | Some x => Qeq_bool x (binary64 (Zpos (fst nd) # snd nd))
  | None => overflows (Zpos (fst nd) # snd nd)
  end.
(** ** Tuple items and [sorted] *)

Inductive value : Type :=
| VInt (n : Z)
| VFloat (x : Q)
| VStr (s : string)
| VNone.

(** [a < b] on tuple items: numbers by value, strings by code point.  The keys
    of one column always have one type, so the mixed cases (a TypeError in the
    interpreter) are never reached by [sorted] below. *)
Definition value_ltb (a b : value) : bool :=
  match a, b with
  | VInt m, VInt n => m <? n
  | VInt m, VFloat y => num_ltb (Int m) (Float y)
  | VFloat x, VInt n => num_ltb (Float x) (Int n)
  | VFloat x, VFloat y => num_ltb (Float x) (Float y)
  | VStr s, VStr t => String.ltb s t
  | _, _ => false
  end.

Section Sorting.
Context {A K : Type}.
Variable key : A -> K.
Variable ltb : K -> K -> bool.

(** [x] goes before the first element that is not smaller: equal keys keep
    the order in which they arrived *)
Fixpoint insert (x : A) (l : list A) : list A :=
  match l with
  | [] => [x]
  | y :: l' => if ltb (key y) (key x) then y :: insert x l' else x :: y :: l'
  end.

Definition stable_sort (l : list A) : list A := fold_right insert [] l.

(** [sorted(l, key=key, reverse=reverse)]: a reverse sort reverses the list,
    sorts it stably and reverses the result *)
Definition sorted (reverse : bool) (l : list A) : list A :=
  if reverse then rev (stable_sort (rev l)) else stable_sort l.
End Sorting.

(** [l[:k]]: a negative [k] counts from the end *)
Definition slice_to {A : Type} (l : list A) (k : Z) : list A :=
  if k <? 0 then firstn (Z.to_nat (Z.of_nat (List.length l) + k)) l
  else firstn (Z.to_nat k) l.

Fixpoint mapM {A B : Type} (f : A -> result B) (l : list A) : result (list B) :=
  match l with
  | [] => Ok []
  | x :: l' => y <- f x ;; ys <- mapM f l' ;; Ok (y :: ys)
  end.

(** [enumerate(l, start)] *)
Fixpoint enumerate {A : Type} (l : list A) (start : Z) : list (Z * A) :=
  match l with
  | [] => []
  | x :: l' => (start, x) :: enumerate l' (start + 1)
  end.

(** ** What psutil reports

    One entry of [process_iter] with its [info] fields; [io_counters] is None
    where the platform denies it.  Percentages are finite floats. *)

Record proc_info : Type := {
  info_pid : Z;
  info_name : option string;
  info_cpu_percent : Q;
  info_rss : Z;
  info_io_counters : option (Z * Z)
}.

(** [name or "Unknown"] *)
Definition name_or_unknown (name : option string) : string :=
  match name with
  | Some s => if (s =? "")%string then "Unknown" else s
  | None => "Unknown"
  end.

(** ** The curses window

    [cells] logs the texts placed, latest first.  [addstr] fails when the
    position is outside the window, and when the text reaches the lower right
    corner (after placing what fits). *)

Inductive attr : Type :=
| A_NORMAL
| A_BOLD
| color_pair (n : Z).

Inductive color : Type :=
| COLOR_BLACK
| COLOR_RED
| COLOR_GREEN
| COLOR_YELLOW.

(** the [init_pair] calls of both files: pair number, foreground, background
    (1 high usage, 2 moderate usage, 3 low usage) *)
Definition init_pairs : list (Z * (color * color)) :=
  [(1, (COLOR_RED, COLOR_BLACK));
   (2, (COLOR_YELLOW, COLOR_BLACK));
   (3, (COLOR_GREEN, COLOR_BLACK))].

Record screen : Type := {
  scr_height : Z;
  scr_width : Z;
  cells : list (Z * Z * string * attr)
}.

Definition draw (A : Type) : Type := screen -> screen * result A.

Definition ret {A : Type} (a : A) : draw A := fun scr => (scr, Ok a).

Definition lift {A : Type} (r : result A) : draw A := fun scr => (scr, r).

Definition bind_draw {A B : Type} (m : draw A) (k : A -> draw B) : draw B :=
  fun scr =>
    match m scr with
    | (scr', Ok a) => k a scr'
    | (scr', Raise e) => (scr', Raise e)
    end.

Notation "x <~ m ;; k" := (bind_draw m (fun x => k))
  (at level 61, m at next level, right associativity).
Notation "' p <~ m ;; k" := (bind_draw m (fun p => k))
  (at level 61, p pattern, m at next level, right associativity).
Notation "m ;;; k" := (bind_draw m (fun _ => k))
  (at level 61, right associativity).

(** [try: m except curses.error: pass] *)
Definition try_curses (m : draw unit) : draw unit :=
  fun scr =>
    match m scr with
    | (scr', Raise CursesError) => (scr', Ok tt)
    | r => r
    end.

Definition getmaxyx : draw (Z * Z) :=
  fun scr => (scr, Ok (scr_height scr, scr_width scr)).

Definition clear : draw unit :=
  fun scr => ({| scr_height := scr_height scr; scr_width := scr_width scr;
                 cells := [] |}, Ok tt).

Definition put (scr : screen) (y x : Z) (text : string) (a : attr) : screen :=
  {| scr_height := scr_height scr; scr_width := scr_width scr;
     cells := (y, x, text, a) :: cells scr |}.

Definition addstr (y x : Z) (text : string) (a : attr) : draw unit :=
  fun scr =>
    let h := scr_height scr in
    let w := scr_width scr in
    if (0 <=? y) && (y <? h) && (0 <=? x) && (x <? w) then
      let room := h * w - (y * w + x) in
      if len text <? room then (put scr y x text a, Ok tt)
      else (put scr y x (str_prefix text (Z.to_nat room)) a, Raise CursesError)
    else (scr, Raise CursesError).

(** [stdscr.getstr(y, x, n)]: the cursor moves to the position and at most
    [n] characters of what is typed are read; at a position outside the
    window nothing is read and the result is the empty text, without an
    error *)
Definition getstr (typed : string) (y x : Z) (n : nat) : draw string :=
  fun scr =>
    if (0 <=? y) && (y <? scr_height scr) && (0 <=? x) && (x <? scr_width scr)
    then (scr, Ok (str_prefix typed n))
    else (scr, Ok "").

(** the [try] around the commands: a curses.error leaves the state as it was *)
Definition try_command {S : Type} (st : S) (m : draw S) : draw (option S) :=
  fun scr =>
    match m scr with
    | (scr', Ok st') => (scr', Ok (Some st'))
    | (scr', Raise CursesError) => (scr', Ok (Some st))
    | (scr', Raise e) => (scr', Raise e)
    end.

(** [for x in l: body x] *)
Fixpoint for_each {A : Type} (l : list A) (body : A -> draw unit) : draw unit :=
  match l with
  | [] => ret tt
  | x :: l' => body x ;;; for_each l' body
  end.

Definition when (b : bool) (m : draw unit) : draw unit :=
  if b then m else ret tt.

(** [ord] of the command keys *)
Definition ord (c : ascii) : Z := Z.of_N (N_of_ascii c).

(** The outcome of [psutil.Process(pid).terminate()] for a PID that is not
    negative *)
Inductive termination : Type :=
| Terminated
| NotFound
| Denied.

(** [psutil.Process(pid)] refuses a negative PID with ValueError *)
Definition terminate (os : Z -> termination) (pid : Z) : result unit :=
  if pid <? 0 then Raise ValueError
  else match os pid with
       | Terminated => Ok tt
       | NotFound => Raise NoSuchProcess
       | Denied => Raise AccessDenied
       end.
(** * system_monitor.py *)

Module SystemMonitor.

(** (pid, name, cpu_percent, memory_usage, disk_usage, process_io) *)
Record row : Type := {
  pid : Z;
  name : string;
  cpu_percent : Q;
  memory_usage : option string;
  disk_usage : string;
  process_io : Z
}.

(** [x[i]] *)
Definition item (x : row) (i : Z) : value :=
  match i with
  | 0 => VInt (pid x)
  | 1 => VStr (name x)
  | 2 => VFloat (cpu_percent x)
  | 3 => match memory_usage x with Some s => VStr s | None => VNone end
  | 4 => VStr (disk_usage x)
  | 5 => VInt (process_io x)
  | _ => VNone
  end.

(** lines 13-22; each entry is what [proc.io_counters()] gives for one
    process: the counters or an exception *)
Fixpoint total_io_loop (total_io : Z) (procs : list (result (Z * Z))) : result Z :=
  match procs with
  | [] => Ok total_io
  | Ok (read_bytes, write_bytes) :: rest =>
      total_io_loop (total_io + (read_bytes + write_bytes)) rest
  | Raise NoSuchProcess :: rest => total_io_loop total_io rest
  | Raise AccessDenied :: rest => total_io_loop total_io rest
  | Raise e :: _ => Raise e
  end.

Definition get_total_disk_io (procs : list (result (Z * Z))) : result Z :=
  total_io_loop 0 procs.

(** line 43 *)
Definition percent_usage (process_io total_io : Z) : result number :=
  if 0 <? total_io
  then q <- truediv (Int process_io) (Int total_io) ;; Ok (fmul q (Int 100))
  else Ok (Int 0).

(** line 44 *)
Definition disk_usage_text (read_bytes write_bytes : Z) (percent : number)
  : result string :=
  r <- get_size read_bytes ;;
  w <- get_size write_bytes ;;
  p <- format_2f percent ;;
  Ok ("R: " ++ str_of_optional r ++ " W: " ++ str_of_optional w
        ++ " | %: " ++ p ++ "%").

(** lines 30-46, the body of the loop over processes *)
Definition process_row (total_io : Z) (process : proc_info) : result row :=
  let pid := info_pid process in
  let name := name_or_unknown (info_name process) in
  let cpu_percent := info_cpu_percent process in
  memory_usage <- get_size (info_rss process) ;;
  let io_counters := info_io_counters process in
  let read_bytes := match io_counters with Some (r, _) => r | None => 0 end in
  let write_bytes := match io_counters with Some (_, w) => w | None => 0 end in
  let process_io := read_bytes + write_bytes in
  percent <- percent_usage process_io total_io ;;
  disk_usage <- disk_usage_text read_bytes write_bytes percent ;;
  Ok {| pid := pid; name := name; cpu_percent := cpu_percent;
        memory_usage := memory_usage; disk_usage := disk_usage;
        process_io := process_io |}.

(** lines 24-53; [io] is what the enumeration inside [get_total_disk_io] sees,
    [procs] what the enumeration of the function itself sees *)
Definition get_processes_info (io : list (result (Z * Z))) (procs : list proc_info)
  (sort_by : string) (ascending : bool) : result (list row) :=
  total_io <- get_total_disk_io io ;;
  processes <- mapM (process_row total_io) procs ;;
  let key_index := if (sort_by =? "cpu")%string then 2 else 4 in
  Ok (sorted (fun x => item x key_index) value_ltb (negb ascending) processes).

(** lines 55-59 *)
Definition display_bar (usage : number) (label : string) (y width : Z)
  (max_value : number) : draw unit :=
  ratio <~ lift (truediv usage max_value) ;;
  let bar_length := Z.min (to_int (fmul ratio (Int (width - 20)))) (width - 20) in
  let bar := str_mul "|" bar_length in
  field <~ lift (format_left bar (width - 20)) ;;
  text <~ lift (format_2f usage) ;;
  addstr y 0 (label ++ ": [" ++ field ++ "] " ++ text ++ "%") A_BOLD.

Record view_state : Type := {
  sort_by : string;
  ascending : bool;
  filter_name : string;
  filter_pid : option Z;
  last_message : string
}.

(** lines 72-76 *)
Definition initial_state : view_state :=
  {| sort_by := "cpu"; ascending := false; filter_name := "";
     filter_pid := None; last_message := "" |}.

Record snapshot : Type := {
  cpu_usage : Q;
  memory_usage_percent : Q;
  bar_io : list (result (Z * Z));
  total_disk_capacity : Z;
  core_usages : list Q;
  table_io : list (result (Z * Z));
  process_list : list proc_info
}.

(** lines 93-96 *)
Definition total_disk_usage_percentage (snap : snapshot) : result number :=
  total_disk_io <- get_total_disk_io (bar_io snap) ;;
  q <- truediv (Int total_disk_io) (Int (total_disk_capacity snap)) ;;
  Ok (fmul q (Int 100)).

(** lines 82-104 *)
Definition draw_bars (snap : snapshot) (height width : Z) : draw unit :=
  when (3 <? height)
    (display_bar (Float (cpu_usage snap)) "CPU   " 0 width (Int 100) ;;;
     display_bar (Float (memory_usage_percent snap)) "Memory" 1 width (Int 100)) ;;;
  percentage <~ lift (total_disk_usage_percentage snap) ;;
  display_bar percentage "Disk  " 2 width (Int 100) ;;;
  for_each (enumerate (core_usages snap) 0)
    (fun '(i, core_usage) =>
       when (i + 4 <? height)
         (display_bar (Float core_usage) ("Core " ++ string_of_Z i) (4 + i)
            width (Int 100))).

(** lines 106-121 *)
Definition draw_header (st : view_state) (cores height width : Z) : draw unit :=
  try_curses
    (when (9 <? height)
       (addstr (5 + cores + 1) 0
          (ljust "Process Monitor (Press 'q' to Quit)" (width - 1)) A_NORMAL ;;;
        addstr (6 + cores + 1) 0
          (ljust "Commands: [f] Filter by Name | [p] Filter by PID | [s] Toggle Sort CPU/Mem | [a] Toggle Asc/Desc | [k] Kill Process"
             (width - 1)) A_NORMAL ;;;
        let search_bar_name := "Search Process Name: " in
        addstr (7 + cores + 1) 0 (ljust search_bar_name (width - 1)) A_NORMAL ;;;
        addstr (7 + cores + 1) (len search_bar_name)
          (ljust (filter_name st) (width - len search_bar_name)) A_NORMAL ;;;
        let search_bar_pid := "Filter PID: " in
        addstr (8 + cores + 1) 0 (ljust search_bar_pid (width - 1)) A_NORMAL ;;;
        addstr (8 + cores + 1) (len search_bar_pid)
          (match filter_pid st with
           | Some p => if p =? 0 then ljust "None" (width - len search_bar_pid)
                       else string_of_Z p
           | None => ljust "None" (width - len search_bar_pid)
           end) A_NORMAL)).

(** lines 127-130 *)
Definition apply_filters (st : view_state) (processes : list row) : list row :=
  let processes :=
    if (filter_name st =? "")%string then processes
    else filter (fun p => contains (lower (filter_name st)) (lower (name p)))
           processes in
  match filter_pid st with
  | Some f => filter (fun p => pid p =? f) processes
  | None => processes
  end.

(** lines 147-152 *)
Definition row_color (cpu_percent : Q) : attr :=
  if num_ltb (Int 80) (Float cpu_percent) then color_pair 1
  else if num_ltb (Int 40) (Float cpu_percent) then color_pair 2
  else color_pair 3.

(** line 156, the text of one table row *)
Definition row_text (process : row) : result string :=
  c_pid <- format_left (string_of_Z (pid process)) 10 ;;
  c_name <- format_left (str_prefix (name process) 28) 30 ;;
  c_cpu <- format_left (float_str (cpu_percent process)) 10 ;;
  c_mem <- format_left_optional (memory_usage process) 10 ;;
  Ok (c_pid ++ c_name ++ c_cpu ++ c_mem ++ disk_usage process).

Definition header_start_row (cores : Z) : Z := 9 + cores.

(** line 141 *)
Definition max_displayable_processes (height cores : Z) (processes : list row) : Z :=
  Z.min (height - (header_start_row cores + 5)) (Z.of_nat (List.length processes)).

(** the rows the loop of line 143 goes through, with their screen rows *)
Definition visible_rows (height cores : Z) (processes : list row) : list (Z * row) :=
  enumerate (slice_to processes (max_displayable_processes height cores processes))
    (header_start_row cores + 2).

(** lines 132-158 *)
Definition draw_table (cores height width : Z) (processes : list row) : draw unit :=
  try_curses
    (addstr (header_start_row cores) 0
       (ljust "PID" 10 ++ ljust "Process Name" 30 ++ ljust "CPU%" 10
          ++ ljust "Memory" 10 ++ "Disk I/O") A_NORMAL ;;;
     addstr (header_start_row cores + 1) 0 (str_mul "-" (Z.min (width - 1) 80))
       A_NORMAL) ;;;
  for_each (visible_rows height cores processes)
    (fun '(idx, process) =>
       let color := row_color (cpu_percent process) in
       try_curses
         (text <~ lift (row_text process) ;;
          addstr idx 0 (ljust text (width - 1)) color)).

(** lines 79-164: one pass of the loop up to [refresh] *)
Definition render (snap : snapshot) (st : view_state) : draw unit :=
  clear ;;;
  '(height, width) <~ getmaxyx ;;
  let cores := Z.of_nat (List.length (core_usages snap)) in
  draw_bars snap height width ;;;
  draw_header st cores height width ;;;
  processes <~ lift (get_processes_info (table_io snap) (process_list snap)
                       (sort_by st) (ascending st)) ;;
  draw_table cores height width (apply_filters st processes) ;;;
  when (1 <? height)
    (addstr (height - 2) 0 (ljust (last_message st) (width - 1)) A_NORMAL).

(** lines 196-200: the kill attempt and its status message *)
Definition kill_message (os : Z -> termination) (kill_pid : string)
  : result string :=
  match (n <- int_of_string kill_pid ;; terminate os n) with
  | Ok _ => Ok ("Terminated process with PID " ++ kill_pid)
  | Raise NoSuchProcess | Raise AccessDenied =>
      Ok ("Failed to terminate process with PID " ++ kill_pid)
  | Raise e => Raise e
  end.

(** lines 167-202: the command for one key; [typed] is what the user types
    at a prompt, [os] the process-control collaborator.  The result is the
    next view state, or None to leave the loop. *)
Definition handle_key (os : Z -> termination) (key : Z) (typed : string)
  (st : view_state) : draw (option view_state) :=
  '(height, width) <~ getmaxyx ;;
  if key =? ord "q" then ret None
  else try_command st
    (if key =? ord "f" then
       addstr (height - 3) 0 "Enter Process Name: " A_NORMAL ;;;
       name_input <~ getstr typed (height - 3) 20 30 ;;
       let filter_name := strip name_input in
       ret {| sort_by := sort_by st; ascending := ascending st;
              filter_name := filter_name; filter_pid := filter_pid st;
              last_message := "Filtering by process name: " ++ filter_name |}
     else if key =? ord "p" then
       addstr (height - 3) 0 "Enter PID: " A_NORMAL ;;;
       pid_input <~ getstr typed (height - 3) 10 10 ;;
       filter_pid <~ lift (if isdigit pid_input
                           then n <- int_of_string (strip pid_input) ;; Ok (Some n)
                           else Ok None) ;;
       ret {| sort_by := sort_by st; ascending := ascending st;
              filter_name := filter_name st; filter_pid := filter_pid;
              last_message := "" |}
     else if key =? ord "s" then
       let sort_by := if (sort_by st =? "cpu")%string then "memory" else "cpu" in
       ret {| sort_by := sort_by; ascending := ascending st;
              filter_name := filter_name st; filter_pid := filter_pid st;
              last_message :=
                "Sorting by "
                  ++ (if (sort_by =? "cpu")%string then "CPU" else "Memory") |}
     else if key =? ord "a" then
       let ascending := negb (ascending st) in
       ret {| sort_by := sort_by st; ascending := ascending;
              filter_name := filter_name st; filter_pid := filter_pid st;
              last_message :=
                "Sorting in " ++ (if ascending then "ascending" else "descending")
                  ++ " order" |}
     else if key =? ord "k" then
       addstr (height - 3) 0 "Enter PID to kill: " A_NORMAL ;;;
       kill_pid <~ getstr typed (height - 3) 20 10 ;;
       last_message <~ lift (kill_message os kill_pid) ;;
       ret {| sort_by := sort_by st; ascending := ascending st;
              filter_name := filter_name st; filter_pid := filter_pid st;
              last_message := last_message |}
     else ret st).

End SystemMonitor.
(** * another_monitor.py *)

Module AnotherMonitor.

(** (pid, name, cpu_percent, memory_usage, memory_percent, disk_usage,
    disk_bytes) *)
Record row : Type := {
  pid : Z;
  name : string;
  cpu_percent : Q;
  memory_usage : option string;
  memory_percent : Z;
  disk_usage : option string;
  disk_bytes : Z
}.

(** [x[i]] *)
Definition item (x : row) (i : Z) : value :=
  match i with
  | 0 => VInt (pid x)
  | 1 => VStr (name x)
  | 2 => VFloat (cpu_percent x)
  | 3 => match memory_usage x with Some s => VStr s | None => VNone end
  | 4 => VInt (memory_percent x)
  | 5 => match disk_usage x with Some s => VStr s | None => VNone end
  | 6 => VInt (disk_bytes x)
  | _ => VNone
  end.

(** lines 17-28, the body of the loop over processes *)
Definition process_row (process : proc_info) : result row :=
  let pid := info_pid process in
  let name := name_or_unknown (info_name process) in
  let cpu_percent := info_cpu_percent process in
  memory_usage <- get_size (info_rss process) ;;
  let memory_percent := info_rss process in
  let io_counters := info_io_counters process in
  disk_usage <- match io_counters with
                | Some (read_bytes, write_bytes) => get_size (read_bytes + write_bytes)
                | None => Ok (Some "0B")
                end ;;
  let disk_bytes := match io_counters with
                    | Some (read_bytes, write_bytes) => read_bytes + write_bytes
                    | None => 0
                    end in
  Ok {| pid := pid; name := name; cpu_percent := cpu_percent;
        memory_usage := memory_usage; memory_percent := memory_percent;
        disk_usage := disk_usage; disk_bytes := disk_bytes |}.

(** lines 13-35 *)
Definition get_processes_info (procs : list proc_info) (sort_by : string)
  (ascending : bool) : result (list row) :=
  processes <- mapM process_row procs ;;
  let key_index := if (sort_by =? "cpu")%string then 2 else 4 in
  Ok (sorted (fun x => item x key_index) value_ltb (negb ascending) processes).

(** lines 37-41 *)
Definition display_bar (usage : number) (label : string) (y width : Z) : draw unit :=
  ratio <~ lift (truediv usage (Int 100)) ;;
  let bar_length := Z.min (to_int (fmul ratio (Int (width - 20)))) (width - 20) in
  let bar := str_mul "|" bar_length in
  field <~ lift (format_left bar (width - 20)) ;;
  text <~ lift (format_2f usage) ;;
  addstr y 0 (label ++ ": [" ++ field ++ "] " ++ text ++ "%") A_BOLD.

Record view_state : Type := {
  sort_by : string;
  ascending : bool;
  filter_pid : option Z;
  last_message : string
}.

(** lines 54-57 *)
Definition initial_state : view_state :=
  {| sort_by := "cpu"; ascending := false; filter_pid := None;
     last_message := "" |}.

(** [psutil.disk_usage('/')] *)
Record sdiskusage : Type := {
  total : Z;
  used : Z;
  free : Z;
  percent : Q
}.

Record snapshot : Type := {
  cpu_usage : Q;
  memory_usage_percent : Q;
  disk_usage_info : sdiskusage;
  core_usages : list Q;
  process_list : list proc_info
}.

(** line 72 *)
Definition disk_usage_percent (snap : snapshot) : Q :=
  percent (disk_usage_info snap).

(** lines 63-84 *)
Definition draw_bars (snap : snapshot) (height width : Z) : draw unit :=
  total_disk <~ lift (get_size (total (disk_usage_info snap))) ;;
  used_disk <~ lift (get_size (used (disk_usage_info snap))) ;;
  let disk_usage_percent := disk_usage_percent snap in
  display_bar (Float (cpu_usage snap)) "CPU Usage" 0 width ;;;
  display_bar (Float (memory_usage_percent snap)) "Memory Usage" 1 width ;;;
  display_bar (Float disk_usage_percent) "Disk Usage" 2 width ;;;
  for_each (enumerate (core_usages snap) 0)
    (fun '(i, core_usage) =>
       when (i + 3 <? height)
         (display_bar (Float core_usage) ("Core " ++ string_of_Z i) (3 + i) width)).

(** [str(filter_pid) if filter_pid else 'None'] *)
Definition filter_pid_text (filter_pid : option Z) : string :=
  match filter_pid with
  | Some p => if p =? 0 then "None" else string_of_Z p
  | None => "None"
  end.

(** lines 86-92 *)
Definition draw_header (st : view_state) (cores width : Z) : draw unit :=
  try_curses
    (addstr (3 + cores + 1) 0
       (ljust "Process Monitor (Press 'q' to Quit)" (width - 1)) A_NORMAL ;;;
     addstr (4 + cores + 1) 0
       (ljust "Commands: [f] Filter by PID | [s] Toggle Sort CPU/Mem | [a] Toggle Asc/Desc | [k] Kill Process"
          (width - 1)) A_NORMAL ;;;
     addstr (5 + cores + 1) 0
       (ljust ("Filter PID (leave empty to reset): "
                 ++ filter_pid_text (filter_pid st)) (width - 1)) A_NORMAL).

(** lines 97-98 *)
Definition apply_filters (st : view_state) (processes : list row) : list row :=
  match filter_pid st with
  | Some f => if f =? 0 then processes
              else filter (fun p => pid p =? f) processes
  | None => processes
  end.

(** lines 115-120 *)
Definition row_color (cpu_percent : Q) : attr :=
  if num_ltb (Int 80) (Float cpu_percent) then color_pair 1
  else if num_ltb (Int 40) (Float cpu_percent) then color_pair 2
  else color_pair 3.

(** lines 112 and 124: the tuple is unpacked into five names and two
    wildcards, so the last column shows item 4 *)
Definition row_text (process : row) : result string :=
  let disk_usage := memory_percent process in
  c_pid <- format_left (string_of_Z (pid process)) 10 ;;
  c_name <- format_left (str_prefix (name process) 28) 30 ;;
  c_cpu <- format_left (float_str (cpu_percent process)) 10 ;;
  c_mem <- format_left_optional (memory_usage process) 10 ;;
  Ok (c_pid ++ c_name ++ c_cpu ++ c_mem ++ string_of_Z disk_usage).

Definition header_start_row (cores : Z) : Z := 6 + cores.

(** line 109 *)
Definition max_displayable_processes (height cores : Z) (processes : list row) : Z :=
  Z.min (height - (header_start_row cores + 5)) (Z.of_nat (List.length processes)).

(** the rows the loop of line 111 goes through, with their screen rows *)
Definition visible_rows (height cores : Z) (processes : list row) : list (Z * row) :=
  enumerate (slice_to processes (max_displayable_processes height cores processes))
    (header_start_row cores + 2).

(** lines 100-126 *)
Definition draw_table (cores height width : Z) (processes : list row) : draw unit :=
  try_curses
    (addstr (header_start_row cores) 0
       (ljust "PID" 10 ++ ljust "Process Name" 30 ++ ljust "CPU%" 10
          ++ ljust "Memory" 10 ++ "Disk I/O") A_NORMAL ;;;
     addstr (header_start_row cores + 1) 0 (str_mul "-" (Z.min (width - 1) 80))
       A_NORMAL) ;;;
  for_each (visible_rows height cores processes)
    (fun '(idx, process) =>
       let color := row_color (cpu_percent process) in
       try_curses
         (text <~ lift (row_text process) ;;
          addstr idx 0 (ljust text (width - 1)) color)).

(** lines 60-130: one pass of the loop up to [refresh] *)
Definition render (snap : snapshot) (st : view_state) : draw unit :=
  clear ;;;
  '(height, width) <~ getmaxyx ;;
  let cores := Z.of_nat (List.length (core_usages snap)) in
  draw_bars snap height width ;;;
  draw_header st cores width ;;;
  processes <~ lift (get_processes_info (process_list snap) (sort_by st)
                       (ascending st)) ;;
  draw_table cores height width (apply_filters st processes) ;;;
  addstr (height - 2) 0 (ljust (last_message st) (width - 1)) A_BOLD.

(** lines 156-164: the kill attempt and its status message *)
Definition kill_message (os : Z -> termination) (kill_pid_input : string)
  : result string :=
  match (kill_pid <- int_of_string kill_pid_input ;;
         _ <- terminate os kill_pid ;;
         Ok kill_pid) with
  | Ok kill_pid =>
      Ok ("Process " ++ string_of_Z kill_pid ++ " terminated successfully.")
  | Raise ValueError | Raise NoSuchProcess =>
      Ok ("Error: Invalid PID " ++ kill_pid_input ++ ".")
  | Raise AccessDenied =>
      Ok ("Error: Access denied to kill PID " ++ kill_pid_input ++ ".")
  | Raise e => Raise e
  end.

(** lines 133-168: the command for one key *)
Definition handle_key (os : Z -> termination) (key : Z) (typed : string)
  (st : view_state) : draw (option view_state) :=
  '(height, width) <~ getmaxyx ;;
  if key =? ord "q" then ret None
  else try_command st
    (if key =? ord "f" then
       addstr 5 25 (str_mul " " (width - 25)) A_NORMAL ;;;
       addstr 5 25 "Enter PID: " A_NORMAL ;;;
       pid_input <~ getstr typed 5 36 10 ;;
       filter_pid <~ lift (if isdigit pid_input
                           then n <- int_of_string pid_input ;; Ok (Some n)
                           else Ok None) ;;
       ret {| sort_by := sort_by st; ascending := ascending st;
              filter_pid := filter_pid; last_message := "" |}
     else if key =? ord "s" then
       let sort_by := if (sort_by st =? "cpu")%string then "memory" else "cpu" in
       ret {| sort_by := sort_by; ascending := ascending st;
              filter_pid := None;
              last_message := "Sorting by " ++ upper sort_by |}
     else if key =? ord "a" then
       let ascending := negb (ascending st) in
       ret {| sort_by := sort_by st; ascending := ascending;
              filter_pid := filter_pid st;
              last_message :=
                "Sorting in " ++ (if ascending then "ascending" else "descending")
                  ++ " order" |}
     else if key =? ord "k" then
       addstr (height - 2) 0 (ljust "Enter PID to kill: " (width - 1)) A_NORMAL ;;;
       kill_pid_input <~ getstr typed (height - 2) 16 10 ;;
       last_message <~ lift (kill_message os kill_pid_input) ;;
       ret {| sort_by := sort_by st; ascending := ascending st;
              filter_pid := filter_pid st; last_message := last_message |}
     else ret st).

End AnotherMonitor.

(** * Ranges and sample data *)


Definition window (h w : Z) : screen :=
  {| scr_height := h; scr_width := w; cells := [] |}.

(** a process whose resident size is one exbibyte *)
Definition huge_process : proc_info :=
  {| info_pid := 7; info_name := Some "big"; info_cpu_percent := 0;
     info_rss := 1024 ^ 6; info_io_counters := None |}.

Definition proc_alpha : proc_info :=
  {| info_pid := 1; info_name := Some "alpha"; info_cpu_percent := 90;
     info_rss := 1000; info_io_counters := Some (9, 0) |}.

Definition proc_beta : proc_info :=
  {| info_pid := 2; info_name := Some "beta"; info_cpu_percent := 50;
     info_rss := 5000; info_io_counters := Some (10, 0) |}.

Definition proc_gamma : proc_info :=
  {| info_pid := 3; info_name := Some "gamma"; info_cpu_percent := 10;
     info_rss := 3000; info_io_counters := None |}.



(** four cores, three processes *)
Definition system_sample : SystemMonitor.snapshot :=
  {| SystemMonitor.cpu_usage := 50;
     SystemMonitor.memory_usage_percent := 25;
     SystemMonitor.bar_io := [Ok (9, 0); Ok (10, 0); Raise AccessDenied];
     SystemMonitor.total_disk_capacity := 1000;
     SystemMonitor.core_usages := [10; 20; 30; 40]%Q;
     SystemMonitor.table_io := [Ok (9, 0); Ok (10, 0); Raise AccessDenied];
     SystemMonitor.process_list := [proc_alpha; proc_beta; proc_gamma] |}.

Definition another_sample : AnotherMonitor.snapshot :=
  {| AnotherMonitor.cpu_usage := 50;
     AnotherMonitor.memory_usage_percent := 25;
     AnotherMonitor.disk_usage_info :=
       {| AnotherMonitor.total := 1000; AnotherMonitor.used := 400;
          AnotherMonitor.free := 500; AnotherMonitor.percent := 45 |};
     AnotherMonitor.core_usages := [10; 20; 30; 40]%Q;
     AnotherMonitor.process_list := [proc_alpha; proc_beta; proc_gamma] |}.

(** processes that have read and written twice the capacity of the disk *)
Definition busy_sample : SystemMonitor.snapshot :=
  {| SystemMonitor.cpu_usage := 50;
     SystemMonitor.memory_usage_percent := 25;
     SystemMonitor.bar_io := [Ok (1500, 500)];
     SystemMonitor.total_disk_capacity := 1000;
     SystemMonitor.core_usages := [];
     SystemMonitor.table_io := [Ok (1500, 500)];
     SystemMonitor.process_list := [] |}.

(** the table rows of a screen: the cells drawn in a colour pair *)
Definition table_cells (scr : screen) : list (Z * Z * string * attr) :=
  filter (fun c => match snd c with color_pair _ => true | _ => false end)
    (cells scr).

(** the spec's [available_rows]: terminal height minus the fixed header,
    footer and bar region, not below 0 *)
Definition available_rows (height header_start_row : Z) : Z :=
  Z.max 0 (height - (header_start_row + 5)).

(** a drawing step that only adds cells to the screen *)
Definition grows {A : Type} (m : draw A) : Prop :=
  forall scr scr' r, m scr = (scr', r) -> incl (cells scr) (cells scr').

(** four processes with CPU% 10, 80, 80 and 5, in this order *)
Definition tied_processes : list proc_info :=
  [ {| info_pid := 11; info_name := Some "a"; info_cpu_percent := 10;
       info_rss := 100; info_io_counters := None |};
    {| info_pid := 12; info_name := Some "b"; info_cpu_percent := 80;
       info_rss := 100; info_io_counters := None |};
    {| info_pid := 13; info_name := Some "c"; info_cpu_percent := 80;
       info_rss := 100; info_io_counters := None |};
    {| info_pid := 14; info_name := Some "d"; info_cpu_percent := 5;
       info_rss := 100; info_io_counters := None |} ].

(** the rows whose CPU% equals [v] *)
Definition with_cpu (v : Q) (rows : list AnotherMonitor.row) : list AnotherMonitor.row :=
  filter (fun r => Qeq_bool (AnotherMonitor.cpu_percent r) v) rows.

(** * Predicates for the properties below *)

(** what [io_counters()] can give that [get_total_disk_io] goes past: the
    counters, or one of the two exceptions it catches *)
Definition skippable (p : result (Z * Z)) : Prop :=
  match p with
  | Ok _ | Raise NoSuchProcess | Raise AccessDenied => True
  | Raise _ => False
  end.

(** the bytes read and written by the processes whose counters can be read *)
Fixpoint readable_io (procs : list (result (Z * Z))) : Z :=
  match procs with
  | [] => 0
  | Ok (read_bytes, write_bytes) :: rest => read_bytes + write_bytes + readable_io rest
  | Raise _ :: rest => readable_io rest
  end.

(** a drawing step whose only failure is curses.error *)
Definition curses_only {A : Type} (m : draw A) : Prop :=
  forall scr, (exists a, snd (m scr) = Ok a) \/ snd (m scr) = Raise CursesError.

(** a drawing step that keeps the size of the window *)
Definition keeps_size {A : Type} (m : draw A) : Prop :=
  forall scr, scr_height (fst (m scr)) = scr_height scr /\
              scr_width (fst (m scr)) = scr_width scr.



(** the read and write bytes that [process_row] takes from [io_counters] *)
Definition io_bytes (p : proc_info) : Z :=
  match info_io_counters p with
  | Some (read_bytes, write_bytes) => read_bytes + write_bytes
  | None => 0
  end.

(** what [proc.io_counters()] gives for a process whose [info] holds the
    counters, and the refusal that leaves None in [info] *)
Definition counters_seen (p : proc_info) : result (Z * Z) :=
  match info_io_counters p with
  | Some c => Ok c
  | None => Raise AccessDenied
  end.

(** the sum of a column of integers *)
Definition column_sum (l : list Z) : Z := fold_right Z.add 0 l.

(** byte counts as the operating system reports them: not negative, and
    far below the range of a float *)
Definition counts_in_range (p : proc_info) : Prop :=
  0 <= info_rss p < 2 ^ 1023 /\
  match info_io_counters p with
  | Some (read_bytes, write_bytes) =>
      0 <= read_bytes /\ 0 <= write_bytes /\ read_bytes + write_bytes < 2 ^ 1023
  | None => True
  end.

(** * Properties

    ** Rounding *)

Lemma round_half_even_bounds (n d : Z) :
  0 < d -> n / d <= round_half_even n d <= n / d + 1.
Proof.
  intros Hd. unfold round_half_even.
  destruct (2 * (n mod d) ?= d); [destruct (Z.even (n / d))| |]; lia.
Qed.

Lemma round_half_even_exact (n d : Z) :
  0 < d -> n mod d = 0 -> round_half_even n d = n / d.
Proof.
  intros Hd Hr. unfold round_half_even. rewrite Hr.
  destruct (2 * 0 ?= d) eqn:E; try reflexivity.
  - apply Z.compare_eq in E. lia.
  - apply Z.compare_gt_iff in E. lia.
Qed.

Lemma ilog2_ratio_spec (n d : Z) :
  0 < d -> d <= n ->
  0 <= ilog2_ratio n d /\
  d * 2 ^ ilog2_ratio n d <= n < d * 2 ^ (ilog2_ratio n d + 1).
Proof.
  intros Hd Hn. unfold ilog2_ratio.
  assert (Hln := Z.log2_spec n ltac:(lia)).
  assert (Hld := Z.log2_spec d Hd).
  assert (Hmono : Z.log2 d <= Z.log2 n) by (apply Z.log2_le_mono; lia).
  assert (H0n := Z.log2_nonneg n). assert (H0d := Z.log2_nonneg d).
  set (e0 := Z.log2 n - Z.log2 d) in *.
  assert (He0 : 0 <= e0) by (unfold e0; lia).
  destruct (0 <=? e0) eqn:E0; [|apply Z.leb_gt in E0; lia].
  assert (Hsplit : 2 ^ Z.log2 n = 2 ^ Z.log2 d * 2 ^ e0).
  { rewrite <- Z.pow_add_r by lia. f_equal. unfold e0. lia. }
  assert (Hp : 0 < 2 ^ e0) by (apply Z.pow_pos_nonneg; lia).
  assert (Hpd : 0 < 2 ^ Z.log2 d) by (apply Z.pow_pos_nonneg; lia).
  destruct (d * 2 ^ e0 <=? n) eqn:Ea.
  - apply Z.leb_le in Ea. split; [lia|]. split; [lia|].
    rewrite (Z.pow_add_r 2 e0 1) by lia. change (2 ^ 1) with 2.
    replace (Z.succ (Z.log2 n)) with (Z.log2 n + 1) in Hln by lia.
    rewrite Z.pow_add_r in Hln by lia. change (2 ^ 1) with 2 in Hln. nia.
  - apply Z.leb_gt in Ea.
    assert (e0 <> 0) by (intros Hz; rewrite Hz in Ea; change (2 ^ 0) with 1 in Ea; lia).
    split; [lia|].
    replace (e0 - 1 + 1) with e0 by lia. split; [|lia].
    assert (Hs : 2 ^ e0 = 2 * 2 ^ (e0 - 1)).
    { rewrite <- Z.pow_succ_r by lia. f_equal. lia. }
    replace (Z.succ (Z.log2 d)) with (Z.log2 d + 1) in Hld by lia.
    rewrite Z.pow_add_r in Hld by lia. change (2 ^ 1) with 2 in Hld.
    assert (0 < 2 ^ (e0 - 1)) by (apply Z.pow_pos_nonneg; lia).
    nia.
Qed.

Lemma ulp_exp_normal (n d : Z) :
  0 < d -> d <= n -> ulp_exp n d = ilog2_ratio n d - 52.
Proof.
  intros Hd Hn. destruct (ilog2_ratio_spec n d Hd Hn) as [He _].
  unfold ulp_exp. lia.
Qed.

Lemma pow2_split (a b : Z) : 0 <= a -> 0 <= b -> 2 ^ (a + b) = 2 ^ a * 2 ^ b.
Proof. intros. apply Z.pow_add_r; lia. Qed.

Lemma pow2_pos (a : Z) : 0 <= a -> 0 < 2 ^ a.
Proof. intros. apply Z.pow_pos_nonneg; lia. Qed.

Lemma binary64_pos_ge (n d k : Z) :
  0 < d -> 0 <= k -> d * 2 ^ k <= n ->
  (inject_Z (2 ^ k) <= binary64_pos n d)%Q.
Proof.
  intros Hd Hk Hn.
  assert (Hk0 := pow2_pos k Hk).
  assert (Hdn : d <= n) by nia.
  destruct (ilog2_ratio_spec n d Hd Hdn) as (He & Hlo & Hhi).
  unfold binary64_pos, round_mantissa. rewrite (ulp_exp_normal n d Hd Hdn).
  set (e := ilog2_ratio n d) in *.
  assert (Hke : k <= e).
  { destruct (Z_le_gt_dec k e) as [|Hgt]; [assumption|exfalso].
    assert (2 ^ (e + 1) <= 2 ^ k) by (apply Z.pow_le_mono_r; lia). nia. }
  assert (Hpk : 2 ^ k <= 2 ^ e) by (apply Z.pow_le_mono_r; lia).
  unfold scale2. destruct (0 <=? e - 52) eqn:Eu.
  - apply Z.leb_le in Eu.
    assert (Hs : 2 ^ e = 2 ^ 52 * 2 ^ (e - 52)).
    { rewrite <- pow2_split by lia. f_equal. lia. }
    assert (Hu := pow2_pos (e - 52) Eu).
    assert (HD : 0 < d * 2 ^ (e - 52)) by nia.
    destruct (round_half_even_bounds n (d * 2 ^ (e - 52)) HD) as [Hm _].
    assert (2 ^ 52 <= n / (d * 2 ^ (e - 52))).
    { apply Z.div_le_lower_bound; [assumption|]. rewrite Hs in Hlo. nia. }
    rewrite <- Zle_Qle. nia.
  - apply Z.leb_gt in Eu.
    assert (Hs : 2 ^ 52 = 2 ^ e * 2 ^ (- (e - 52))).
    { rewrite <- pow2_split by lia. f_equal. lia. }
    assert (Hu := pow2_pos (- (e - 52)) ltac:(lia)).
    destruct (round_half_even_bounds (n * 2 ^ (- (e - 52))) d Hd) as [Hm _].
    assert (2 ^ 52 <= n * 2 ^ (- (e - 52)) / d).
    { apply Z.div_le_lower_bound; [assumption|]. rewrite Hs. nia. }
    rewrite Qred_correct. unfold Qle. cbn [Qnum Qden inject_Z].
    rewrite Z2Pos.id by assumption. nia.
Qed.

Lemma binary64_pos_le (n d k : Z) :
  0 < d -> 0 <= k -> d <= n -> n <= d * 2 ^ k ->
  (binary64_pos n d <= inject_Z (2 ^ k))%Q.
Proof.
  intros Hd Hk Hdn Hn.
  assert (Hk0 := pow2_pos k Hk).
  destruct (ilog2_ratio_spec n d Hd Hdn) as (He & Hlo & Hhi).
  unfold binary64_pos, round_mantissa. rewrite (ulp_exp_normal n d Hd Hdn).
  set (e := ilog2_ratio n d) in *.
  assert (Hpe := pow2_pos e He).
  assert (Hke : e <= k).
  { destruct (Z_le_gt_dec e k) as [|Hgt]; [assumption|exfalso].
    assert (2 ^ (k + 1) <= 2 ^ e) by (apply Z.pow_le_mono_r; lia).
    rewrite pow2_split in H by lia. change (2 ^ 1) with 2 in H. nia. }
  assert (He1 : 2 ^ (e + 1) = 2 * 2 ^ e).
  { rewrite pow2_split by lia. change (2 ^ 1) with 2. lia. }
  unfold scale2. destruct (0 <=? e - 52) eqn:Eu.
  - apply Z.leb_le in Eu.
    assert (Hs : 2 ^ e = 2 ^ 52 * 2 ^ (e - 52)).
    { rewrite <- pow2_split by lia. f_equal. lia. }
    assert (Hu := pow2_pos (e - 52) Eu).
    set (D := d * 2 ^ (e - 52)) in *.
    assert (HD : 0 < D) by (unfold D; nia).
    rewrite <- Zle_Qle.
    destruct (Z.eq_dec e k) as [Hek|Hek].
    + subst k. assert (HnD : n = D * 2 ^ 52) by (unfold D; nia).
      rewrite round_half_even_exact; [|assumption|].
      * rewrite HnD, (Z.mul_comm D), Z.div_mul by lia. lia.
      * rewrite HnD, (Z.mul_comm D). apply Z.mod_mul. lia.
    + destruct (round_half_even_bounds n D HD) as [_ Hm].
      assert (n / D < 2 * 2 ^ 52).
      { apply Z.div_lt_upper_bound; [assumption|]. unfold D. nia. }
      assert (2 ^ (e + 1) <= 2 ^ k) by (apply Z.pow_le_mono_r; lia).
      nia.
  - apply Z.leb_gt in Eu.
    assert (Hs : 2 ^ 52 = 2 ^ e * 2 ^ (- (e - 52))).
    { rewrite <- pow2_split by lia. f_equal. lia. }
    assert (Hu := pow2_pos (- (e - 52)) ltac:(lia)).
    set (P := 2 ^ (- (e - 52))) in *.
    rewrite Qred_correct. unfold Qle. cbn [Qnum Qden inject_Z].
    rewrite Z2Pos.id by assumption.
    destruct (Z.eq_dec e k) as [Hek|Hek].
    + subst k. assert (HnD : n * P = d * 2 ^ 52) by nia.
      rewrite round_half_even_exact; [|assumption|].
      * rewrite HnD, (Z.mul_comm d), Z.div_mul by lia. lia.
      * rewrite HnD, (Z.mul_comm d). apply Z.mod_mul. lia.
    + destruct (round_half_even_bounds (n * P) d Hd) as [_ Hm].
      assert (n * P / d < 2 * 2 ^ 52).
      { apply Z.div_lt_upper_bound; [assumption|]. nia. }
      assert (2 ^ (e + 1) <= 2 ^ k) by (apply Z.pow_le_mono_r; lia).
      nia.
Qed.


Lemma binary64_of_pos (q : Q) :
  (0 < q)%Q -> binary64 q = binary64_pos (Qnum q) (Zpos (Qden q)).
Proof.
  destruct q as [a b]. unfold Qlt, binary64. cbn [Qnum Qden].
  destruct a; intros H; try reflexivity; lia.
Qed.

Lemma binary64_ge_pow2 (q : Q) (k : Z) :
  0 <= k -> (inject_Z (2 ^ k) <= q)%Q -> (inject_Z (2 ^ k) <= binary64 q)%Q.
Proof.
  intros Hk Hq. assert (Hk0 := pow2_pos k Hk).
  assert (Hpos : (0 < q)%Q).
  { eapply Qlt_le_trans; [|exact Hq]. rewrite <- (Zlt_Qlt 0). assumption. }
  rewrite (binary64_of_pos q Hpos).
  apply binary64_pos_ge; [lia|assumption|].
  unfold Qle in Hq. cbn [Qnum Qden inject_Z] in Hq. lia.
Qed.

Lemma binary64_le_pow2 (q : Q) (k : Z) :
  0 <= k -> (1 <= q)%Q -> (q <= inject_Z (2 ^ k))%Q ->
  (binary64 q <= inject_Z (2 ^ k))%Q.
Proof.
  intros Hk H1 Hq.
  assert (Hpos : (0 < q)%Q) by (apply Qlt_le_trans with 1%Q; [reflexivity|exact H1]).
  rewrite (binary64_of_pos q Hpos).
  unfold Qle in H1, Hq. cbn [Qnum Qden inject_Z] in H1, Hq.
  apply binary64_pos_le; [lia|assumption|lia|lia].
Qed.

Lemma Qdiv_1024_lower (x A : Q) :
  (1024 * A <= x)%Q -> (A <= x / inject_Z 1024)%Q.
Proof.
  intros H. change (x / inject_Z 1024)%Q with (x * (1 # 1024))%Q. lra.
Qed.

Lemma Qdiv_1024_upper (x B : Q) :
  (x <= 1024 * B)%Q -> (x / inject_Z 1024 <= B)%Q.
Proof.
  intros H. change (x / inject_Z 1024)%Q with (x * (1 # 1024))%Q. lra.
Qed.

Lemma get_size_loop_exhausted (suffix : string) (us : list string) :
  forall a : number,
    (inject_Z (2 ^ (10 * Z.of_nat (List.length us))) <= to_Q a)%Q ->
    (to_Q a <= inject_Z (2 ^ 1024))%Q ->
    get_size_loop a us suffix = Ok None.
Proof.
  induction us as [|unit rest IH]; intros a Hlo Hhi; [reflexivity|].
  cbn [get_size_loop].
  set (k := 10 * Z.of_nat (List.length rest)).
  assert (Hk : 0 <= k) by (unfold k; lia).
  assert (Hsplit : inject_Z (2 ^ (10 * Z.of_nat (List.length (unit :: rest))))
                   == 1024 * inject_Z (2 ^ k)).
  { cbn [List.length]. replace (10 * Z.of_nat (S (List.length rest))) with (10 + k)
      by (unfold k; lia).
    rewrite pow2_split by lia. rewrite inject_Z_mult. reflexivity. }
  rewrite Hsplit in Hlo.
  assert (Hk1 : (1 <= inject_Z (2 ^ k))%Q).
  { rewrite <- (Zle_Qle 1). assert (H := pow2_pos k Hk). lia. }
  assert (Hhi' : (to_Q a <= 1024 * inject_Z (2 ^ 1014))%Q).
  { change (inject_Z (2 ^ 1024)) with (inject_Z (2 ^ 10 * 2 ^ 1014)) in Hhi.
    rewrite inject_Z_mult in Hhi. exact Hhi. }
  set (q := (to_Q a / inject_Z 1024)%Q).
  assert (Hqlo : (inject_Z (2 ^ k) <= q)%Q) by (apply Qdiv_1024_lower, Hlo).
  assert (Hqhi : (q <= inject_Z (2 ^ 1014))%Q) by (apply Qdiv_1024_upper, Hhi').
  assert (Hq1 : (1 <= q)%Q) by (eapply Qle_trans; eassumption).
  assert (Hblo := binary64_ge_pow2 q k Hk Hqlo).
  assert (Hbhi := binary64_le_pow2 q 1014 ltac:(lia) Hq1 Hqhi).
  assert (Hstep : (inject_Z (2 ^ 1014) < inject_Z (2 ^ 1024))%Q).
  { rewrite <- Zlt_Qlt. apply Z.pow_lt_mono_r; lia. }
  assert (Hlt : num_ltb a (Int 1024) = false).
  { unfold num_ltb. apply negb_false_iff. apply Qle_bool_iff.
    cbn [to_Q]. eapply Qle_trans; [|exact Hlo].
    generalize dependent (inject_Z (2 ^ k)). intros A; intros.
    change (inject_Z 1024) with 1024%Q. lra. }
  rewrite Hlt. unfold truediv. cbn [to_Q].
  change (Qeq_bool (inject_Z 1024) 0) with false. cbv iota.
  fold q.
  assert (Hov : overflows q = false).
  { unfold overflows. apply not_true_is_false. intros Ht.
    apply Qle_bool_iff in Ht.
    rewrite Qabs_pos in Ht by (eapply Qle_trans; [|exact Hblo];
                               eapply Qle_trans; [|exact Hk1]; discriminate).
    apply (Qlt_irrefl (inject_Z (2 ^ 1024))).
    eapply Qle_lt_trans; [exact Ht|]. eapply Qle_lt_trans; eassumption. }
  rewrite Hov. cbn [bind]. apply IH; cbn [to_Q]; [exact Hblo|].
  eapply Qle_trans; [exact Hbhi|]. apply Qlt_le_weak, Hstep.
Qed.

Lemma get_size_None (bytes : Z) :
  1024 ^ 6 <= bytes -> bytes < 2 ^ 1024 -> get_size bytes = Ok None.
Proof.
  intros Hlo Hhi. unfold get_size. apply get_size_loop_exhausted; cbn [to_Q].
  - rewrite <- Zle_Qle. exact Hlo.
  - rewrite <- Zle_Qle. lia.
Qed.

Lemma ilog2_ratio_small (n d : Z) : 0 < n -> n < d -> ilog2_ratio n d <= 0.
Proof.
  intros Hn Hd. unfold ilog2_ratio.
  assert (Hmono : Z.log2 n <= Z.log2 d) by (apply Z.log2_le_mono; lia).
  set (e0 := Z.log2 n - Z.log2 d) in *.
  destruct (0 <=? e0) eqn:E0.
  - apply Z.leb_le in E0. replace e0 with 0 by lia.
    change (2 ^ 0) with 1. destruct (d * 1 <=? n) eqn:E; [|lia].
    apply Z.leb_le in E. lia.
  - apply Z.leb_gt in E0. destruct (d <=? n * 2 ^ (- e0)); lia.
Qed.

Lemma binary64_pos_le_1 (n d : Z) :
  0 < n -> n < d -> (binary64_pos n d <= 1)%Q.
Proof.
  intros Hn Hd.
  assert (He := ilog2_ratio_small n d Hn Hd).
  unfold binary64_pos, round_mantissa, scale2.
  set (u := ulp_exp n d).
  assert (Hu : u < 0) by (unfold u, ulp_exp; lia).
  destruct (0 <=? u) eqn:Eu; [apply Z.leb_le in Eu; lia|].
  assert (HP := pow2_pos (- u) ltac:(lia)).
  set (P := 2 ^ (- u)) in *.
  destruct (round_half_even_bounds (n * P) d ltac:(lia)) as [_ Hm].
  assert (n * P / d < P) by (apply Z.div_lt_upper_bound; nia).
  rewrite Qred_correct. unfold Qle. cbn [Qnum Qden].
  rewrite Z2Pos.id by assumption. lia.
Qed.

Lemma binary64_pos_nonneg (n d : Z) :
  0 < n -> 0 < d -> (0 <= binary64_pos n d)%Q.
Proof.
  intros Hn Hd. unfold binary64_pos, round_mantissa, scale2.
  set (u := ulp_exp n d).
  destruct (0 <=? u) eqn:Eu.
  - apply Z.leb_le in Eu. assert (HP := pow2_pos u Eu).
    destruct (round_half_even_bounds n (d * 2 ^ u) ltac:(nia)) as [Hm _].
    assert (0 <= n / (d * 2 ^ u)) by (apply Z.div_pos; nia).
    rewrite <- (Zle_Qle 0). nia.
  - apply Z.leb_gt in Eu. assert (HP := pow2_pos (- u) ltac:(lia)).
    destruct (round_half_even_bounds (n * 2 ^ (- u)) d Hd) as [Hm _].
    assert (0 <= n * 2 ^ (- u) / d) by (apply Z.div_pos; nia).
    rewrite Qred_correct. unfold Qle. cbn [Qnum Qden]. lia.
Qed.

Lemma binary64_nonneg (q : Q) : (0 <= q)%Q -> (0 <= binary64 q)%Q.
Proof.
  destruct q as [a b]. unfold Qle, binary64. cbn [Qnum Qden]. intros H.
  destruct a; [discriminate| |lia].
  apply binary64_pos_nonneg; lia.
Qed.

(** rounding never crosses a power of two from below *)
Lemma binary64_le_pow2_pos (q : Q) (k : Z) :
  0 <= k -> (0 < q)%Q -> (q <= inject_Z (2 ^ k))%Q ->
  (binary64 q <= inject_Z (2 ^ k))%Q.
Proof.
  intros Hk Hpos Hq.
  destruct (Qlt_le_dec q 1) as [Hlt|Hge].
  - rewrite (binary64_of_pos q Hpos).
    apply Qle_trans with 1%Q.
    + unfold Qlt in Hpos, Hlt. cbn [Qnum Qden] in Hpos, Hlt.
      apply binary64_pos_le_1; lia.
    + rewrite <- (Zle_Qle 1). assert (H := pow2_pos k Hk). lia.
  - apply binary64_le_pow2; assumption.
Qed.

(** rounding never crosses a small integer from above *)
Lemma binary64_ge_int (q : Q) (c : Z) :
  0 < c -> c <= 2 ^ 52 -> (inject_Z c <= q)%Q -> (inject_Z c <= binary64 q)%Q.
Proof.
  intros Hc Hc52 Hq.
  assert (Hpos : (0 < q)%Q).
  { eapply Qlt_le_trans; [|exact Hq]. rewrite <- (Zlt_Qlt 0). assumption. }
  destruct (Qlt_le_dec q (inject_Z (2 ^ 52))) as [Hlt|Hge].
  - rewrite (binary64_of_pos q Hpos).
    destruct q as [n d]. unfold Qle in Hq. unfold Qlt in Hlt, Hpos.
    cbn [Qnum Qden inject_Z] in *.
    assert (Hdn : Zpos d <= n) by nia.
    destruct (ilog2_ratio_spec n (Zpos d) ltac:(lia) Hdn) as (He & Hlo & Hhi).
    unfold binary64_pos, round_mantissa. rewrite (ulp_exp_normal n (Zpos d)) by lia.
    set (e := ilog2_ratio n (Zpos d)) in *.
    assert (Hpe := pow2_pos e He).
    assert (He52 : e < 52).
    { destruct (Z_lt_ge_dec e 52) as [|Hge]; [assumption|exfalso].
      assert (2 ^ 52 <= 2 ^ e) by (apply Z.pow_le_mono_r; lia). nia. }
    unfold scale2. destruct (0 <=? e - 52) eqn:Eu; [apply Z.leb_le in Eu; lia|].
    assert (HP := pow2_pos (- (e - 52)) ltac:(lia)).
    set (P := 2 ^ (- (e - 52))) in *.
    destruct (round_half_even_bounds (n * P) (Zpos d) ltac:(lia)) as [Hm _].
    assert (c * P <= n * P / Zpos d) by (apply Z.div_le_lower_bound; nia).
    rewrite Qred_correct. unfold Qle. cbn [Qnum Qden inject_Z].
    rewrite Z2Pos.id by assumption. lia.
  - apply Qle_trans with (inject_Z (2 ^ 52)).
    + rewrite <- Zle_Qle. assumption.
    + apply binary64_ge_pow2; [lia|assumption].
Qed.

(** ** Conformance of the rounding with the Standard Library's specification *)

Example binary64_agrees_with_SpecFloat :
  forallb agrees_with_spec_float
    [(9, 19); (1, 3); (2, 3); (29, 100); (8001, 100); (1, 10);
     (2 ^ 60 - 1, 1024); (2 ^ 60 - 65, 1024); (2 ^ 64 - 1, 3);
     (2 ^ 53 + 1, 1); (2 ^ 53 + 3, 1); (2 ^ 54 + 2, 1); (2 ^ 54 + 6, 1);
     (1, 2 ^ 1070); (3, 2 ^ 1075); (1, 2 ^ 1074); (1, 2 ^ 1075);
     (3, 2 ^ 1076); (5, 2 ^ 1076); (2 ^ 1040, 1024); (2 ^ 1034 - 1, 1024)]%positive
  = true.
Proof. vm_compute. reflexivity. Qed.

Example float_str_examples :
  map float_str [0; 1 # 2; 25 # 2; 90; binary64 (1 # 10); binary64 (8001 # 100);
                 binary64 (1 # 3); inject_Z (10 ^ 16); binary64 (1 # 100000)]%Q
  = ["0.0"; "0.5"; "12.5"; "90.0"; "0.1"; "80.01"; "0.3333333333333333";
     "1e+16"; "1e-05"].
Proof. vm_compute. reflexivity. Qed.

Example format_2f_examples :
  map format_2f [Int 0; Int 7; Float (1 # 8); Float (3 # 8);
                 Float (binary64 (2675 # 1000)); Float (999999 # 1000);
                 Int (2 ^ 53 + 1); Int (- (2 ^ 53 + 1)); Int (- 2 ^ 1024)]
  = [Ok "0.00"; Ok "7.00"; Ok "0.12"; Ok "0.38"; Ok "2.67"; Ok "1000.00";
     Ok "9007199254740992.00"; Ok "-9007199254740992.00"; Raise OverflowError].
Proof. vm_compute. reflexivity. Qed.

Example int_of_string_examples :
  map int_of_string [" 12 "; "+5"; "-3"; "1_000"; "007"; ""; "abc"; "12a"; "1__0";
                     String (ascii_of_nat 28) "1192"; String (ascii_of_nat 9) "7"]
  = [Ok 12; Ok 5; Ok (-3); Ok 1000; Ok 7; Raise ValueError; Raise ValueError;
     Raise ValueError; Raise ValueError; Raise ValueError; Ok 7].
Proof. vm_compute. reflexivity. Qed.

(** ** get_size *)

Example get_size_0 : get_size 0 = Ok (Some "0.00B").
Proof. vm_compute. reflexivity. Qed.
Example get_size_1023 : get_size 1023 = Ok (Some "1023.00B").
Proof. vm_compute. reflexivity. Qed.
Example get_size_1536 : get_size 1536 = Ok (Some "1.50KB").
Proof. vm_compute. reflexivity. Qed.
Example get_size_g : get_size (1024 ^ 3) = Ok (Some "1.00GB").
Proof. vm_compute. reflexivity. Qed.
Example get_size_big : get_size (1024 ^ 6) = Ok None.
Proof. vm_compute. reflexivity. Qed.
Example get_size_below : get_size (1024 ^ 6 - 1) = Ok None.
Proof. vm_compute. reflexivity. Qed.
Example get_size_below2 : get_size (1024 ^ 6 - 65) = Ok (Some "1024.00PB").
Proof. vm_compute. reflexivity. Qed.
Example get_size_huge : get_size (2 ^ 1040) = Raise OverflowError.
Proof. vm_compute. reflexivity. Qed.
Example get_size_negative :
  get_size (- (2 ^ 53 + 1)) = Ok (Some "-9007199254740992.00B") /\
  get_size (- 2 ^ 1024) = Raise OverflowError.
Proof. split; vm_compute; reflexivity. Qed.


(** *** Exact cases of the rounding *)

Lemma round_half_even_scale (n d c : Z) :
  0 < d -> 0 < c -> round_half_even (n * c) (d * c) = round_half_even n d.
Proof.
  intros Hd Hc. unfold round_half_even.
  rewrite Z.div_mul_cancel_r by lia.
  rewrite Zmult_mod_distr_r.
  set (r := n mod d).
  assert (Hcmp : (2 * (r * c) ?= d * c) = (2 * r ?= d)).
  { destruct (Z.compare_spec (2 * r) d);
      [apply Z.compare_eq_iff|apply Z.compare_lt_iff|apply Z.compare_gt_iff]; nia. }
  rewrite Hcmp. reflexivity.
Qed.

Lemma format_float_2f_Qeq (x y : Q) :
  x == y -> format_float_2f x = format_float_2f y.
Proof.
  destruct x as [nx dx], y as [ny dy]. unfold Qeq, format_float_2f.
  cbn [Qnum Qden]. intros H.
  assert (Hsign : (nx <? 0) = (ny <? 0)).
  { destruct (Z.ltb_spec nx 0), (Z.ltb_spec ny 0); try reflexivity; nia. }
  assert (Habs : Z.abs nx * Zpos dy = Z.abs ny * Zpos dx).
  { rewrite <- (Z.abs_eq (Zpos dy)), <- (Z.abs_eq (Zpos dx)) by lia.
    rewrite <- !Z.abs_mul. f_equal. exact H. }
  assert (Hr : round_half_even (Z.abs nx * 100) (Zpos dx)
               = round_half_even (Z.abs ny * 100) (Zpos dy)).
  { rewrite <- (round_half_even_scale (Z.abs nx * 100) (Zpos dx) (Zpos dy))
      by lia.
    rewrite <- (round_half_even_scale (Z.abs ny * 100) (Zpos dy) (Zpos dx))
      by lia.
    f_equal; nia. }
  rewrite Hsign, Hr. reflexivity.
Qed.

(** a value with at most 53 significant bits is not changed by the rounding *)
Lemma binary64_exact (q : Q) (n j : Z) :
  0 < n -> n < 2 ^ 53 -> 0 <= j -> (1 <= q)%Q ->
  Qnum q * 2 ^ j = n * Zpos (Qden q) ->
  binary64 q == q.
Proof.
  intros Hn Hn53 Hj H1 Hq.
  assert (Hpos : (0 < q)%Q) by (apply Qlt_le_trans with 1%Q; [reflexivity|exact H1]).
  rewrite (binary64_of_pos q Hpos).
  destruct q as [N D]. unfold Qle in H1. cbn [Qnum Qden] in *.
  assert (HD : 0 < Zpos D) by lia.
  assert (HDN : Zpos D <= N) by lia.
  destruct (ilog2_ratio_spec N (Zpos D) HD HDN) as (He & Hlo & _).
  unfold binary64_pos, round_mantissa. rewrite (ulp_exp_normal N (Zpos D) HD HDN).
  set (e := ilog2_ratio N (Zpos D)) in *.
  assert (Hpj := pow2_pos j Hj). assert (Hpe := pow2_pos e He).
  assert (Hej : e + j < 53).
  { destruct (Z_lt_ge_dec (e + j) 53) as [|Hge]; [assumption|exfalso].
    assert (2 ^ 53 <= 2 ^ (e + j)) by (apply Z.pow_le_mono_r; lia).
    rewrite pow2_split in H by lia. nia. }
  unfold scale2. destruct (0 <=? e - 52) eqn:Eu.
  - apply Z.leb_le in Eu.
    assert (e = 52) by lia. assert (j = 0) by lia. subst j.
    replace (e - 52) with 0 by lia. change (2 ^ 0) with 1 in *.
    rewrite !Z.mul_1_r in *. subst N.
    rewrite round_half_even_exact by (try apply Z.mod_mul; lia).
    rewrite Z.div_mul by lia. unfold Qeq. cbn [Qnum Qden inject_Z]. lia.
  - apply Z.leb_gt in Eu.
    set (t := - (e - 52) - j).
    assert (Ht : 0 <= t) by (unfold t; lia).
    assert (Hpt := pow2_pos t Ht).
    assert (HP : 2 ^ (- (e - 52)) = 2 ^ j * 2 ^ t).
    { rewrite <- pow2_split by lia. f_equal. unfold t. lia. }
    assert (HNP : N * 2 ^ (- (e - 52)) = (n * 2 ^ t) * Zpos D) by (rewrite HP; nia).
    rewrite HNP.
    rewrite round_half_even_exact by (try apply Z.mod_mul; lia).
    rewrite Z.div_mul by lia.
    rewrite Qred_correct. unfold Qeq. cbn [Qnum Qden].
    rewrite Z2Pos.id by (rewrite HP; nia). rewrite HP. nia.
Qed.

(** an int below 2^53 is converted to a float without rounding *)
Lemma to_float_small (n : Z) :
  0 <= n -> n < 2 ^ 53 ->
  exists x, to_float (Int n) = Ok x /\ x == inject_Z n.
Proof.
  intros H0 H53. cbn [to_float].
  assert (Hex : binary64 (inject_Z n) == inject_Z n).
  { destruct (Z.eq_dec n 0) as [-> | Hn0]; [reflexivity|].
    apply (binary64_exact (inject_Z n) n 0); try lia.
    - rewrite <- (Zle_Qle 1). lia.
    - cbn [Qnum Qden inject_Z]. lia. }
  assert (Hov : overflows (inject_Z n) = false).
  { unfold overflows. apply not_true_is_false. intros Ht.
    apply Qle_bool_iff in Ht. rewrite Hex in Ht.
    rewrite Qabs_pos in Ht by (rewrite <- (Zle_Qle 0); exact H0).
    rewrite <- Zle_Qle in Ht.
    assert (2 ^ 53 < 2 ^ 1024) by (apply Z.pow_lt_mono_r; lia). lia. }
  rewrite Hov. eexists. split; [reflexivity|exact Hex].
Qed.

(** the text of a value that the divisions by 1024 have kept exact *)
Lemma format_2f_exact (a : number) (bytes j : Z) :
  0 < bytes -> bytes < 2 ^ 53 -> 0 <= j ->
  to_Q a == bytes # pow1024 j ->
  format_2f a = Ok (format_float_2f (bytes # pow1024 j)).
Proof.
  intros Hb Hb53 Hj Ha. destruct a as [n|x]; cbn [to_Q] in Ha.
  - assert (HP : Zpos (pow1024 j) = 2 ^ (10 * j)).
    { unfold pow1024. change 1024 with (2 ^ 10). rewrite <- Z.pow_mul_r by lia.
      rewrite Z2Pos.id by (apply pow2_pos; lia). reflexivity. }
    assert (Hpj := pow2_pos (10 * j) ltac:(lia)).
    assert (Hn : n * 2 ^ (10 * j) = bytes).
    { unfold Qeq in Ha. cbn [Qnum Qden inject_Z] in Ha. rewrite HP in Ha. lia. }
    destruct (to_float_small n ltac:(nia) ltac:(nia)) as (x & Hx & Hxn).
    unfold format_2f. rewrite Hx. cbn [bind]. f_equal.
    apply format_float_2f_Qeq. rewrite Hxn. exact Ha.
  - unfold format_2f. cbn [to_float bind]. f_equal.
    apply format_float_2f_Qeq, Ha.
Qed.

(** *** The unit the loop selects *)

Lemma pow1024_spec (j : Z) : 0 <= j -> Zpos (pow1024 j) = 2 ^ (10 * j).
Proof.
  intros Hj. unfold pow1024. change 1024 with (2 ^ 10).
  rewrite <- Z.pow_mul_r by lia.
  rewrite Z2Pos.id by (apply pow2_pos; lia). reflexivity.
Qed.

Lemma get_size_loop_selects (suffix unit : string) (rest : list string)
  (bytes : Z) (skipped : list string) :
  forall (a : number) (j : Z),
    0 < bytes -> bytes < 2 ^ 53 -> 0 <= j ->
    to_Q a == bytes # pow1024 j ->
    2 ^ (10 * (j + Z.of_nat (List.length skipped))) <= bytes ->
    bytes < 2 ^ (10 * (j + Z.of_nat (List.length skipped) + 1)) ->
    get_size_loop a (skipped ++ unit :: rest) suffix
    = Ok (Some (format_float_2f
                  (bytes # pow1024 (j + Z.of_nat (List.length skipped)))
                  ++ unit ++ suffix)).
Proof.
  induction skipped as [|s skipped IH]; intros a j Hb Hb53 Hj Ha Hlo Hhi.
  - cbn [List.length Z.of_nat app get_size_loop] in *.
    rewrite Z.add_0_r in *.
    assert (HP := pow1024_spec j Hj). assert (Hpj := pow2_pos (10 * j) ltac:(lia)).
    assert (Hlt : num_ltb a (Int 1024) = true).
    { unfold num_ltb. apply negb_true_iff. apply not_true_is_false. intros Hle.
      apply Qle_bool_iff in Hle. rewrite Ha in Hle. unfold Qle in Hle.
      cbn [to_Q Qnum Qden inject_Z] in Hle. rewrite HP in Hle.
      replace (10 * (j + 1)) with (10 + 10 * j) in Hhi by lia.
      rewrite pow2_split in Hhi by lia. change (2 ^ 10) with 1024 in Hhi. lia. }
    rewrite Hlt, (format_2f_exact a bytes j Hb Hb53 Hj Ha). reflexivity.
  - cbn [List.length app get_size_loop] in *.
    rewrite Nat2Z.inj_succ in *.
    set (m := Z.of_nat (List.length skipped)) in *.
    assert (Hm : 0 <= m) by (unfold m; lia).
    assert (HP := pow1024_spec j Hj). assert (Hpj := pow2_pos (10 * j) ltac:(lia)).
    assert (HP1 := pow1024_spec (j + 1) ltac:(lia)).
    assert (Hs1 : 2 ^ (10 * (j + 1)) = 1024 * 2 ^ (10 * j)).
    { replace (10 * (j + 1)) with (10 + 10 * j) by lia.
      rewrite pow2_split by lia. reflexivity. }
    assert (Hmono : 2 ^ (10 * (j + 1)) <= 2 ^ (10 * (j + Z.succ m)))
      by (apply Z.pow_le_mono_r; lia).
    assert (Hlt : num_ltb a (Int 1024) = false).
    { unfold num_ltb. apply negb_false_iff. apply Qle_bool_iff.
      rewrite Ha. unfold Qle. cbn [to_Q Qnum Qden inject_Z]. rewrite HP. lia. }
    rewrite Hlt. unfold truediv. cbn [to_Q].
    change (Qeq_bool (inject_Z 1024) 0) with false. cbv iota.
    set (q := (to_Q a / inject_Z 1024)%Q).
    assert (Hq : q == bytes # pow1024 (j + 1)).
    { unfold q. rewrite Ha. unfold Qeq, Qdiv, Qmult, Qinv.
      cbn [Qnum Qden inject_Z]. rewrite Pos2Z.inj_mul, HP, HP1, Hs1. lia. }
    assert (Hq1 : (1 <= q)%Q).
    { rewrite Hq. unfold Qle. cbn [Qnum Qden]. rewrite HP1. lia. }
    assert (Hex : binary64 q == q).
    { apply (binary64_exact q bytes (10 * (j + 1))); try assumption; try lia.
      assert (Hq' := Hq). unfold Qeq in Hq'. cbn [Qnum Qden] in Hq'.
      rewrite HP1 in Hq'. exact Hq'. }
    assert (Hov : overflows q = false).
    { unfold overflows. apply not_true_is_false. intros Ht.
      apply Qle_bool_iff in Ht. rewrite Hex, Hq in Ht.
      rewrite Qabs_pos in Ht by (unfold Qle; cbn [Qnum Qden]; lia).
      unfold Qle in Ht. cbn [Qnum Qden inject_Z] in Ht. rewrite HP1 in Ht.
      assert (2 ^ 53 < 2 ^ 1024) by (apply Z.pow_lt_mono_r; lia).
      assert (0 < 2 ^ (10 * (j + 1))) by (apply pow2_pos; lia). nia. }
    rewrite Hov. cbn [bind].
    replace (j + Z.succ m) with ((j + 1) + m) in * by lia.
    apply IH; try assumption; try lia.
    cbn [to_Q]. rewrite Hex. exact Hq.
Qed.

(** *** get_size returns below the float range *)

Lemma format_2f_below_1024 (a : number) :
  (forall n, a = Int n -> 0 <= n) ->
  num_ltb a (Int 1024) = true ->
  exists text, format_2f a = Ok text.
Proof.
  intros Hint Hlt. destruct a as [n|x]; [|eexists; reflexivity].
  assert (H0 : 0 <= n) by (apply Hint; reflexivity).
  assert (H1 : n < 1024).
  { unfold num_ltb in Hlt. apply negb_true_iff in Hlt.
    destruct (Z_lt_ge_dec n 1024) as [|Hge]; [assumption|exfalso].
    assert (Hle : Qle_bool (to_Q (Int 1024)) (to_Q (Int n)) = true).
    { apply Qle_bool_iff. cbn [to_Q]. rewrite <- Zle_Qle. lia. }
    congruence. }
  destruct (to_float_small n H0 ltac:(lia)) as (x & Hx & _).
  unfold format_2f. rewrite Hx. eexists. reflexivity.
Qed.

Lemma get_size_loop_total (suffix : string) (us : list string) :
  forall a : number,
    (forall n, a = Int n -> 0 <= n) ->
    (to_Q a <= inject_Z (2 ^ 1024))%Q ->
    exists r, get_size_loop a us suffix = Ok r.
Proof.
  induction us as [|unit rest IH]; intros a Hint Hhi; [eexists; reflexivity|].
  cbn [get_size_loop].
  destruct (num_ltb a (Int 1024)) eqn:Hlt.
  { destruct (format_2f_below_1024 a Hint Hlt) as (text & ->).
    eexists. reflexivity. }
  unfold num_ltb in Hlt. apply negb_false_iff, Qle_bool_iff in Hlt.
  cbn [to_Q] in Hlt.
  unfold truediv. cbn [to_Q].
  change (Qeq_bool (inject_Z 1024) 0) with false. cbv iota.
  set (q := (to_Q a / inject_Z 1024)%Q).
  assert (Hhi' : (to_Q a <= 1024 * inject_Z (2 ^ 1014))%Q).
  { change (inject_Z (2 ^ 1024)) with (inject_Z (2 ^ 10 * 2 ^ 1014)) in Hhi.
    rewrite inject_Z_mult in Hhi. exact Hhi. }
  assert (Hqlo : (inject_Z (2 ^ 0) <= q)%Q).
  { apply Qdiv_1024_lower. change (1024 * inject_Z (2 ^ 0))%Q with (inject_Z 1024).
    exact Hlt. }
  assert (Hqhi : (q <= inject_Z (2 ^ 1014))%Q) by (apply Qdiv_1024_upper, Hhi').
  assert (Hblo := binary64_ge_pow2 q 0 ltac:(lia) Hqlo).
  assert (Hbhi := binary64_le_pow2 q 1014 ltac:(lia) Hqlo Hqhi).
  assert (Hstep : (inject_Z (2 ^ 1014) < inject_Z (2 ^ 1024))%Q).
  { rewrite <- Zlt_Qlt. apply Z.pow_lt_mono_r; lia. }
  assert (Hov : overflows q = false).
  { unfold overflows. apply not_true_is_false. intros Ht.
    apply Qle_bool_iff in Ht.
    rewrite Qabs_pos in Ht by (eapply Qle_trans; [|exact Hblo]; discriminate).
    apply (Qlt_irrefl (inject_Z (2 ^ 1024))).
    eapply Qle_lt_trans; [exact Ht|]. eapply Qle_lt_trans; eassumption. }
  rewrite Hov. cbn [bind]. apply IH; [discriminate|]. cbn [to_Q].
  eapply Qle_trans; [exact Hbhi|]. apply Qlt_le_weak, Hstep.
Qed.

Lemma get_size_total (bytes : Z) :
  0 <= bytes -> bytes < 2 ^ 1024 -> exists r, get_size bytes = Ok r.
Proof.
  intros H0 H. apply get_size_loop_total.
  - intros n Hn. inversion Hn. subst n. exact H0.
  - cbn [to_Q]. rewrite <- Zle_Qle. lia.
Qed.

(** ** C8 *)

(** C8, as the claim states it, fails: the unit letter is followed by the
    suffix "B", so 1024 bytes read "1.00KB". *)
Lemma get_size_1024_has_suffix :
  get_size 1024 = Ok (Some "1.00KB") /\ ("1.00KB" =? "1.00K")%string = false.
Proof. split; vm_compute; reflexivity. Qed.

(** C8 (amended): get_size gives "0.00B" for 0, "1.00KB" for 1024, "1.50KB"
    for 1536 and "1.00GB" for 1024^3; in general, for a size that is not
    negative, it divides by 1024 until the remaining value is below 1024, at
    the [k]-th unit of B, KB, MB, GB, TB, PB, and writes that value with two
    decimals followed by the unit and "B" (stated where the divisions are
    exact, below 2^53). *)
Theorem get_size_humanizes :
  get_size 0 = Ok (Some "0.00B") /\
  get_size 1024 = Ok (Some "1.00KB") /\
  get_size 1536 = Ok (Some "1.50KB") /\
  get_size (1024 ^ 3) = Ok (Some "1.00GB") /\
  forall bytes k : Z,
    0 <= k <= 5 -> 0 <= bytes -> bytes < 2 ^ 53 ->
    (0 < k -> 1024 ^ k <= bytes) -> bytes < 1024 ^ (k + 1) ->
    get_size bytes
    = Ok (Some (format_float_2f (bytes # pow1024 k)
                  ++ nth (Z.to_nat k) units "" ++ "B")).
Proof.
  repeat (split; [vm_compute; reflexivity|]).
  intros bytes k Hk H0 H53 Hlo Hhi.
  destruct (Z.eq_dec bytes 0) as [Hz|Hnz].
  - assert (k = 0).
    { destruct (Z.eq_dec k 0) as [|Hk0]; [assumption|exfalso].
      assert (0 < 1024 ^ k) by (apply Z.pow_pos_nonneg; lia).
      specialize (Hlo ltac:(lia)). lia. }
    subst k bytes. vm_compute. reflexivity.
  - assert (Hpos : 0 < bytes) by lia.
    assert (Hconv : forall i, 0 <= i -> 1024 ^ i = 2 ^ (10 * i)).
    { intros i Hi. change 1024 with (2 ^ 10). rewrite <- Z.pow_mul_r by lia.
      reflexivity. }
    assert (Hcases : k = 0 \/ k = 1 \/ k = 2 \/ k = 3 \/ k = 4 \/ k = 5) by lia.
    assert (Hlo' : 2 ^ (10 * k) <= bytes).
    { destruct (Z.eq_dec k 0) as [-> | Hk0]; [change (2 ^ (10 * 0)) with 1; lia|].
      rewrite <- Hconv by lia. apply Hlo. lia. }
    rewrite Hconv in Hhi by lia.
    unfold get_size, units.
    destruct Hcases as [-> | [-> | [-> | [-> | [-> | ->]]]]].
    + apply (get_size_loop_selects "B" "" ["K"; "M"; "G"; "T"; "P"] bytes
               [] (Int bytes) 0); try lia; try assumption. reflexivity.
    + apply (get_size_loop_selects "B" "K" ["M"; "G"; "T"; "P"] bytes
               [""] (Int bytes) 0); try lia; try assumption. reflexivity.
    + apply (get_size_loop_selects "B" "M" ["G"; "T"; "P"] bytes
               [""; "K"] (Int bytes) 0); try lia; try assumption. reflexivity.
    + apply (get_size_loop_selects "B" "G" ["T"; "P"] bytes
               [""; "K"; "M"] (Int bytes) 0); try lia; try assumption. reflexivity.
    + apply (get_size_loop_selects "B" "T" ["P"] bytes
               [""; "K"; "M"; "G"] (Int bytes) 0); try lia; try assumption.
      reflexivity.
    + apply (get_size_loop_selects "B" "P" [] bytes
               [""; "K"; "M"; "G"; "T"] (Int bytes) 0); try lia; try assumption.
      reflexivity.
Qed.

Lemma get_size_humanizes_witness :
  0 <= 1 <= 5 /\ 0 <= 1536 /\ 1536 < 2 ^ 53 /\ 1024 ^ 1 <= 1536 /\
  1536 < 1024 ^ (1 + 1) /\
  get_size 1536
  = Ok (Some (format_float_2f (1536 # pow1024 1)
                ++ nth (Z.to_nat 1) units "" ++ "B")).
Proof.
  assert (H1 : 0 <= 1 <= 5) by lia.
  assert (H0 : 0 <= 1536) by lia.
  assert (H2 : 1536 < 2 ^ 53) by (vm_compute; reflexivity).
  assert (H3 : 1024 ^ 1 <= 1536) by (vm_compute; discriminate).
  assert (H4 : 1536 < 1024 ^ (1 + 1)) by (vm_compute; reflexivity).
  repeat (split; [assumption|]).
  destruct get_size_humanizes as (_ & _ & _ & _ & H).
  apply H; [exact H1|exact H0|exact H2|intros _; exact H3|exact H4].
Defined.

(** ** C10 *)

(** C10, as the claim states it, fails for the memory column: the table row
    formats the result with a width, which None refuses with TypeError
    instead of showing the text "None". *)
Lemma none_in_memory_column_raises :
  (exists r, SystemMonitor.process_row 0 huge_process = Ok r /\
             SystemMonitor.memory_usage r = None /\
             SystemMonitor.row_text r = Raise TypeError) /\
  (exists r, AnotherMonitor.process_row huge_process = Ok r /\
             AnotherMonitor.memory_usage r = None /\
             AnotherMonitor.row_text r = Raise TypeError).
Proof.
  split; eexists; (split; [vm_compute; reflexivity|]);
    split; vm_compute; reflexivity.
Qed.

(** C10 (amended): for every input from 1024^6 up to the float range the
    unit loop is exhausted and get_size returns None instead of a text; the
    disk I/O text of system_monitor, which interpolates the results with no
    format specification, then shows the literal text "None". *)
Theorem get_size_exhausts_units :
  (forall bytes : Z,
      1024 ^ 6 <= bytes -> bytes < 2 ^ 1024 -> get_size bytes = Ok None) /\
  (forall (read_bytes write_bytes : Z) (percent : number) (share : string),
      1024 ^ 6 <= read_bytes -> read_bytes < 2 ^ 1024 ->
      1024 ^ 6 <= write_bytes -> write_bytes < 2 ^ 1024 ->
      format_2f percent = Ok share ->
      SystemMonitor.disk_usage_text read_bytes write_bytes percent
      = Ok ("R: None W: None | %: " ++ share ++ "%")).
Proof.
  split.
  - exact get_size_None.
  - intros r w p share Hr1 Hr2 Hw1 Hw2 Hp. unfold SystemMonitor.disk_usage_text.
    rewrite (get_size_None r Hr1 Hr2), (get_size_None w Hw1 Hw2). cbn [bind].
    rewrite Hp. reflexivity.
Qed.

Lemma get_size_exhausts_units_witness :
  1024 ^ 6 <= 1024 ^ 6 /\ 1024 ^ 6 < 2 ^ 1024 /\ get_size (1024 ^ 6) = Ok None.
Proof.
  assert (H1 : 1024 ^ 6 <= 1024 ^ 6) by lia.
  assert (H2 : 1024 ^ 6 < 2 ^ 1024) by (vm_compute; reflexivity).
  repeat (split; [assumption|]).
  exact (proj1 get_size_exhausts_units (1024 ^ 6) H1 H2).
Defined.

(** ** sorted *)

Section SortedFacts.
Context {A K : Type}.
Variable key : A -> K.
Variable ltb : K -> K -> bool.

Lemma insert_perm (x : A) (l : list A) :
  Permutation (insert key ltb x l) (x :: l).
Proof.
  induction l as [|y l IH]; cbn [insert]; [reflexivity|].
  destruct (ltb (key y) (key x)); [|reflexivity].
  rewrite IH. apply perm_swap.
Qed.

Lemma stable_sort_perm (l : list A) : Permutation (stable_sort key ltb l) l.
Proof.
  induction l as [|x l IH]; cbn [stable_sort fold_right]; [reflexivity|].
  fold (stable_sort key ltb l). rewrite insert_perm. now constructor.
Qed.

Lemma sorted_perm (reverse : bool) (l : list A) :
  Permutation (sorted key ltb reverse l) l.
Proof.
  unfold sorted. destruct reverse; [|apply stable_sort_perm].
  rewrite <- Permutation_rev, stable_sort_perm. symmetry. apply Permutation_rev.
Qed.
End SortedFacts.

Section SortedByInteger.
Context {A : Type}.
Variable key : A -> Z.

Lemma insert_ascending (x : A) (l : list A) :
  StronglySorted (fun a b => key a <= key b) l ->
  StronglySorted (fun a b => key a <= key b) (insert key Z.ltb x l).
Proof.
  induction l as [|y l IH]; intros Hs; cbn [insert].
  - constructor; constructor.
  - apply StronglySorted_inv in Hs. destruct Hs as [Hl Hy].
    destruct (Z.ltb_spec (key y) (key x)) as [Hlt|Hge].
    + constructor; [apply IH, Hl|].
      eapply Permutation_Forall.
      * symmetry. apply insert_perm.
      * constructor; [lia|exact Hy].
    + constructor; [constructor; assumption|].
      constructor; [exact Hge|].
      eapply Forall_impl; [|exact Hy].
      cbv beta. intros a Ha. lia.
Qed.

Lemma stable_sort_ascending (l : list A) :
  StronglySorted (fun a b => key a <= key b) (stable_sort key Z.ltb l).
Proof.
  induction l as [|x l IH]; cbn [stable_sort fold_right]; [constructor|].
  apply insert_ascending, IH.
Qed.

Lemma StronglySorted_snoc (R : A -> A -> Prop) (l : list A) (x : A) :
  StronglySorted R l -> Forall (fun a => R a x) l -> StronglySorted R (l ++ [x]).
Proof.
  induction l as [|y l IH]; intros Hs Hx; cbn [app].
  - constructor; constructor.
  - apply StronglySorted_inv in Hs. destruct Hs as [Hl Hy].
    inversion Hx as [|? ? Hyx Hlx]; subst.
    constructor; [apply IH; assumption|].
    apply Forall_app. split; [exact Hy|]. constructor; [exact Hyx|constructor].
Qed.

Lemma StronglySorted_rev_flip (R : A -> A -> Prop) (l : list A) :
  StronglySorted R l -> StronglySorted (fun a b => R b a) (rev l).
Proof.
  induction l as [|y l IH]; intros Hs; cbn [rev]; [constructor|].
  apply StronglySorted_inv in Hs. destruct Hs as [Hl Hy].
  apply StronglySorted_snoc; [apply IH, Hl|].
  apply Forall_rev. exact Hy.
Qed.

(** [sorted] by an integer key orders the list by that key, upward, or
    downward when reversed *)
Lemma sorted_by_integer (reverse : bool) (l : list A) :
  StronglySorted
    (fun a b => if reverse then key b <= key a else key a <= key b)
    (sorted key Z.ltb reverse l).
Proof.
  unfold sorted. destruct reverse; [|apply stable_sort_ascending].
  apply (StronglySorted_rev_flip (fun a b => key a <= key b)),
    stable_sort_ascending.
Qed.
End SortedByInteger.

(** ** C1 *)

(** C1: in system_monitor the key of a "memory" sort is item 4 of the row,
    the disk I/O text; with highest first, the process with 1000 resident
    bytes (text "R: 9.00B ...") is placed before the one with 5000 (text
    "R: 10.00B ..."). *)
Lemma system_monitor_memory_sort_by_disk_text :
  info_rss proc_alpha = 1000 /\ info_rss proc_beta = 5000 /\
  SystemMonitor.get_processes_info [Ok (9, 0); Ok (10, 0)]
    [proc_alpha; proc_beta] "memory" false
  = Ok [ {| SystemMonitor.pid := 1; SystemMonitor.name := "alpha";
            SystemMonitor.cpu_percent := 90;
            SystemMonitor.memory_usage := Some "1000.00B";
            SystemMonitor.disk_usage := "R: 9.00B W: 0.00B | %: 47.37%";
            SystemMonitor.process_io := 9 |};
         {| SystemMonitor.pid := 2; SystemMonitor.name := "beta";
            SystemMonitor.cpu_percent := 50;
            SystemMonitor.memory_usage := Some "4.88KB";
            SystemMonitor.disk_usage := "R: 10.00B W: 0.00B | %: 52.63%";
            SystemMonitor.process_io := 10 |} ] /\
  SystemMonitor.get_processes_info [Ok (9, 0); Ok (10, 0)]
    [proc_beta; proc_alpha] "memory" false
  = SystemMonitor.get_processes_info [Ok (9, 0); Ok (10, 0)]
      [proc_alpha; proc_beta] "memory" false.
Proof. repeat split; vm_compute; reflexivity. Qed.

Lemma sorted_item_4 (reverse : bool) (l : list AnotherMonitor.row) :
  sorted (fun x => AnotherMonitor.item x 4) value_ltb reverse l
  = sorted AnotherMonitor.memory_percent Z.ltb reverse l.
Proof.
  assert (Hins : forall x l',
             insert (fun x => AnotherMonitor.item x 4) value_ltb x l'
             = insert AnotherMonitor.memory_percent Z.ltb x l').
  { intros x l'. induction l' as [|y l' IH]; cbn [insert]; [reflexivity|].
    rewrite IH. reflexivity. }
  assert (Hsort : forall l',
             stable_sort (fun x => AnotherMonitor.item x 4) value_ltb l'
             = stable_sort AnotherMonitor.memory_percent Z.ltb l').
  { induction l' as [|x l' IH]; [reflexivity|].
    cbn [stable_sort fold_right].
    fold (stable_sort (fun x => AnotherMonitor.item x 4) value_ltb l').
    fold (stable_sort AnotherMonitor.memory_percent Z.ltb l').
    rewrite IH. apply Hins. }
  unfold sorted. destruct reverse; rewrite Hsort; reflexivity.
Qed.

Lemma mapM_Forall2 {A B : Type} (f : A -> result B) (R : A -> B -> Prop) :
  (forall a b, f a = Ok b -> R a b) ->
  forall l l', mapM f l = Ok l' -> Forall2 R l l'.
Proof.
  intros Hf. induction l as [|a l IH]; intros l' H; cbn [mapM] in H.
  - inversion H. constructor.
  - destruct (f a) as [b|e] eqn:Ea; cbn [bind] in H; [|discriminate].
    destruct (mapM f l) as [bs|e] eqn:El; cbn [bind] in H; [|discriminate].
    inversion H. subst. constructor; [apply Hf, Ea|apply IH; reflexivity].
Qed.

Lemma another_process_row_rss (p : proc_info) (r : AnotherMonitor.row) :
  AnotherMonitor.process_row p = Ok r ->
  AnotherMonitor.memory_percent r = info_rss p /\
  AnotherMonitor.pid r = info_pid p.
Proof.
  unfold AnotherMonitor.process_row. intros H.
  destruct (get_size (info_rss p)) as [m|e]; cbn [bind] in H; [|discriminate].
  destruct (match info_io_counters p with
            | Some (r0, w0) => get_size (r0 + w0)
            | None => Ok (Some "0B")
            end) as [d|e]; cbn [bind] in H; [|discriminate].
  inversion H. split; reflexivity.
Qed.

(** The sibling variant does what C1 says: in another_monitor a "memory" sort
    returns the collected rows reordered by their raw resident byte counts,
    highest first unless ascending. *)
Theorem another_monitor_memory_sort_by_resident_bytes
  (procs : list proc_info) (ascending : bool) (rows : list AnotherMonitor.row) :
  AnotherMonitor.get_processes_info procs "memory" ascending = Ok rows ->
  (exists collected,
      Forall2 (fun p r => AnotherMonitor.memory_percent r = info_rss p /\
                          AnotherMonitor.pid r = info_pid p) procs collected /\
      Permutation rows collected) /\
  StronglySorted
    (fun a b => if ascending
                then AnotherMonitor.memory_percent a <= AnotherMonitor.memory_percent b
                else AnotherMonitor.memory_percent b <= AnotherMonitor.memory_percent a)
    rows.
Proof.
  unfold AnotherMonitor.get_processes_info. intros H.
  destruct (mapM AnotherMonitor.process_row procs) as [collected|e] eqn:Ec;
    cbn [bind] in H; [|discriminate].
  change (if ("memory" =? "cpu")%string then 2 else 4) with 4 in H.
  rewrite sorted_item_4 in H. inversion H as [Hrows]. clear H. split.
  - exists collected. split; [|apply sorted_perm].
    eapply mapM_Forall2; [|exact Ec]. apply another_process_row_rss.
  - assert (Hs := sorted_by_integer AnotherMonitor.memory_percent
                    (negb ascending) collected).
    destruct ascending; exact Hs.
Qed.

Lemma another_monitor_memory_sort_witness :
  exists rows,
    AnotherMonitor.get_processes_info [proc_alpha; proc_beta; proc_gamma]
      "memory" false = Ok rows /\
    map AnotherMonitor.pid rows = [2; 3; 1] /\
    StronglySorted
      (fun a b => AnotherMonitor.memory_percent b <= AnotherMonitor.memory_percent a)
      rows.
Proof.
  eexists. split; [vm_compute; reflexivity|]. split; [reflexivity|].
  apply (another_monitor_memory_sort_by_resident_bytes
           [proc_alpha; proc_beta; proc_gamma] false).
  vm_compute. reflexivity.
Defined.

(** ** C9 *)


Lemma format_2f_zero : format_2f (Int 0) = Ok "0.00".
Proof. vm_compute. reflexivity. Qed.




(** ** C7 *)

Lemma num_ltb_spec (c : Z) (x : Q) :
  num_ltb (Int c) (Float x) = true <-> (inject_Z c < x)%Q.
Proof.
  unfold num_ltb. cbn [to_Q]. rewrite negb_true_iff. split.
  - intros H. apply Qnot_le_lt. intros Hle. apply Qle_bool_iff in Hle. congruence.
  - intros H. apply not_true_is_false. intros Hle. apply Qle_bool_iff in Hle.
    apply (Qlt_irrefl x). eapply Qle_lt_trans; eassumption.
Qed.

(** C7: a row is drawn in pair 1 (red, high) exactly when cpu_percent > 80, in
    pair 2 (yellow, moderate) exactly when 40 < cpu_percent <= 80, and in pair
    3 (green, low) exactly when cpu_percent <= 40, in both files; 80.0 is
    moderate, 80.01 is high, and the three pairs have three different
    colours. *)
Theorem row_color_thresholds :
  (forall cpu_percent : Q,
      (SystemMonitor.row_color cpu_percent = color_pair 1 <-> 80 < cpu_percent)%Q /\
      (SystemMonitor.row_color cpu_percent = color_pair 2
       <-> 40 < cpu_percent /\ cpu_percent <= 80)%Q /\
      (SystemMonitor.row_color cpu_percent = color_pair 3 <-> cpu_percent <= 40)%Q /\
      AnotherMonitor.row_color cpu_percent = SystemMonitor.row_color cpu_percent) /\
  SystemMonitor.row_color 80 = color_pair 2 /\
  SystemMonitor.row_color (binary64 (8001 # 100)) = color_pair 1 /\
  map (fun p => fst (snd p)) init_pairs = [COLOR_RED; COLOR_YELLOW; COLOR_GREEN].
Proof.
  split; [|repeat split; vm_compute; reflexivity].
  intros cpu. unfold AnotherMonitor.row_color, SystemMonitor.row_color.
  assert (H80 := num_ltb_spec 80 cpu). assert (H40 := num_ltb_spec 40 cpu).
  change (inject_Z 80) with 80%Q in H80. change (inject_Z 40) with 40%Q in H40.
  destruct (num_ltb (Int 80) (Float cpu)) eqn:E80;
    destruct (num_ltb (Int 40) (Float cpu)) eqn:E40.
  - assert (80 < cpu)%Q by (apply H80; reflexivity).
    repeat split; try discriminate; try reflexivity; try tauto; intros; lra.
  - assert (80 < cpu)%Q by (apply H80; reflexivity).
    repeat split; try discriminate; try reflexivity; try tauto; intros; lra.
  - assert (40 < cpu)%Q by (apply H40; reflexivity).
    assert (~ (80 < cpu)%Q) by (intros H'; apply H80 in H'; discriminate).
    repeat split; try discriminate; try reflexivity; try tauto; intros; lra.
  - assert (~ (40 < cpu)%Q) by (intros H'; apply H40 in H'; discriminate).
    assert (~ (80 < cpu)%Q) by (intros H'; apply H80 in H'; discriminate).
    repeat split; try discriminate; try reflexivity; try tauto; intros; lra.
Qed.

(** ** The curses window *)

Lemma addstr_outcome (y x : Z) (text : string) (a : attr) (scr : screen) :
  snd (addstr y x text a scr) = Ok tt \/
  snd (addstr y x text a scr) = Raise CursesError.
Proof.
  unfold addstr.
  destruct ((0 <=? y) && (y <? scr_height scr) && (0 <=? x) && (x <? scr_width scr));
    [|right; reflexivity].
  destruct (len text <? _); [left|right]; reflexivity.
Qed.



(** ** C6 *)

(** C6, as the claim states it, fails in another_monitor: toggling the sort
    key also clears the PID filter. *)
Lemma another_monitor_toggle_sort_clears_pid_filter :
  AnotherMonitor.handle_key (fun _ => NotFound) (ord "s") ""
    {| AnotherMonitor.sort_by := "cpu"; AnotherMonitor.ascending := false;
       AnotherMonitor.filter_pid := Some 1234;
       AnotherMonitor.last_message := "" |} (window 24 80)
  = (window 24 80,
     Ok (Some {| AnotherMonitor.sort_by := "memory";
                 AnotherMonitor.ascending := false;
                 AnotherMonitor.filter_pid := None;
                 AnotherMonitor.last_message := "Sorting by MEMORY" |})).
Proof. vm_compute. reflexivity. Qed.

(** C6 (amended): the toggle-sort command turns the sort key "cpu" into
    "memory" and "memory" into "cpu", reports the new key in the status
    message, draws nothing and leaves [ascending] unchanged; system_monitor
    also leaves the name and PID filters unchanged, another_monitor resets the
    PID filter to None. *)
Theorem toggle_sort_effect :
  (forall os typed st scr,
      exists st',
        SystemMonitor.handle_key os (ord "s") typed st scr = (scr, Ok (Some st')) /\
        (SystemMonitor.sort_by st = "cpu" ->
         SystemMonitor.sort_by st' = "memory" /\
         SystemMonitor.last_message st' = "Sorting by Memory") /\
        (SystemMonitor.sort_by st = "memory" ->
         SystemMonitor.sort_by st' = "cpu" /\
         SystemMonitor.last_message st' = "Sorting by CPU") /\
        SystemMonitor.ascending st' = SystemMonitor.ascending st /\
        SystemMonitor.filter_name st' = SystemMonitor.filter_name st /\
        SystemMonitor.filter_pid st' = SystemMonitor.filter_pid st) /\
  (forall os typed st scr,
      exists st',
        AnotherMonitor.handle_key os (ord "s") typed st scr = (scr, Ok (Some st')) /\
        (AnotherMonitor.sort_by st = "cpu" ->
         AnotherMonitor.sort_by st' = "memory" /\
         AnotherMonitor.last_message st' = "Sorting by MEMORY") /\
        (AnotherMonitor.sort_by st = "memory" ->
         AnotherMonitor.sort_by st' = "cpu" /\
         AnotherMonitor.last_message st' = "Sorting by CPU") /\
        AnotherMonitor.ascending st' = AnotherMonitor.ascending st /\
        AnotherMonitor.filter_pid st' = None).
Proof.
  split; intros os typed st scr; eexists; (split; [reflexivity|]);
    cbn [SystemMonitor.sort_by SystemMonitor.last_message SystemMonitor.ascending
         SystemMonitor.filter_name SystemMonitor.filter_pid
         AnotherMonitor.sort_by AnotherMonitor.last_message
         AnotherMonitor.ascending AnotherMonitor.filter_pid];
    (split; [intros ->; split; reflexivity|]);
    (split; [intros ->; split; reflexivity|]);
    repeat split; reflexivity.
Qed.

Lemma toggle_sort_effect_witness :
  exists st',
    SystemMonitor.handle_key (fun _ => NotFound) (ord "s") ""
      SystemMonitor.initial_state (window 24 80)
    = (window 24 80, Ok (Some st')) /\
    SystemMonitor.sort_by st' = "memory" /\
    SystemMonitor.last_message st' = "Sorting by Memory".
Proof.
  destruct (proj1 toggle_sort_effect (fun _ => NotFound) ""
              SystemMonitor.initial_state (window 24 80))
    as (st' & H & Hcpu & _).
  exists st'. split; [exact H|]. apply Hcpu. reflexivity.
Defined.

(** ** C3 *)






(** the kill command on inputs that are no PID of a process: a negative
    number, a text that starts with a separator character, and the empty text
    read when the window is too narrow for the input position *)
Example kill_command_examples :
  AnotherMonitor.kill_message (fun _ => Terminated) "-1"
  = Ok "Error: Invalid PID -1." /\
  AnotherMonitor.kill_message (fun _ => Terminated)
    (String (ascii_of_nat 28) "1192")
  = Ok ("Error: Invalid PID " ++ String (ascii_of_nat 28) "1192" ++ ".") /\
  snd (AnotherMonitor.handle_key (fun _ => Terminated) (ord "k") "999"
         AnotherMonitor.initial_state (window 24 10))
  = Ok (Some {| AnotherMonitor.sort_by := "cpu";
                AnotherMonitor.ascending := false;
                AnotherMonitor.filter_pid := None;
                AnotherMonitor.last_message := "Error: Invalid PID ." |}) /\
  snd (SystemMonitor.handle_key (fun _ => Terminated) (ord "k") "-1"
         SystemMonitor.initial_state (window 24 80))
  = Raise ValueError /\
  snd (SystemMonitor.handle_key (fun _ => Terminated) (ord "k") "999"
         SystemMonitor.initial_state (window 24 20))
  = Raise ValueError.
Proof. repeat split; vm_compute; reflexivity. Qed.

(** ** C5 *)

(** C5: on a terminal one line too short for the table (17 lines with four
    cores in system_monitor, 14 in another_monitor) the limit of line 141 is
    -1, the slice drops only the last of the three processes, and two rows are
    drawn, on lines inside the terminal, although no row is available. *)
Lemma short_terminal_shows_rows :
  available_rows 17 (SystemMonitor.header_start_row 4) = 0 /\
  (exists rows,
      SystemMonitor.get_processes_info (SystemMonitor.table_io system_sample)
        (SystemMonitor.process_list system_sample) "cpu" false = Ok rows /\
      SystemMonitor.max_displayable_processes 17 4 rows = -1 /\
      map (fun ir => (fst ir, SystemMonitor.pid (snd ir)))
        (SystemMonitor.visible_rows 17 4 rows) = [(15, 1); (16, 2)]) /\
  snd (SystemMonitor.render system_sample SystemMonitor.initial_state
         (window 17 100)) = Ok tt /\
  map (fun c => (fst (fst (fst c)), snd c))
    (table_cells (fst (SystemMonitor.render system_sample
                         SystemMonitor.initial_state (window 17 100))))
  = [(16, color_pair 2); (15, color_pair 1)] /\
  available_rows 14 (AnotherMonitor.header_start_row 4) = 0 /\
  map (fun c => (fst (fst (fst c)), snd c))
    (table_cells (fst (AnotherMonitor.render another_sample
                         AnotherMonitor.initial_state (window 14 100))))
  = [(13, color_pair 2); (12, color_pair 1)].
Proof.
  split; [reflexivity|]. split.
  - eexists. split; [vm_compute; reflexivity|]. split; vm_compute; reflexivity.
  - repeat split; vm_compute; reflexivity.
Qed.





(** ** C2 *)

(** C2: display_bar hands its text to addstr with no guard of its own, so a
    bar on a line outside the window ends in curses.error, and a window
    narrower than 20 columns in ValueError (from the negative width in the
    format specification); a loop pass on a two-line terminal ends in
    curses.error in both files, at the unguarded Disk bar in system_monitor
    and at the Memory Usage bar in another_monitor. *)
Lemma display_bar_raises_outside_window :
  SystemMonitor.display_bar (Float 50) "CPU   " 1000 80 (Int 100) (window 24 80)
  = (window 24 80, Raise CursesError) /\
  AnotherMonitor.display_bar (Float 50) "CPU Usage" 1000 80 (window 24 80)
  = (window 24 80, Raise CursesError) /\
  SystemMonitor.display_bar (Float 50) "CPU   " 0 10 (Int 100) (window 24 10)
  = (window 24 10, Raise ValueError) /\
  AnotherMonitor.display_bar (Float 50) "CPU Usage" 0 10 (window 24 10)
  = (window 24 10, Raise ValueError) /\
  SystemMonitor.render system_sample SystemMonitor.initial_state (window 2 100)
  = (window 2 100, Raise CursesError) /\
  snd (AnotherMonitor.render another_sample AnotherMonitor.initial_state
         (window 2 100)) = Raise CursesError.
Proof. repeat split; vm_compute; reflexivity. Qed.

(** ** Drawing steps only add cells *)

Lemma grows_ret {A : Type} (a : A) : grows (ret a).
Proof. intros scr scr' r H. inversion H. apply incl_refl. Qed.

Lemma grows_lift {A : Type} (x : result A) : grows (lift x).
Proof. intros scr scr' r H. inversion H. apply incl_refl. Qed.

Lemma grows_bind {A B : Type} (m : draw A) (k : A -> draw B) :
  grows m -> (forall a, grows (k a)) -> grows (bind_draw m k).
Proof.
  intros Hm Hk scr scr' r H. unfold bind_draw in H.
  destruct (m scr) as [scr1 [a|e]] eqn:Em.
  - eapply incl_tran; [eapply Hm, Em|eapply Hk, H].
  - inversion H. subst. eapply Hm, Em.
Qed.

Lemma grows_addstr (y x : Z) (text : string) (a : attr) : grows (addstr y x text a).
Proof.
  intros scr scr' r H. unfold addstr in H.
  destruct ((0 <=? y) && (y <? scr_height scr) && (0 <=? x) && (x <? scr_width scr));
    [|inversion H; apply incl_refl].
  destruct (len text <? _); inversion H; cbn [put cells]; apply incl_tl, incl_refl.
Qed.

Lemma grows_when (b : bool) (m : draw unit) : grows m -> grows (when b m).
Proof. intros Hm. destruct b; [exact Hm|apply grows_ret]. Qed.

Lemma grows_for_each {A : Type} (l : list A) (body : A -> draw unit) :
  (forall x, grows (body x)) -> grows (for_each l body).
Proof.
  intros Hb. induction l as [|x l IH]; cbn [for_each]; [apply grows_ret|].
  apply grows_bind; [apply Hb|intros _; exact IH].
Qed.

Lemma addstr_cells (y x : Z) (text : string) (a : attr) (scr scr' : screen) :
  addstr y x text a scr = (scr', Ok tt) -> cells scr' = (y, x, text, a) :: cells scr.
Proof.
  unfold addstr.
  destruct ((0 <=? y) && (y <? scr_height scr) && (0 <=? x) && (x <? scr_width scr));
    [|discriminate].
  destruct (len text <? _); [|discriminate].
  intros H. inversion H. reflexivity.
Qed.

Lemma system_display_bar_grows usage label y width max_value :
  grows (SystemMonitor.display_bar usage label y width max_value).
Proof.
  unfold SystemMonitor.display_bar.
  apply grows_bind; [apply grows_lift|intros ratio].
  apply grows_bind; [apply grows_lift|intros field].
  apply grows_bind; [apply grows_lift|intros text]. apply grows_addstr.
Qed.

Lemma another_display_bar_grows usage label y width :
  grows (AnotherMonitor.display_bar usage label y width).
Proof.
  unfold AnotherMonitor.display_bar.
  apply grows_bind; [apply grows_lift|intros ratio].
  apply grows_bind; [apply grows_lift|intros field].
  apply grows_bind; [apply grows_lift|intros text]. apply grows_addstr.
Qed.

(** a bar that is drawn shows its label, a field and the usage with two
    decimals *)
Lemma system_display_bar_cells usage label y width max_value scr scr' :
  SystemMonitor.display_bar usage label y width max_value scr = (scr', Ok tt) ->
  exists field text,
    format_2f usage = Ok text /\
    cells scr'
    = (y, 0, label ++ ": [" ++ field ++ "] " ++ text ++ "%", A_BOLD)
        :: cells scr.
Proof.
  unfold SystemMonitor.display_bar, bind_draw, lift. intros H.
  destruct (truediv usage max_value) as [ratio|e]; [|discriminate].
  destruct (format_left _ _) as [field|e]; [|discriminate].
  destruct (format_2f usage) as [text|e]; [|discriminate].
  exists field, text. split; [reflexivity|]. apply addstr_cells, H.
Qed.

Lemma another_display_bar_cells usage label y width scr scr' :
  AnotherMonitor.display_bar usage label y width scr = (scr', Ok tt) ->
  exists field text,
    format_2f usage = Ok text /\
    cells scr'
    = (y, 0, label ++ ": [" ++ field ++ "] " ++ text ++ "%", A_BOLD)
        :: cells scr.
Proof.
  unfold AnotherMonitor.display_bar, bind_draw, lift. intros H.
  destruct (truediv usage (Int 100)) as [ratio|e]; [|discriminate].
  destruct (format_left _ _) as [field|e]; [|discriminate].
  destruct (format_2f usage) as [text|e]; [|discriminate].
  exists field, text. split; [reflexivity|]. apply addstr_cells, H.
Qed.

Lemma bind_draw_ok {A B : Type} (m : draw A) (k : A -> draw B) scr scr' b :
  bind_draw m k scr = (scr', Ok b) ->
  exists scr1 a, m scr = (scr1, Ok a) /\ k a scr1 = (scr', Ok b).
Proof.
  unfold bind_draw. destruct (m scr) as [scr1 [a|e]]; [|discriminate].
  intros H. exists scr1, a. split; [reflexivity|exact H].
Qed.

(** ** C4 *)

(** C4, as the claim states it, fails in system_monitor: the Disk bar shows
    the bytes read and written by the processes as a percentage of the disk
    capacity; with 2000 bytes of I/O on a disk of 1000 bytes it shows 200%. *)
Lemma disk_bar_exceeds_100 :
  SystemMonitor.total_disk_usage_percentage busy_sample = Ok (Float 200) /\
  num_ltb (Int 100) (Float 200) = true /\
  SystemMonitor.draw_bars busy_sample 24 80 (window 24 80)
  = ({| scr_height := 24; scr_width := 80;
        cells :=
          [(2, 0, "Disk  : [" ++ str_mul "|" 60 ++ "] 200.00%", A_BOLD);
           (1, 0, "Memory: [" ++ str_mul "|" 15 ++ str_mul " " 45 ++ "] 25.00%",
            A_BOLD);
           (0, 0, "CPU   : [" ++ str_mul "|" 30 ++ str_mul " " 30 ++ "] 50.00%",
            A_BOLD)] |}, Ok tt).
Proof. repeat split; vm_compute; reflexivity. Qed.

Lemma total_disk_usage_percentage_value (snap : SystemMonitor.snapshot) (total_io : Z) :
  SystemMonitor.get_total_disk_io (SystemMonitor.bar_io snap) = Ok total_io ->
  0 <= total_io <= 2 ^ 1023 ->
  0 < SystemMonitor.total_disk_capacity snap ->
  exists p,
    SystemMonitor.total_disk_usage_percentage snap = Ok (Float p) /\
    p = binary64
          (binary64 (inject_Z total_io
                     / inject_Z (SystemMonitor.total_disk_capacity snap)) * 100) /\
    (0 <= p)%Q /\
    (SystemMonitor.total_disk_capacity snap <= total_io -> (100 <= p)%Q).
Proof.
  intros Hio Ht Hc. unfold SystemMonitor.total_disk_usage_percentage.
  rewrite Hio. cbn [bind]. unfold truediv. cbn [to_Q].
  set (cap := SystemMonitor.total_disk_capacity snap) in *.
  set (q := (inject_Z total_io / inject_Z cap)%Q).
  assert (Hq : Qnum q = total_io /\ Zpos (Qden q) = cap).
  { unfold q, Qdiv, Qmult, Qinv, inject_Z. cbn [Qnum Qden].
    destruct cap as [|c|c]; try lia. cbn [Qnum Qden]. split; lia. }
  destruct Hq as [Hqn Hqd].
  assert (Hq0 : (0 <= q)%Q) by (unfold Qle; cbn [Qnum Qden]; lia).
  assert (Hqhi : (q <= inject_Z (2 ^ 1023))%Q).
  { unfold Qle. cbn [Qnum Qden inject_Z]. rewrite Hqn, Hqd.
    assert (0 < 2 ^ 1023) by (apply pow2_pos; lia). nia. }
  assert (Hb0 := binary64_nonneg q Hq0).
  assert (Hbhi : (binary64 q <= inject_Z (2 ^ 1023))%Q).
  { destruct (Z.eq_dec total_io 0) as [Hz|Hnz].
    - unfold binary64. rewrite Hqn, Hz. rewrite <- (Zle_Qle 0).
      apply Z.lt_le_incl, pow2_pos. lia.
    - apply binary64_le_pow2_pos; [lia| |exact Hqhi].
      unfold Qlt. cbn [Qnum Qden]. lia. }
  assert (Hstep : (inject_Z (2 ^ 1023) < inject_Z (2 ^ 1024))%Q).
  { rewrite <- Zlt_Qlt. apply Z.pow_lt_mono_r; lia. }
  assert (Hne : Qeq_bool (inject_Z cap) 0 = false).
  { apply not_true_is_false. intros Heq. apply Qeq_bool_iff in Heq.
    unfold Qeq in Heq. cbn [Qnum Qden inject_Z] in Heq. lia. }
  assert (Hov : overflows q = false).
  { unfold overflows. apply not_true_is_false. intros Hle.
    apply Qle_bool_iff in Hle. rewrite Qabs_pos in Hle by exact Hb0.
    apply (Qlt_irrefl (inject_Z (2 ^ 1024))).
    eapply Qle_lt_trans; [exact Hle|]. eapply Qle_lt_trans; eassumption. }
  rewrite Hne. fold q. rewrite Hov. cbn [bind]. unfold fmul. cbn [to_Q].
  eexists. split; [reflexivity|]. split; [reflexivity|]. split.
  - apply binary64_nonneg. change (inject_Z 100) with 100%Q.
    generalize dependent (binary64 q). intros b; intros. nra.
  - intros Hge. apply (binary64_ge_int _ 100); [lia|vm_compute; discriminate|].
    assert (H1 : (inject_Z 1 <= binary64 q)%Q).
    { apply binary64_ge_int; [lia|vm_compute; discriminate|].
      unfold Qle. cbn [Qnum Qden inject_Z]. lia. }
    change (inject_Z 100) with 100%Q. change (inject_Z 1) with 1%Q in H1.
    generalize dependent (binary64 q). intros b; intros. nra.
Qed.

(** C4 (amended): in another_monitor the Disk bar shows the usage percentage
    reported by the provider ([percent] of psutil's disk usage), unchanged; in
    system_monitor it shows the total bytes read and written by the processes
    divided by the disk capacity, times 100, a value that is not negative and
    is at least 100 as soon as that total reaches the capacity. *)
Theorem disk_bar_value :
  (forall snap height width scr scr',
      AnotherMonitor.draw_bars snap height width scr = (scr', Ok tt) ->
      exists field,
        In (2, 0,
            "Disk Usage: [" ++ field ++ "] "
              ++ format_float_2f (AnotherMonitor.percent
                                    (AnotherMonitor.disk_usage_info snap))
              ++ "%", A_BOLD) (cells scr')) /\
  (forall snap height width scr scr',
      SystemMonitor.draw_bars snap height width scr = (scr', Ok tt) ->
      exists percentage field share,
        SystemMonitor.total_disk_usage_percentage snap = Ok percentage /\
        format_2f percentage = Ok share /\
        In (2, 0, "Disk  : [" ++ field ++ "] " ++ share ++ "%",
            A_BOLD) (cells scr')) /\
  (forall snap total_io,
      SystemMonitor.get_total_disk_io (SystemMonitor.bar_io snap) = Ok total_io ->
      0 <= total_io <= 2 ^ 1023 ->
      0 < SystemMonitor.total_disk_capacity snap ->
      exists p,
        SystemMonitor.total_disk_usage_percentage snap = Ok (Float p) /\
        p = binary64
              (binary64 (inject_Z total_io
                         / inject_Z (SystemMonitor.total_disk_capacity snap))
               * 100) /\
        (0 <= p)%Q /\
        (SystemMonitor.total_disk_capacity snap <= total_io -> (100 <= p)%Q)).
Proof.
  split; [|split; [|exact total_disk_usage_percentage_value]].
  - intros snap height width scr scr' H. unfold AnotherMonitor.draw_bars in H.
    apply bind_draw_ok in H. destruct H as (s1 & total_disk & _ & H).
    apply bind_draw_ok in H. destruct H as (s2 & used_disk & _ & H).
    apply bind_draw_ok in H. destruct H as (s3 & [] & _ & H).
    apply bind_draw_ok in H. destruct H as (s4 & [] & _ & H).
    apply bind_draw_ok in H. destruct H as (s5 & [] & Hbar & H).
    apply another_display_bar_cells in Hbar.
    destruct Hbar as (field & text & Htext & Hcells).
    inversion Htext as [Ht]. clear Htext. subst text.
    exists field.
    assert (Hgrow : grows
              (for_each (enumerate (AnotherMonitor.core_usages snap) 0)
                 (fun '(i, core_usage) =>
                    when (i + 3 <? height)
                      (AnotherMonitor.display_bar (Float core_usage)
                         ("Core " ++ string_of_Z i) (3 + i) width)))).
    { apply grows_for_each. intros [i core_usage].
      apply grows_when, another_display_bar_grows. }
    apply (Hgrow _ _ _ H). rewrite Hcells. left. reflexivity.
  - intros snap height width scr scr' H. unfold SystemMonitor.draw_bars in H.
    apply bind_draw_ok in H. destruct H as (s1 & [] & _ & H).
    apply bind_draw_ok in H. destruct H as (s2 & percentage & Hp & H).
    apply bind_draw_ok in H. destruct H as (s3 & [] & Hbar & H).
    unfold lift in Hp. inversion Hp as [[Hs Hv]]. subst s2.
    apply system_display_bar_cells in Hbar.
    destruct Hbar as (field & share & Hshare & Hcells).
    exists percentage, field, share. split; [exact Hv|]. split; [exact Hshare|].
    assert (Hgrow : grows
              (for_each (enumerate (SystemMonitor.core_usages snap) 0)
                 (fun '(i, core_usage) =>
                    when (i + 4 <? height)
                      (SystemMonitor.display_bar (Float core_usage)
                         ("Core " ++ string_of_Z i) (4 + i) width (Int 100))))).
    { apply grows_for_each. intros [i core_usage].
      apply grows_when, system_display_bar_grows. }
    apply (Hgrow _ _ _ H). rewrite Hcells. left. reflexivity.
Qed.

Lemma disk_bar_value_witness :
  SystemMonitor.get_total_disk_io (SystemMonitor.bar_io busy_sample) = Ok 2000 /\
  0 <= 2000 <= 2 ^ 1023 /\
  0 < SystemMonitor.total_disk_capacity busy_sample /\
  SystemMonitor.total_disk_capacity busy_sample <= 2000 /\
  exists p,
    SystemMonitor.total_disk_usage_percentage busy_sample = Ok (Float p) /\
    (100 <= p)%Q.
Proof.
  assert (H1 : SystemMonitor.get_total_disk_io (SystemMonitor.bar_io busy_sample)
               = Ok 2000) by reflexivity.
  assert (H2 : 0 <= 2000 <= 2 ^ 1023).
  { split; [lia|]. vm_compute. discriminate. }
  assert (H3 : 0 < SystemMonitor.total_disk_capacity busy_sample) by reflexivity.
  assert (H4 : SystemMonitor.total_disk_capacity busy_sample <= 2000)
    by (vm_compute; discriminate).
  repeat (split; [assumption|]).
  destruct (proj2 (proj2 disk_bar_value) busy_sample 2000 H1 H2 H3)
    as (p & Hp & _ & _ & Hge).
  exists p. split; [exact Hp|]. apply Hge, H4.
Defined.

(** ** Further properties of the drawing and filtering steps *)

(** The filled part of a bar never exceeds the bar: a bar that is drawn holds
    [n] strokes padded to [width - 20] columns, with [n <= width - 20]; a
    usage of 150 in a 40-column window fills exactly the 20 columns. *)
Theorem display_bar_fill_bounded :
  (forall usage label y width max_value scr scr',
      SystemMonitor.display_bar usage label y width max_value scr = (scr', Ok tt) ->
      exists n text,
        n <= width - 20 /\
        format_2f usage = Ok text /\
        cells scr'
        = (y, 0,
           label ++ ": [" ++ ljust (str_mul "|" n) (width - 20) ++ "] "
             ++ text ++ "%", A_BOLD) :: cells scr) /\
  SystemMonitor.display_bar (Float 150) "CPU   " 0 40 (Int 100) (window 24 80)
  = ({| scr_height := 24; scr_width := 80;
        cells := [(0, 0, "CPU   : [" ++ str_mul "|" 20 ++ "] 150.00%", A_BOLD)] |},
     Ok tt).
Proof.
  split; [|vm_compute; reflexivity].
  intros usage label y width max_value scr scr'.
  unfold SystemMonitor.display_bar, bind_draw, lift. intros H.
  destruct (truediv usage max_value) as [ratio|e]; [|discriminate].
  set (n := Z.min (to_int (fmul ratio (Int (width - 20)))) (width - 20)) in *.
  unfold format_left in H.
  destruct (width - 20 <? 0); [discriminate|].
  destruct (format_2f usage) as [text|e]; [|discriminate].
  exists n, text. split; [unfold n; lia|]. split; [reflexivity|].
  apply addstr_cells, H.
Qed.

Lemma display_bar_fill_bounded_witness :
  exists n text,
    n <= 40 - 20 /\
    format_2f (Float 150) = Ok text /\
    cells (fst (SystemMonitor.display_bar (Float 150) "CPU   " 0 40 (Int 100)
                  (window 24 80)))
    = [(0, 0,
        "CPU   " ++ ": [" ++ ljust (str_mul "|" n) (40 - 20) ++ "] "
          ++ text ++ "%", A_BOLD)].
Proof.
  apply (proj1 display_bar_fill_bounded (Float 150) "CPU   " 0 40 (Int 100)
           (window 24 80)).
  vm_compute. reflexivity.
Defined.

(** A PID filter that matches no process leaves no row, in both files. *)
Theorem pid_filter_without_match :
  (forall st f rows,
      SystemMonitor.filter_pid st = Some f ->
      Forall (fun r => SystemMonitor.pid r <> f) rows ->
      SystemMonitor.apply_filters st rows = []) /\
  (forall st f rows,
      AnotherMonitor.filter_pid st = Some f -> f <> 0 ->
      Forall (fun r => AnotherMonitor.pid r <> f) rows ->
      AnotherMonitor.apply_filters st rows = []).
Proof.
  split.
  - intros st f rows Hf Hrows. unfold SystemMonitor.apply_filters. rewrite Hf.
    set (named := if (SystemMonitor.filter_name st =? "")%string then rows else _).
    assert (Hnamed : Forall (fun r => SystemMonitor.pid r <> f) named).
    { unfold named. destruct (SystemMonitor.filter_name st =? "")%string;
        [exact Hrows|].
      apply Forall_forall. intros r Hr. apply filter_In in Hr.
      destruct Hr as [Hr _]. revert r Hr. apply Forall_forall, Hrows. }
    clearbody named. induction Hnamed as [|r l Hr _ IH]; [reflexivity|].
    cbn [filter]. destruct (Z.eqb_spec (SystemMonitor.pid r) f); [contradiction|].
    exact IH.
  - intros st f rows Hf Hf0 Hrows. unfold AnotherMonitor.apply_filters.
    rewrite Hf. destruct (Z.eqb_spec f 0); [contradiction|].
    induction Hrows as [|r l Hr _ IH]; [reflexivity|].
    cbn [filter]. destruct (Z.eqb_spec (AnotherMonitor.pid r) f); [contradiction|].
    exact IH.
Qed.

Lemma pid_filter_without_match_witness :
  SystemMonitor.apply_filters
    {| SystemMonitor.sort_by := "cpu"; SystemMonitor.ascending := false;
       SystemMonitor.filter_name := ""; SystemMonitor.filter_pid := Some 1234;
       SystemMonitor.last_message := "" |}
    [ {| SystemMonitor.pid := 1; SystemMonitor.name := "alpha";
         SystemMonitor.cpu_percent := 90;
         SystemMonitor.memory_usage := Some "1000.00B";
         SystemMonitor.disk_usage := "R: 9.00B W: 0.00B | %: 47.37%";
         SystemMonitor.process_io := 9 |} ]
  = [].
Proof.
  apply (proj1 pid_filter_without_match _ 1234); [reflexivity|].
  constructor; [|constructor]. cbn [SystemMonitor.pid]. discriminate.
Defined.

(** ** Stability of the sort *)

Section SortedStable.
Context {A K : Type}.
Variable key : A -> K.
Variable ltb : K -> K -> bool.
Variable same : A -> bool.
(** elements selected by [same] have keys that are not below one another *)
Hypothesis same_not_below :
  forall x y, same x = true -> same y = true -> ltb (key y) (key x) = false.

Lemma insert_selected (x : A) (l : list A) :
  filter same (insert key ltb x l) = filter same (x :: l).
Proof.
  induction l as [|y l IH]; cbn [insert]; [reflexivity|].
  destruct (ltb (key y) (key x)) eqn:Elt; [|reflexivity].
  cbn [filter] in *. rewrite IH.
  destruct (same x) eqn:Ex; [|reflexivity].
  destruct (same y) eqn:Ey; [|reflexivity].
  rewrite (same_not_below x y Ex Ey) in Elt. discriminate.
Qed.

Lemma stable_sort_selected (l : list A) :
  filter same (stable_sort key ltb l) = filter same l.
Proof.
  induction l as [|x l IH]; [reflexivity|].
  cbn [stable_sort fold_right]. fold (stable_sort key ltb l).
  rewrite insert_selected. cbn [filter]. rewrite IH. reflexivity.
Qed.

Lemma filter_rev (l : list A) : filter same (rev l) = rev (filter same l).
Proof.
  induction l as [|x l IH]; [reflexivity|].
  cbn [rev filter]. rewrite filter_app, IH. cbn [filter].
  destruct (same x); [reflexivity|]. apply app_nil_r.
Qed.

Lemma sorted_selected (reverse : bool) (l : list A) :
  filter same (sorted key ltb reverse l) = filter same l.
Proof.
  unfold sorted. destruct reverse; [|apply stable_sort_selected].
  rewrite filter_rev, stable_sort_selected, filter_rev. apply rev_involutive.
Qed.
End SortedStable.

Lemma another_process_row_cpu (p : proc_info) (r : AnotherMonitor.row) :
  AnotherMonitor.process_row p = Ok r ->
  AnotherMonitor.pid r = info_pid p /\
  AnotherMonitor.cpu_percent r = info_cpu_percent p.
Proof.
  unfold AnotherMonitor.process_row. intros H.
  destruct (get_size (info_rss p)) as [m|e]; cbn [bind] in H; [|discriminate].
  destruct (match info_io_counters p with
            | Some (r0, w0) => get_size (r0 + w0)
            | None => Ok (Some "0B")
            end) as [d|e]; cbn [bind] in H; [|discriminate].
  inversion H. split; reflexivity.
Qed.

(** A sort by CPU% is stable: rows with equal CPU% keep the order in which
    the processes were enumerated, in either direction; for CPU% 10, 80, 80, 5
    the highest-first order is the two 80s in their original order, then 10,
    then 5. *)
Theorem cpu_sort_is_stable :
  (forall procs ascending rows,
      AnotherMonitor.get_processes_info procs "cpu" ascending = Ok rows ->
      exists collected,
        Forall2 (fun p r => AnotherMonitor.pid r = info_pid p /\
                            AnotherMonitor.cpu_percent r = info_cpu_percent p)
          procs collected /\
        Permutation rows collected /\
        forall v, with_cpu v rows = with_cpu v collected) /\
  (exists rows,
      AnotherMonitor.get_processes_info tied_processes "cpu" false = Ok rows /\
      map AnotherMonitor.pid rows = [12; 13; 11; 14]) /\
  (exists rows,
      SystemMonitor.get_processes_info [] tied_processes "cpu" false = Ok rows /\
      map SystemMonitor.pid rows = [12; 13; 11; 14]).
Proof.
  split; [|split; eexists; (split; [vm_compute; reflexivity|reflexivity])].
  intros procs ascending rows H. unfold AnotherMonitor.get_processes_info in H.
  destruct (mapM AnotherMonitor.process_row procs) as [collected|e] eqn:Ec;
    cbn [bind] in H; [|discriminate].
  change (if ("cpu" =? "cpu")%string then 2 else 4) with 2 in H.
  inversion H as [Hrows]. clear H. exists collected. split; [|split].
  - eapply mapM_Forall2; [|exact Ec]. apply another_process_row_cpu.
  - apply sorted_perm.
  - intros v. unfold with_cpu. apply sorted_selected.
    intros x y Hx Hy. cbn [AnotherMonitor.item value_ltb].
    apply Qeq_bool_iff in Hx. apply Qeq_bool_iff in Hy.
    unfold num_ltb. cbn [to_Q]. apply negb_false_iff, Qle_bool_iff.
    rewrite Hx, Hy. apply Qle_refl.
Qed.

Lemma cpu_sort_is_stable_witness :
  exists rows collected,
    AnotherMonitor.get_processes_info tied_processes "cpu" false = Ok rows /\
    Permutation rows collected /\
    map AnotherMonitor.pid (with_cpu 80 rows)
    = map AnotherMonitor.pid (with_cpu 80 collected).
Proof.
  destruct (AnotherMonitor.get_processes_info tied_processes "cpu" false)
    as [rows|e] eqn:E; [|vm_compute in E; discriminate].
  destruct (proj1 cpu_sort_is_stable tied_processes false rows E)
    as (collected & _ & Hperm & Hsame).
  exists rows, collected. split; [reflexivity|]. split; [exact Hperm|].
  rewrite Hsame. reflexivity.
Defined.

(** ** get_total_disk_io *)

Lemma total_io_loop_readable (procs : list (result (Z * Z))) :
  Forall skippable procs ->
  forall acc, SystemMonitor.total_io_loop acc procs = Ok (acc + readable_io procs).
Proof.
  induction 1 as [|p procs Hp _ IH]; intros acc;
    cbn [SystemMonitor.total_io_loop readable_io].
  - f_equal. lia.
  - destruct p as [[r w]|e].
    + rewrite IH. f_equal. lia.
    + destruct e; try contradiction; apply IH.
Qed.

(** The total disk I/O is the sum of the bytes read and written by the
    processes whose counters can be read; a process that has vanished or
    denies access is passed over, and any other exception leaves the
    function. *)
Theorem get_total_disk_io_sums_readable :
  (forall procs,
      Forall skippable procs ->
      SystemMonitor.get_total_disk_io procs = Ok (readable_io procs)) /\
  (forall before e after,
      Forall skippable before ->
      ~ skippable (Raise e) ->
      SystemMonitor.get_total_disk_io (before ++ Raise e :: after) = Raise e) /\
  (forall procs,
      Forall (fun p => match p with
                       | Ok (r, w) => 0 <= r /\ 0 <= w
                       | Raise _ => True
                       end) procs ->
      0 <= readable_io procs).
Proof.
  split; [|split].
  - intros procs H. unfold SystemMonitor.get_total_disk_io.
    rewrite total_io_loop_readable by assumption. reflexivity.
  - intros before e after Hb He.
    unfold SystemMonitor.get_total_disk_io. generalize 0.
    induction Hb as [|p l Hp _ IH]; intros acc;
      cbn [app SystemMonitor.total_io_loop].
    + destruct e; try reflexivity; exfalso; apply He; exact I.
    + destruct p as [[r w]|e']; [apply IH|].
      destruct e'; try contradiction; apply IH.
  - induction 1 as [|p procs Hp _ IH]; cbn [readable_io]; [lia|].
    destruct p as [[r w]|e]; lia.
Qed.

Lemma get_total_disk_io_witness :
  Forall skippable [Ok (9, 0); Raise AccessDenied; Ok (10, 5)] /\
  SystemMonitor.get_total_disk_io [Ok (9, 0); Raise AccessDenied; Ok (10, 5)]
  = Ok 24.
Proof.
  assert (H : Forall skippable [Ok (9, 0); Raise AccessDenied; Ok (10, 5)])
    by (repeat constructor).
  split; [exact H|].
  exact (proj1 get_total_disk_io_sums_readable _ H).
Defined.

(** ** Steps that can only fail with curses.error *)

Lemma curses_only_ret {A : Type} (a : A) : curses_only (ret a).
Proof. intros scr. left. exists a. reflexivity. Qed.

Lemma curses_only_addstr (y x : Z) (text : string) (a : attr) :
  curses_only (addstr y x text a).
Proof.
  intros scr. destruct (addstr_outcome y x text a scr) as [H|H];
    [left; exists tt; exact H|right; exact H].
Qed.


Lemma curses_only_bind {A B : Type} (m : draw A) (k : A -> draw B) :
  curses_only m -> (forall a, curses_only (k a)) -> curses_only (bind_draw m k).
Proof.
  intros Hm Hk scr. unfold bind_draw.
  destruct (Hm scr) as [(a & Ha)|Ha]; destruct (m scr) as [scr1 r];
    cbn [snd] in Ha; subst r; [apply Hk|right; reflexivity].
Qed.

Lemma curses_only_when (b : bool) (m : draw unit) :
  curses_only m -> curses_only (when b m).
Proof. intros Hm. destruct b; [exact Hm|apply curses_only_ret]. Qed.

Lemma curses_only_lift_ok {A : Type} (a : A) : curses_only (lift (Ok a)).
Proof. intros scr. left. exists a. reflexivity. Qed.

Lemma try_curses_ok (m : draw unit) :
  curses_only m -> forall scr, snd (try_curses m scr) = Ok tt.
Proof.
  intros Hm scr. unfold try_curses.
  destruct (Hm scr) as [([] & Ha)|Ha]; destruct (m scr) as [scr1 r];
    cbn [snd] in Ha; subst r; reflexivity.
Qed.


Lemma for_each_ok {A : Type} (l : list A) (body : A -> draw unit) :
  (forall x, In x l -> forall scr, snd (body x scr) = Ok tt) ->
  forall scr, snd (for_each l body scr) = Ok tt.
Proof.
  induction l as [|x l IH]; intros Hb scr; cbn [for_each]; [reflexivity|].
  unfold bind_draw.
  assert (Hx := Hb x (or_introl eq_refl) scr).
  destruct (body x scr) as [scr1 r]. cbn [snd] in Hx. subst r.
  apply IH. intros y Hy. apply Hb. right. exact Hy.
Qed.

(** ** The header and the table are drawn defensively *)

(** Drawing the header lines never raises, whatever the size of the
    terminal, in both files: every failure of addstr inside is swallowed. *)
Theorem draw_header_never_raises :
  (forall st cores height width scr,
      snd (SystemMonitor.draw_header st cores height width scr) = Ok tt) /\
  (forall st cores width scr,
      snd (AnotherMonitor.draw_header st cores width scr) = Ok tt).
Proof.
  split.
  - intros st cores height width scr. unfold SystemMonitor.draw_header.
    apply try_curses_ok. apply curses_only_when.
    repeat (apply curses_only_bind; [apply curses_only_addstr|intros _]).
    apply curses_only_addstr.
  - intros st cores width scr. unfold AnotherMonitor.draw_header.
    apply try_curses_ok.
    repeat (apply curses_only_bind; [apply curses_only_addstr|intros _]).
    apply curses_only_addstr.
Qed.

Lemma enumerate_In {A : Type} (l : list A) (start : Z) (i : Z) (x : A) :
  In (i, x) (enumerate l start) -> In x l.
Proof.
  revert start. induction l as [|y l IH]; intros start H; cbn [enumerate] in H;
    [contradiction|].
  destruct H as [H|H]; [inversion H; left; reflexivity|right; eapply IH, H].
Qed.

Lemma firstn_In {A : Type} (n : nat) (l : list A) (x : A) :
  In x (firstn n l) -> In x l.
Proof.
  revert l. induction n as [|n IH]; intros l H; [contradiction|].
  destruct l as [|y l]; [contradiction|]. cbn [firstn] in H.
  destruct H as [H|H]; [left; exact H|right; apply IH, H].
Qed.

Lemma slice_to_In {A : Type} (l : list A) (k : Z) (x : A) :
  In x (slice_to l k) -> In x l.
Proof. unfold slice_to. destruct (k <? 0); apply firstn_In. Qed.

(** Drawing the table never raises when every row has a memory text (the
    row text is then built without error, and every failure of addstr is
    swallowed), in both files. *)
Theorem draw_table_never_raises :
  (forall cores height width processes scr,
      Forall (fun r => exists m, SystemMonitor.memory_usage r = Some m) processes ->
      snd (SystemMonitor.draw_table cores height width processes scr) = Ok tt) /\
  (forall cores height width processes scr,
      Forall (fun r => exists m, AnotherMonitor.memory_usage r = Some m) processes ->
      snd (AnotherMonitor.draw_table cores height width processes scr) = Ok tt).
Proof.
  split; intros cores height width processes scr Hmem.
  - unfold SystemMonitor.draw_table, bind_draw.
    assert (Hh : forall s, snd (try_curses
                  (addstr (SystemMonitor.header_start_row cores) 0
                     (ljust "PID" 10 ++ ljust "Process Name" 30 ++ ljust "CPU%" 10
                        ++ ljust "Memory" 10 ++ "Disk I/O") A_NORMAL ;;;
                   addstr (SystemMonitor.header_start_row cores + 1) 0
                     (str_mul "-" (Z.min (width - 1) 80)) A_NORMAL) s) = Ok tt).
    { intros s. apply try_curses_ok.
      apply curses_only_bind; [apply curses_only_addstr|intros _].
      apply curses_only_addstr. }
    specialize (Hh scr). destruct (try_curses _ scr) as [scr1 r].
    cbn [snd] in Hh. subst r.
    apply for_each_ok. intros [idx process] Hin s.
    apply enumerate_In, slice_to_In in Hin.
    rewrite Forall_forall in Hmem. destruct (Hmem _ Hin) as (m & Hm).
    apply try_curses_ok. unfold SystemMonitor.row_text, format_left_optional.
    rewrite Hm. cbn [format_left Z.ltb Z.compare bind].
    apply curses_only_bind; [apply curses_only_lift_ok|intros text].
    apply curses_only_addstr.
  - unfold AnotherMonitor.draw_table, bind_draw.
    assert (Hh : forall s, snd (try_curses
                  (addstr (AnotherMonitor.header_start_row cores) 0
                     (ljust "PID" 10 ++ ljust "Process Name" 30 ++ ljust "CPU%" 10
                        ++ ljust "Memory" 10 ++ "Disk I/O") A_NORMAL ;;;
                   addstr (AnotherMonitor.header_start_row cores + 1) 0
                     (str_mul "-" (Z.min (width - 1) 80)) A_NORMAL) s) = Ok tt).
    { intros s. apply try_curses_ok.
      apply curses_only_bind; [apply curses_only_addstr|intros _].
      apply curses_only_addstr. }
    specialize (Hh scr). destruct (try_curses _ scr) as [scr1 r].
    cbn [snd] in Hh. subst r.
    apply for_each_ok. intros [idx process] Hin s.
    apply enumerate_In, slice_to_In in Hin.
    rewrite Forall_forall in Hmem. destruct (Hmem _ Hin) as (m & Hm).
    apply try_curses_ok. unfold AnotherMonitor.row_text, format_left_optional.
    rewrite Hm. cbn [format_left Z.ltb Z.compare bind].
    apply curses_only_bind; [apply curses_only_lift_ok|intros text].
    apply curses_only_addstr.
Qed.

Lemma draw_table_never_raises_witness :
  snd (SystemMonitor.draw_table 4 24 100
         [ {| SystemMonitor.pid := 1; SystemMonitor.name := "alpha";
              SystemMonitor.cpu_percent := 90;
              SystemMonitor.memory_usage := Some "1000.00B";
              SystemMonitor.disk_usage := "R: 9.00B W: 0.00B | %: 47.37%";
              SystemMonitor.process_io := 9 |} ] (window 24 100)) = Ok tt.
Proof.
  apply (proj1 draw_table_never_raises).
  constructor; [|constructor]. eexists. reflexivity.
Defined.

(** ** Numeric text *)










(** ** The filter commands *)





(** the filter commands on a window too narrow for the input position: the
    text read is empty, so the PID filter is cleared and the name filter
    becomes empty *)
Example filter_commands_on_narrow_window :
  snd (AnotherMonitor.handle_key (fun _ => Denied) (ord "f") "42"
         {| AnotherMonitor.sort_by := "cpu"; AnotherMonitor.ascending := false;
            AnotherMonitor.filter_pid := Some 7;
            AnotherMonitor.last_message := "old" |} (window 24 30))
  = Ok (Some {| AnotherMonitor.sort_by := "cpu";
                AnotherMonitor.ascending := false;
                AnotherMonitor.filter_pid := None;
                AnotherMonitor.last_message := "" |}) /\
  snd (AnotherMonitor.handle_key (fun _ => Denied) (ord "f") "42"
         AnotherMonitor.initial_state (window 24 80))
  = Ok (Some {| AnotherMonitor.sort_by := "cpu";
                AnotherMonitor.ascending := false;
                AnotherMonitor.filter_pid := Some 42;
                AnotherMonitor.last_message := "" |}) /\
  snd (SystemMonitor.handle_key (fun _ => Denied) (ord "f") "abc"
         SystemMonitor.initial_state (window 24 20))
  = Ok (Some {| SystemMonitor.sort_by := "cpu";
                SystemMonitor.ascending := false;
                SystemMonitor.filter_name := "";
                SystemMonitor.filter_pid := None;
                SystemMonitor.last_message := "Filtering by process name: " |}) /\
  snd (SystemMonitor.handle_key (fun _ => Denied) (ord "f") " top "
         SystemMonitor.initial_state (window 24 80))
  = Ok (Some {| SystemMonitor.sort_by := "cpu";
                SystemMonitor.ascending := false;
                SystemMonitor.filter_name := "top";
                SystemMonitor.filter_pid := None;
                SystemMonitor.last_message := "Filtering by process name: top" |}).
Proof. repeat split; vm_compute; reflexivity. Qed.

(** ** The command dispatcher *)

(** The toggle-direction command flips [ascending], reports the new direction
    in the status message, draws nothing and leaves the sort key and the
    filters unchanged, in both files; a second toggle restores the
    direction. *)
Theorem toggle_direction_effect :
  (forall os typed st scr,
      exists st',
        SystemMonitor.handle_key os (ord "a") typed st scr = (scr, Ok (Some st')) /\
        SystemMonitor.ascending st' = negb (SystemMonitor.ascending st) /\
        SystemMonitor.last_message st'
        = (if SystemMonitor.ascending st' then "Sorting in ascending order"
           else "Sorting in descending order") /\
        SystemMonitor.sort_by st' = SystemMonitor.sort_by st /\
        SystemMonitor.filter_name st' = SystemMonitor.filter_name st /\
        SystemMonitor.filter_pid st' = SystemMonitor.filter_pid st /\
        exists st'',
          SystemMonitor.handle_key os (ord "a") typed st' scr
          = (scr, Ok (Some st'')) /\
          SystemMonitor.ascending st'' = SystemMonitor.ascending st) /\
  (forall os typed st scr,
      exists st',
        AnotherMonitor.handle_key os (ord "a") typed st scr = (scr, Ok (Some st')) /\
        AnotherMonitor.ascending st' = negb (AnotherMonitor.ascending st) /\
        AnotherMonitor.last_message st'
        = (if AnotherMonitor.ascending st' then "Sorting in ascending order"
           else "Sorting in descending order") /\
        AnotherMonitor.sort_by st' = AnotherMonitor.sort_by st /\
        AnotherMonitor.filter_pid st' = AnotherMonitor.filter_pid st /\
        exists st'',
          AnotherMonitor.handle_key os (ord "a") typed st' scr
          = (scr, Ok (Some st'')) /\
          AnotherMonitor.ascending st'' = AnotherMonitor.ascending st).
Proof.
  split; intros os typed st scr.
  - eexists. split; [reflexivity|].
    cbn [SystemMonitor.sort_by SystemMonitor.last_message SystemMonitor.ascending
         SystemMonitor.filter_name SystemMonitor.filter_pid].
    split; [reflexivity|].
    split; [destruct (SystemMonitor.ascending st); reflexivity|].
    repeat (split; [reflexivity|]).
    eexists. split; [reflexivity|].
    cbn [SystemMonitor.ascending]. apply negb_involutive.
  - eexists. split; [reflexivity|].
    cbn [AnotherMonitor.sort_by AnotherMonitor.last_message
         AnotherMonitor.ascending AnotherMonitor.filter_pid].
    split; [reflexivity|].
    split; [destruct (AnotherMonitor.ascending st); reflexivity|].
    repeat (split; [reflexivity|]).
    eexists. split; [reflexivity|].
    cbn [AnotherMonitor.ascending]. apply negb_involutive.
Qed.








(** A key that is no command (such as -1, no key pending) changes nothing
    and draws nothing, in both files. *)
Theorem unknown_key_changes_nothing :
  (forall os key typed st scr,
      ~ In key (map ord ["q"; "f"; "p"; "s"; "a"; "k"]%char) ->
      SystemMonitor.handle_key os key typed st scr = (scr, Ok (Some st))) /\
  (forall os key typed st scr,
      ~ In key (map ord ["q"; "f"; "s"; "a"; "k"]%char) ->
      AnotherMonitor.handle_key os key typed st scr = (scr, Ok (Some st))).
Proof.
  split; intros os key typed st scr Hkey; cbn [map In] in Hkey.
  - unfold SystemMonitor.handle_key, bind_draw, getmaxyx.
    repeat match goal with
           | |- context [key =? ?c] =>
               destruct (Z.eqb_spec key c); [exfalso; apply Hkey; subst key; auto 10|]
           end.
    reflexivity.
  - unfold AnotherMonitor.handle_key, bind_draw, getmaxyx.
    repeat match goal with
           | |- context [key =? ?c] =>
               destruct (Z.eqb_spec key c); [exfalso; apply Hkey; subst key; auto 10|]
           end.
    reflexivity.
Qed.

Lemma unknown_key_changes_nothing_witness :
  SystemMonitor.handle_key (fun _ => Terminated) (-1) ""
    SystemMonitor.initial_state (window 24 80)
  = (window 24 80, Ok (Some SystemMonitor.initial_state)).
Proof.
  apply (proj1 unknown_key_changes_nothing).
  cbn [map In]. intros H.
  repeat (destruct H as [H|H]; [vm_compute in H; discriminate H|]).
  exact H.
Defined.

(** ** What each command leaves alone *)

Lemma try_command_inv {S : Type} (st st' : S) (m : draw S) (scr : screen) :
  snd (try_command st m scr) = Ok (Some st') ->
  st' = st \/ snd (m scr) = Ok st'.
Proof.
  unfold try_command. destruct (m scr) as [scr1 [a|e]]; cbn [snd].
  - intros H. inversion H. right. reflexivity.
  - destruct e; cbn [snd]; intros H; inversion H. left. reflexivity.
Qed.

Lemma bind_draw_snd_ok {A B : Type} (m : draw A) (k : A -> draw B) scr b :
  snd (bind_draw m k scr) = Ok b -> exists scr1 a, snd (k a scr1) = Ok b.
Proof.
  unfold bind_draw. destruct (m scr) as [scr1 [a|e]]; cbn [snd]; [|discriminate].
  intros H. exists scr1, a. exact H.
Qed.

Lemma ret_snd_ok {A : Type} (a b : A) scr : snd (ret a scr) = Ok b -> b = a.
Proof. cbn. intros H. inversion H. reflexivity. Qed.

Ltac peel_command H :=
  repeat (apply bind_draw_snd_ok in H; destruct H as (? & ? & H));
  apply ret_snd_ok in H.

(** Each command changes only its own part of the view state: the sort key
    changes only on "s", the direction only on "a", the name filter only on
    "f" and the PID filter only on the filter-by-PID key (in another_monitor
    also on "s"); a sort key that is "cpu" or "memory" stays one of the two
    under every command. *)
Theorem commands_change_only_their_fields :
  (forall os key typed st scr st',
      snd (SystemMonitor.handle_key os key typed st scr) = Ok (Some st') ->
      (key <> ord "s" -> SystemMonitor.sort_by st' = SystemMonitor.sort_by st) /\
      (key <> ord "a" -> SystemMonitor.ascending st' = SystemMonitor.ascending st) /\
      (key <> ord "f" ->
       SystemMonitor.filter_name st' = SystemMonitor.filter_name st) /\
      (key <> ord "p" -> SystemMonitor.filter_pid st' = SystemMonitor.filter_pid st) /\
      (SystemMonitor.sort_by st = "cpu" \/ SystemMonitor.sort_by st = "memory" ->
       SystemMonitor.sort_by st' = "cpu" \/ SystemMonitor.sort_by st' = "memory")) /\
  (forall os key typed st scr st',
      snd (AnotherMonitor.handle_key os key typed st scr) = Ok (Some st') ->
      (key <> ord "s" -> AnotherMonitor.sort_by st' = AnotherMonitor.sort_by st) /\
      (key <> ord "a" ->
       AnotherMonitor.ascending st' = AnotherMonitor.ascending st) /\
      (key <> ord "f" -> key <> ord "s" ->
       AnotherMonitor.filter_pid st' = AnotherMonitor.filter_pid st) /\
      (AnotherMonitor.sort_by st = "cpu" \/ AnotherMonitor.sort_by st = "memory" ->
       AnotherMonitor.sort_by st' = "cpu" \/ AnotherMonitor.sort_by st' = "memory")).
Proof.
  split; intros os key typed st scr st' H.
  - unfold SystemMonitor.handle_key in H. unfold bind_draw at 1 in H.
    unfold getmaxyx in H.
    destruct (Z.eqb_spec key (ord "q")); [discriminate H|].
    apply try_command_inv in H.
    destruct H as [->|H]; [repeat split; intros; auto|].
    destruct (Z.eqb_spec key (ord "f")).
    { peel_command H. subst st'.
      cbn [SystemMonitor.sort_by SystemMonitor.ascending SystemMonitor.filter_name
           SystemMonitor.filter_pid].
      repeat split; intros; auto; contradiction. }
    destruct (Z.eqb_spec key (ord "p")).
    { peel_command H. subst st'.
      cbn [SystemMonitor.sort_by SystemMonitor.ascending SystemMonitor.filter_name
           SystemMonitor.filter_pid].
      repeat split; intros; auto; contradiction. }
    destruct (Z.eqb_spec key (ord "s")).
    { apply ret_snd_ok in H. subst st'.
      cbn [SystemMonitor.sort_by SystemMonitor.ascending SystemMonitor.filter_name
           SystemMonitor.filter_pid].
      repeat split; intros; auto; try contradiction.
      destruct (SystemMonitor.sort_by st =? "cpu")%string; auto. }
    destruct (Z.eqb_spec key (ord "a")).
    { apply ret_snd_ok in H. subst st'.
      cbn [SystemMonitor.sort_by SystemMonitor.ascending SystemMonitor.filter_name
           SystemMonitor.filter_pid].
      repeat split; intros; auto; contradiction. }
    destruct (Z.eqb_spec key (ord "k")).
    { peel_command H. subst st'.
      cbn [SystemMonitor.sort_by SystemMonitor.ascending SystemMonitor.filter_name
           SystemMonitor.filter_pid].
      repeat split; intros; auto. }
    apply ret_snd_ok in H. subst st'. repeat split; intros; auto.
  - unfold AnotherMonitor.handle_key in H. unfold bind_draw at 1 in H.
    unfold getmaxyx in H.
    destruct (Z.eqb_spec key (ord "q")); [discriminate H|].
    apply try_command_inv in H.
    destruct H as [->|H]; [repeat split; intros; auto|].
    destruct (Z.eqb_spec key (ord "f")).
    { peel_command H. subst st'.
      cbn [AnotherMonitor.sort_by AnotherMonitor.ascending AnotherMonitor.filter_pid].
      repeat split; intros; auto; contradiction. }
    destruct (Z.eqb_spec key (ord "s")).
    { apply ret_snd_ok in H. subst st'.
      cbn [AnotherMonitor.sort_by AnotherMonitor.ascending AnotherMonitor.filter_pid].
      repeat split; intros; auto; try contradiction.
      destruct (AnotherMonitor.sort_by st =? "cpu")%string; auto. }
    destruct (Z.eqb_spec key (ord "a")).
    { apply ret_snd_ok in H. subst st'.
      cbn [AnotherMonitor.sort_by AnotherMonitor.ascending AnotherMonitor.filter_pid].
      repeat split; intros; auto; contradiction. }
    destruct (Z.eqb_spec key (ord "k")).
    { peel_command H. subst st'.
      cbn [AnotherMonitor.sort_by AnotherMonitor.ascending AnotherMonitor.filter_pid].
      repeat split; intros; auto. }
    apply ret_snd_ok in H. subst st'. repeat split; intros; auto.
Qed.

Lemma commands_change_only_their_fields_witness :
  exists st',
    snd (SystemMonitor.handle_key (fun _ => Terminated) (ord "k") "42"
           SystemMonitor.initial_state (window 24 80)) = Ok (Some st') /\
    SystemMonitor.sort_by st' = "cpu" /\
    SystemMonitor.filter_pid st' = None.
Proof.
  eexists. split; [vm_compute; reflexivity|].
  destruct (proj1 commands_change_only_their_fields (fun _ => Terminated)
              (ord "k") "42" SystemMonitor.initial_state (window 24 80) _
              eq_refl) as (Hs & _ & _ & Hp & _).
  split; [apply Hs|apply Hp]; vm_compute; discriminate.
Defined.

(** ** More on get_size *)

Lemma append_assoc (a b c : string) : (a ++ b) ++ c = a ++ (b ++ c).
Proof. induction a as [|x a IH]; cbn [append]; [reflexivity|]. now rewrite IH. Qed.

Lemma append_empty_r (a : string) : a ++ "" = a.
Proof. induction a as [|x a IH]; cbn [append]; [reflexivity|]. now rewrite IH. Qed.

Lemma round_half_even_unit (a : Z) : round_half_even a 1 = a.
Proof.
  unfold round_half_even. rewrite Z.div_1_r, Z.mod_1_r. reflexivity.
Qed.

Lemma format_float_2f_int (n : Z) :
  format_float_2f (inject_Z n) = string_of_Z n ++ ".00".
Proof.
  unfold format_float_2f, string_of_Z. cbn [inject_Z Qnum Qden].
  rewrite round_half_even_unit.
  rewrite Z.div_mul, Z.mod_mul by lia.
  change (two_digits 0) with "00".
  destruct (Z.ltb_spec n 0).
  - rewrite Z.abs_neq by lia. rewrite append_assoc. reflexivity.
  - rewrite Z.abs_eq by lia. reflexivity.
Qed.

Lemma format_2f_int (n : Z) :
  0 <= n -> n < 2 ^ 53 -> format_2f (Int n) = Ok (string_of_Z n ++ ".00").
Proof.
  intros H0 H53. destruct (to_float_small n H0 H53) as (x & Hx & Hxn).
  unfold format_2f. rewrite Hx. cbn [bind]. f_equal.
  rewrite (format_float_2f_Qeq _ _ Hxn). apply format_float_2f_int.
Qed.

Ltac numerals :=
  repeat match goal with
         | H : context [2 ^ ?e] |- _ =>
             let v := eval vm_compute in (2 ^ e) in change (2 ^ e) with v in H
         | |- context [2 ^ ?e] =>
             let v := eval vm_compute in (2 ^ e) in change (2 ^ e) with v
         end.

(** For every size from 0 to below 2^53 bytes get_size returns a text:
    never None and never an exception.  A size from 0 to 1023 is written as
    the integer itself followed by ".00B". *)
Theorem get_size_text :
  (forall bytes,
      0 <= bytes -> bytes < 2 ^ 53 -> exists text, get_size bytes = Ok (Some text)) /\
  (forall bytes,
      0 <= bytes -> bytes < 1024 ->
      get_size bytes = Ok (Some (string_of_Z bytes ++ ".00B"))).
Proof.
  assert (Hsmall : forall bytes,
             0 <= bytes -> bytes < 1024 ->
             get_size bytes = Ok (Some (string_of_Z bytes ++ ".00B"))).
  { intros bytes H0 Hb. unfold get_size, units. cbn [get_size_loop].
    assert (Hlt : num_ltb (Int bytes) (Int 1024) = true).
    { unfold num_ltb. apply negb_true_iff, not_true_is_false. intros Hle.
      apply Qle_bool_iff in Hle. cbn [to_Q] in Hle. rewrite <- Zle_Qle in Hle. lia. }
    assert (H53 : bytes < 2 ^ 53) by (numerals; lia).
    rewrite Hlt, (format_2f_int bytes H0 H53). cbn [bind].
    rewrite append_assoc. reflexivity. }
  split; [|exact Hsmall].
  intros bytes H0 H53.
  destruct (Z_lt_ge_dec bytes 1024) as [Hlt|Hge];
    [eexists; apply Hsmall; [exact H0|exact Hlt]|].
  assert (Hpos : 0 < bytes) by lia.
  unfold get_size, units.
  destruct (Z_lt_ge_dec bytes (2 ^ 20)) as [H1|H1].
  { eexists. apply (get_size_loop_selects "B" "K" ["M"; "G"; "T"; "P"] bytes
                      [""] (Int bytes) 0); try assumption; try reflexivity;
      try (lia || (numerals; lia)). }
  destruct (Z_lt_ge_dec bytes (2 ^ 30)) as [H2|H2].
  { eexists. apply (get_size_loop_selects "B" "M" ["G"; "T"; "P"] bytes
                      [""; "K"] (Int bytes) 0); try assumption; try reflexivity;
      try (lia || (numerals; lia)). }
  destruct (Z_lt_ge_dec bytes (2 ^ 40)) as [H3|H3].
  { eexists. apply (get_size_loop_selects "B" "G" ["T"; "P"] bytes
                      [""; "K"; "M"] (Int bytes) 0); try assumption;
      try reflexivity; try (lia || (numerals; lia)). }
  destruct (Z_lt_ge_dec bytes (2 ^ 50)) as [H4|H4].
  { eexists. apply (get_size_loop_selects "B" "T" ["P"] bytes
                      [""; "K"; "M"; "G"] (Int bytes) 0); try assumption;
      try reflexivity; try (lia || (numerals; lia)). }
  eexists. apply (get_size_loop_selects "B" "P" [] bytes
                    [""; "K"; "M"; "G"; "T"] (Int bytes) 0); try assumption;
    try reflexivity; try (lia || (numerals; lia)).
Qed.

Lemma get_size_text_witness :
  0 <= 1023 /\ 1023 < 1024 /\
  get_size 1023 = Ok (Some (string_of_Z 1023 ++ ".00B")).
Proof.
  assert (H0 : 0 <= 1023) by lia.
  assert (H : 1023 < 1024) by reflexivity.
  split; [exact H0|]. split; [exact H|]. exact (proj2 get_size_text 1023 H0 H).
Defined.

(** ** More on display_bar *)

Lemma repeat_string_length (c : ascii) (n : nat) :
  String.length (repeat_string (String c EmptyString) n) = n.
Proof. induction n as [|n IH]; cbn; [reflexivity|]. now rewrite IH. Qed.

Lemma ljust_str_mul_full (c : ascii) (n : Z) :
  ljust (str_mul (String c EmptyString) n) n = str_mul (String c EmptyString) n.
Proof.
  unfold ljust, len, str_mul at 2 3. rewrite repeat_string_length.
  replace (Z.to_nat (n - Z.of_nat (Z.to_nat n))) with O by lia.
  apply append_empty_r.
Qed.

Lemma to_int_lower (x : Q) (c : Z) :
  0 <= c -> (inject_Z c <= x)%Q -> c <= to_int (Float x).
Proof.
  destruct x as [n d]. unfold Qle. cbn [to_int Qnum Qden inject_Z].
  intros Hc H. rewrite Z.quot_div_nonneg by nia.
  apply Z.div_le_lower_bound; lia.
Qed.

Lemma full_bar_length (usage : Q) (width : Z) :
  (100 <= usage)%Q -> 20 <= width -> width - 20 <= 2 ^ 52 ->
  Z.min (to_int (fmul (Float (binary64 (usage / inject_Z 100)))
                   (Int (width - 20)))) (width - 20)
  = width - 20.
Proof.
  intros Hu Hw Hw52. apply Z.min_r.
  assert (H1 : (inject_Z 1 <= binary64 (usage / inject_Z 100))%Q).
  { apply binary64_ge_int; [lia|vm_compute; discriminate|].
    change (usage / inject_Z 100)%Q with (usage * (1 # 100))%Q.
    change (inject_Z 1) with 1%Q. lra. }
  unfold fmul. cbn [to_Q].
  set (ratio := binary64 (usage / inject_Z 100)) in *.
  destruct (Z.eq_dec (width - 20) 0) as [Hz|Hnz].
  - rewrite Hz. apply to_int_lower; [lia|]. apply binary64_nonneg.
    change (inject_Z 0) with 0%Q. lra.
  - apply to_int_lower; [lia|]. apply binary64_ge_int; [lia|exact Hw52|].
    assert (Hc : (0 <= inject_Z (width - 20))%Q) by (rewrite <- (Zle_Qle 0); lia).
    change (inject_Z 1) with 1%Q in H1.
    generalize dependent (inject_Z (width - 20)). intros c Hc.
    generalize dependent ratio. intros ratio H1. nra.
Qed.

(** A usage of 100 or more fills the whole bar: in a window at least 20
    columns wide, a bar that is drawn holds exactly [width - 20] strokes and no
    padding, in both files. *)
Theorem full_bar_at_100_percent :
  (forall usage label y width scr scr',
      (100 <= usage)%Q -> 20 <= width -> width - 20 <= 2 ^ 52 ->
      SystemMonitor.display_bar (Float usage) label y width (Int 100) scr
      = (scr', Ok tt) ->
      cells scr'
      = (y, 0, label ++ ": [" ++ str_mul "|" (width - 20) ++ "] "
                 ++ format_float_2f usage ++ "%", A_BOLD) :: cells scr) /\
  (forall usage label y width scr scr',
      (100 <= usage)%Q -> 20 <= width -> width - 20 <= 2 ^ 52 ->
      AnotherMonitor.display_bar (Float usage) label y width scr = (scr', Ok tt) ->
      cells scr'
      = (y, 0, label ++ ": [" ++ str_mul "|" (width - 20) ++ "] "
                 ++ format_float_2f usage ++ "%", A_BOLD) :: cells scr).
Proof.
  split; intros usage label y width scr scr' Hu Hw Hw52 H.
  - unfold SystemMonitor.display_bar, bind_draw, lift, truediv in H.
    cbn [to_Q] in H. change (Qeq_bool (inject_Z 100) 0) with false in H.
    cbv iota in H.
    destruct (overflows (usage / inject_Z 100)); [discriminate H|].
    rewrite (full_bar_length usage width Hu Hw Hw52) in H.
    unfold format_left in H.
    destruct (Z.ltb_spec (width - 20) 0) as [Hneg|_]; [lia|].
    rewrite ljust_str_mul_full in H. cbn [format_2f to_float bind] in H.
    apply addstr_cells, H.
  - unfold AnotherMonitor.display_bar, bind_draw, lift, truediv in H.
    cbn [to_Q] in H. change (Qeq_bool (inject_Z 100) 0) with false in H.
    cbv iota in H.
    destruct (overflows (usage / inject_Z 100)); [discriminate H|].
    rewrite (full_bar_length usage width Hu Hw Hw52) in H.
    unfold format_left in H.
    destruct (Z.ltb_spec (width - 20) 0) as [Hneg|_]; [lia|].
    rewrite ljust_str_mul_full in H. cbn [format_2f to_float bind] in H.
    apply addstr_cells, H.
Qed.

Lemma full_bar_at_100_percent_witness :
  (100 <= 250)%Q /\ 20 <= 60 /\ 60 - 20 <= 2 ^ 52 /\
  cells (fst (AnotherMonitor.display_bar (Float 250) "CPU Usage" 0 60
                (window 24 80)))
  = [(0, 0, "CPU Usage" ++ ": [" ++ str_mul "|" (60 - 20) ++ "] "
              ++ format_float_2f 250 ++ "%", A_BOLD)].
Proof.
  assert (H1 : (100 <= 250)%Q) by (vm_compute; discriminate).
  assert (H2 : 20 <= 60) by lia.
  assert (H3 : 60 - 20 <= 2 ^ 52) by (vm_compute; discriminate).
  repeat (split; [assumption|]).
  apply (proj2 full_bar_at_100_percent 250%Q "CPU Usage" 0 60 (window 24 80)
           _ H1 H2 H3).
  vm_compute. reflexivity.
Defined.

(** ** Filters and rows *)

Lemma filter_pid_length {A : Type} (g : A -> Z) (f : Z) (l : list A) :
  NoDup (map g l) -> (List.length (filter (fun r => Z.eqb (g r) f) l) <= 1)%nat.
Proof.
  induction l as [|x l IH]; cbn [map filter]; intros Hnd; [cbn; lia|].
  inversion Hnd as [|? ? Hx Hl]; subst.
  destruct (Z.eqb_spec (g x) f) as [Heq|_]; [|apply IH, Hl].
  assert (Hnone : filter (fun r => g r =? f) l = []).
  { clear IH Hl Hnd. induction l as [|y l IH]; [reflexivity|]. cbn [filter].
    destruct (Z.eqb_spec (g y) f) as [Hy|_].
    - exfalso. apply Hx. cbn [map]. left. congruence.
    - apply IH. intros Hin. apply Hx. right. exact Hin. }
  rewrite Hnone. cbn. lia.
Qed.

Lemma NoDup_map_filter {A : Type} (g : A -> Z) (p : A -> bool) (l : list A) :
  NoDup (map g l) -> NoDup (map g (filter p l)).
Proof.
  induction l as [|x l IH]; cbn [map filter]; intros Hnd; [constructor|].
  inversion Hnd as [|? ? Hx Hl]; subst.
  destruct (p x); [|apply IH, Hl].
  cbn [map]. constructor; [|apply IH, Hl].
  intros Hin. apply Hx. apply in_map_iff in Hin. destruct Hin as (y & Hy & Hin).
  apply filter_In in Hin. apply in_map_iff. exists y. split; [exact Hy|apply Hin].
Qed.

(** With PIDs that are unique, a PID filter leaves at most one row, whatever
    the name filter, in both files (in another_monitor for a PID other than
    0, which stands for no filter). *)
Theorem pid_filter_at_most_one_row :
  (forall st f rows,
      SystemMonitor.filter_pid st = Some f ->
      NoDup (map SystemMonitor.pid rows) ->
      (List.length (SystemMonitor.apply_filters st rows) <= 1)%nat) /\
  (forall st f rows,
      AnotherMonitor.filter_pid st = Some f -> f <> 0 ->
      NoDup (map AnotherMonitor.pid rows) ->
      (List.length (AnotherMonitor.apply_filters st rows) <= 1)%nat).
Proof.
  split.
  - intros st f rows Hf Hnd. unfold SystemMonitor.apply_filters. rewrite Hf.
    apply filter_pid_length.
    destruct (SystemMonitor.filter_name st =? "")%string;
      [exact Hnd|apply NoDup_map_filter, Hnd].
  - intros st f rows Hf Hf0 Hnd. unfold AnotherMonitor.apply_filters. rewrite Hf.
    destruct (Z.eqb_spec f 0); [contradiction|].
    apply filter_pid_length, Hnd.
Qed.

Lemma pid_filter_at_most_one_row_witness :
  exists rows,
    AnotherMonitor.get_processes_info [proc_alpha; proc_beta; proc_gamma]
      "cpu" false = Ok rows /\
    Nat.le
      (List.length
         (AnotherMonitor.apply_filters
            {| AnotherMonitor.sort_by := "cpu"; AnotherMonitor.ascending := false;
               AnotherMonitor.filter_pid := Some 2;
               AnotherMonitor.last_message := "" |} rows)) 1.
Proof.
  eexists. split; [vm_compute; reflexivity|].
  apply (proj2 pid_filter_at_most_one_row _ 2); [reflexivity|discriminate|].
  cbn [map AnotherMonitor.pid].
  repeat constructor; cbn [In]; intros H;
    repeat (destruct H as [H|H]; [discriminate H|]); exact H.
Defined.

Lemma system_process_row_fields (total_io : Z) (p : proc_info) (r : SystemMonitor.row) :
  SystemMonitor.process_row total_io p = Ok r ->
  SystemMonitor.pid r = info_pid p /\
  SystemMonitor.name r = name_or_unknown (info_name p) /\
  SystemMonitor.cpu_percent r = info_cpu_percent p /\
  SystemMonitor.process_io r = io_bytes p.
Proof.
  unfold SystemMonitor.process_row. intros H.
  destruct (get_size (info_rss p)) as [m|e]; cbn [bind] in H; [|discriminate].
  destruct (SystemMonitor.percent_usage _ _) as [pc|e]; cbn [bind] in H;
    [|discriminate].
  destruct (SystemMonitor.disk_usage_text _ _ _) as [d|e]; cbn [bind] in H;
    [|discriminate].
  inversion H. cbn [SystemMonitor.pid SystemMonitor.name SystemMonitor.cpu_percent
                    SystemMonitor.process_io].
  repeat split. unfold io_bytes.
  destruct (info_io_counters p) as [[rb wb]|]; reflexivity.
Qed.

Lemma name_or_unknown_nonempty (name : option string) :
  (name_or_unknown name =? "")%string = false.
Proof.
  unfold name_or_unknown. destruct name as [s|]; [|reflexivity].
  destruct (s =? "")%string eqn:E; [reflexivity|exact E].
Qed.

(** The rows that get_processes_info of system_monitor returns are the
    enumerated processes, one row each, none dropped or repeated, in the
    sorted order: a row carries the PID, the CPU% and the read plus write
    bytes of its process (0 without counters), and its name is never empty,
    "Unknown" standing for a missing or empty one. *)
Theorem system_rows_match_processes
  (io : list (result (Z * Z))) (procs : list proc_info) (sort_by : string)
  (ascending : bool) (rows : list SystemMonitor.row) :
  SystemMonitor.get_processes_info io procs sort_by ascending = Ok rows ->
  List.length rows = List.length procs /\
  Forall (fun r => (SystemMonitor.name r =? "")%string = false) rows /\
  exists collected,
    Permutation rows collected /\
    Forall2 (fun p r =>
               SystemMonitor.pid r = info_pid p /\
               SystemMonitor.name r = name_or_unknown (info_name p) /\
               SystemMonitor.cpu_percent r = info_cpu_percent p /\
               SystemMonitor.process_io r = io_bytes p) procs collected.
Proof.
  unfold SystemMonitor.get_processes_info. intros H.
  destruct (SystemMonitor.get_total_disk_io io) as [total_io|e]; cbn [bind] in H;
    [|discriminate].
  destruct (mapM (SystemMonitor.process_row total_io) procs) as [collected|e]
    eqn:Ec; cbn [bind] in H; [|discriminate].
  inversion H as [Hrows]. clear H.
  set (sorted_rows := sorted _ _ _ collected).
  assert (Hperm : Permutation sorted_rows collected) by apply sorted_perm.
  assert (Hall := mapM_Forall2 _ _ (system_process_row_fields total_io) _ _ Ec).
  split; [|split].
  - rewrite (Permutation_length Hperm). symmetry.
    eapply Forall2_length, Hall.
  - eapply Permutation_Forall; [symmetry; exact Hperm|].
    clear Hperm sorted_rows Ec Hrows.
    induction Hall as [|p r ps rs Hpr _ IH]; [constructor|].
    constructor; [|exact IH].
    destruct Hpr as (_ & Hn & _). rewrite Hn. apply name_or_unknown_nonempty.
  - exists collected. split; [exact Hperm|exact Hall].
Qed.

Lemma system_rows_match_processes_witness :
  exists rows,
    SystemMonitor.get_processes_info [Ok (9, 0); Ok (10, 0)]
      [proc_alpha; proc_beta; proc_gamma] "cpu" true = Ok rows /\
    List.length rows = 3%nat.
Proof.
  destruct (SystemMonitor.get_processes_info [Ok (9, 0); Ok (10, 0)]
              [proc_alpha; proc_beta; proc_gamma] "cpu" true) as [rows|e] eqn:E;
    [|vm_compute in E; discriminate].
  exists rows. split; [reflexivity|].
  exact (proj1 (system_rows_match_processes _ _ _ _ rows E)).
Defined.

(** ** A pass on a terminal of two lines or fewer *)

Lemma keeps_size_addstr (y x : Z) (text : string) (a : attr) :
  keeps_size (addstr y x text a).
Proof.
  intros scr. unfold addstr.
  destruct ((0 <=? y) && (y <? scr_height scr) && (0 <=? x) && (x <? scr_width scr));
    [|split; reflexivity].
  destruct (len text <? _); split; reflexivity.
Qed.

Lemma keeps_size_lift {A : Type} (r : result A) : keeps_size (lift r).
Proof. intros scr. split; reflexivity. Qed.

Lemma keeps_size_bind {A B : Type} (m : draw A) (k : A -> draw B) :
  keeps_size m -> (forall a, keeps_size (k a)) -> keeps_size (bind_draw m k).
Proof.
  intros Hm Hk scr. unfold bind_draw. specialize (Hm scr).
  destruct (m scr) as [scr1 [a|e]]; cbn [fst] in *; [|exact Hm].
  destruct (Hk a scr1) as [H1 H2]. destruct Hm as [H3 H4].
  split; congruence.
Qed.

Lemma system_display_bar_keeps_size usage label y width max_value :
  keeps_size (SystemMonitor.display_bar usage label y width max_value).
Proof.
  unfold SystemMonitor.display_bar.
  apply keeps_size_bind; [apply keeps_size_lift|intros ratio].
  apply keeps_size_bind; [apply keeps_size_lift|intros field].
  apply keeps_size_bind; [apply keeps_size_lift|intros text].
  apply keeps_size_addstr.
Qed.

Lemma another_display_bar_keeps_size usage label y width :
  keeps_size (AnotherMonitor.display_bar usage label y width).
Proof.
  unfold AnotherMonitor.display_bar.
  apply keeps_size_bind; [apply keeps_size_lift|intros ratio].
  apply keeps_size_bind; [apply keeps_size_lift|intros field].
  apply keeps_size_bind; [apply keeps_size_lift|intros text].
  apply keeps_size_addstr.
Qed.

Lemma addstr_below_window (y x : Z) (text : string) (a : attr) (scr : screen) :
  scr_height scr <= y -> snd (addstr y x text a scr) = Raise CursesError.
Proof.
  intros H. unfold addstr.
  destruct (Z.ltb_spec y (scr_height scr)) as [Hlt|_]; [lia|].
  rewrite andb_false_r. reflexivity.
Qed.

Lemma system_display_bar_below_window usage label y width max_value scr :
  scr_height scr <= y ->
  raises (snd (SystemMonitor.display_bar usage label y width max_value scr)).
Proof.
  intros H. unfold SystemMonitor.display_bar, bind_draw, lift, raises.
  destruct (truediv usage max_value) as [ratio|e]; [|eexists; reflexivity].
  destruct (format_left _ _) as [field|e]; [|eexists; reflexivity].
  destruct (format_2f usage) as [text|e]; [|eexists; reflexivity].
  exists CursesError. apply addstr_below_window, H.
Qed.

Lemma another_display_bar_below_window usage label y width scr :
  scr_height scr <= y ->
  raises (snd (AnotherMonitor.display_bar usage label y width scr)).
Proof.
  intros H. unfold AnotherMonitor.display_bar, bind_draw, lift, raises.
  destruct (truediv usage (Int 100)) as [ratio|e]; [|eexists; reflexivity].
  destruct (format_left _ _) as [field|e]; [|eexists; reflexivity].
  destruct (format_2f usage) as [text|e]; [|eexists; reflexivity].
  exists CursesError. apply addstr_below_window, H.
Qed.

Lemma bind_draw_raises_first {A B : Type} (m : draw A) (k : A -> draw B) scr :
  raises (snd (m scr)) -> raises (snd (bind_draw m k scr)).
Proof.
  unfold raises, bind_draw. intros (e & He).
  destruct (m scr) as [scr1 r]. cbn [snd] in He. subst r. exists e. reflexivity.
Qed.

(** On a terminal of two lines or fewer a pass of the loop never completes:
    the bar on line 2 is drawn with no guard, so the pass ends in an
    exception, in both files and for every snapshot and view state. *)
Theorem pass_on_two_lines_raises :
  (forall snap st scr,
      scr_height scr <= 2 -> raises (snd (SystemMonitor.render snap st scr))) /\
  (forall snap st scr,
      scr_height scr <= 2 -> raises (snd (AnotherMonitor.render snap st scr))).
Proof.
  split; intros snap st scr Hh.
  - unfold SystemMonitor.render. unfold bind_draw at 1. cbn [clear].
    unfold bind_draw at 1. cbn [getmaxyx scr_height scr_width].
    apply bind_draw_raises_first.
    unfold SystemMonitor.draw_bars.
    destruct (Z.ltb_spec 3 (scr_height scr)) as [Hlt|_]; [lia|].
    cbn [when]. unfold bind_draw at 1. cbn [ret].
    unfold bind_draw at 1, lift at 1.
    destruct (SystemMonitor.total_disk_usage_percentage snap) as [p|e];
      [|exists e; reflexivity].
    apply bind_draw_raises_first, system_display_bar_below_window.
    cbn [scr_height]. exact Hh.
  - unfold AnotherMonitor.render. unfold bind_draw at 1. cbn [clear].
    unfold bind_draw at 1. cbn [getmaxyx scr_height scr_width].
    apply bind_draw_raises_first.
    unfold AnotherMonitor.draw_bars.
    unfold bind_draw at 1, lift at 1.
    destruct (get_size _) as [total_disk|e]; [|exists e; reflexivity].
    unfold bind_draw at 1, lift at 1.
    destruct (get_size _) as [used_disk|e]; [|exists e; reflexivity].
    set (scr0 := {| scr_height := scr_height scr; scr_width := scr_width scr;
                    cells := [] |}).
    unfold bind_draw at 1.
    assert (H0 := another_display_bar_keeps_size
                    (Float (AnotherMonitor.cpu_usage snap)) "CPU Usage" 0
                    (scr_width scr) scr0).
    destruct (AnotherMonitor.display_bar _ "CPU Usage" 0 _ scr0) as [scr1 [[]|e]];
      [|exists e; reflexivity].
    cbn [fst] in H0. destruct H0 as [Hh1 _].
    unfold bind_draw at 1.
    assert (H1 := another_display_bar_keeps_size
                    (Float (AnotherMonitor.memory_usage_percent snap))
                    "Memory Usage" 1 (scr_width scr) scr1).
    destruct (AnotherMonitor.display_bar _ "Memory Usage" 1 _ scr1)
      as [scr2 [[]|e]]; [|exists e; reflexivity].
    cbn [fst] in H1. destruct H1 as [Hh2 _].
    apply bind_draw_raises_first, another_display_bar_below_window.
    rewrite Hh2, Hh1. cbn [scr0 scr_height]. exact Hh.
Qed.

Lemma pass_on_two_lines_raises_witness :
  scr_height (window 2 100) <= 2 /\
  raises (snd (AnotherMonitor.render another_sample AnotherMonitor.initial_state
                 (window 2 100))).
Proof.
  assert (H : scr_height (window 2 100) <= 2) by (vm_compute; discriminate).
  split; [exact H|].
  exact (proj2 pass_on_two_lines_raises another_sample
           AnotherMonitor.initial_state (window 2 100) H).
Defined.

(** ** The order of a sort by CPU% *)

Section SortedByOrder.
Context {A K : Type}.
Variable key : A -> K.
Variable ltb : K -> K -> bool.
Variable le : K -> K -> Prop.
Hypothesis le_trans : forall a b c, le a b -> le b c -> le a c.
Hypothesis ltb_true : forall a b, ltb a b = true -> le a b.
Hypothesis ltb_false : forall a b, ltb a b = false -> le b a.

Lemma insert_ordered (x : A) (l : list A) :
  StronglySorted (fun a b => le (key a) (key b)) l ->
  StronglySorted (fun a b => le (key a) (key b)) (insert key ltb x l).
Proof.
  induction l as [|y l IH]; intros Hs; cbn [insert].
  - constructor; constructor.
  - apply StronglySorted_inv in Hs. destruct Hs as [Hl Hy].
    destruct (ltb (key y) (key x)) eqn:E.
    + constructor; [apply IH, Hl|].
      eapply Permutation_Forall.
      * symmetry. apply insert_perm.
      * constructor; [apply ltb_true, E|exact Hy].
    + constructor; [constructor; assumption|].
      constructor; [apply ltb_false, E|].
      eapply Forall_impl; [|exact Hy].
      cbv beta. intros a Ha. eapply le_trans; [apply ltb_false, E|exact Ha].
Qed.

Lemma sorted_ordered (reverse : bool) (l : list A) :
  StronglySorted
    (fun a b => if reverse then le (key b) (key a) else le (key a) (key b))
    (sorted key ltb reverse l).
Proof.
  assert (Hs : forall l', StronglySorted (fun a b => le (key a) (key b))
                            (stable_sort key ltb l')).
  { induction l' as [|x l' IH]; cbn [stable_sort fold_right]; [constructor|].
    apply insert_ordered, IH. }
  unfold sorted. destruct reverse; [|apply Hs].
  apply (StronglySorted_rev_flip (fun a b => le (key a) (key b))), Hs.
Qed.
End SortedByOrder.

Lemma float_key_true (a b : value) :
  value_ltb a b = true ->
  match a, b with
  | VFloat x, VFloat y => (x <= y)%Q
  | _, _ => True
  end.
Proof.
  destruct a as [m|x|s|], b as [n|y|t|]; try (intros; exact I).
  cbn [value_ltb]. unfold num_ltb. cbn [to_Q]. intros H.
  apply negb_true_iff in H. apply Qlt_le_weak, Qnot_le_lt. intros Hle.
  apply Qle_bool_iff in Hle. congruence.
Qed.

Lemma float_key_false (x y : Q) :
  value_ltb (VFloat x) (VFloat y) = false -> (y <= x)%Q.
Proof.
  cbn [value_ltb]. unfold num_ltb. cbn [to_Q]. intros H.
  apply negb_false_iff, Qle_bool_iff in H. exact H.
Qed.

Lemma sorted_by_float {A : Type} (cpu : A -> Q) (reverse : bool) (l : list A) :
  StronglySorted
    (fun a b => if reverse then (cpu b <= cpu a)%Q else (cpu a <= cpu b)%Q)
    (sorted (fun x => VFloat (cpu x)) value_ltb reverse l).
Proof.
  assert (H := sorted_ordered (fun x => cpu x) (fun a b => negb (Qle_bool b a))
                 Qle Qle_trans).
  assert (Heq : forall l',
             sorted (fun x => VFloat (cpu x)) value_ltb reverse l'
             = sorted (fun x => cpu x) (fun a b => negb (Qle_bool b a)) reverse l').
  { assert (Hins : forall x l',
               insert (fun x => VFloat (cpu x)) value_ltb x l'
               = insert (fun x => cpu x) (fun a b => negb (Qle_bool b a)) x l').
    { intros x l'. induction l' as [|y l' IH]; cbn [insert]; [reflexivity|].
      rewrite IH. reflexivity. }
    assert (Hsort : forall l',
               stable_sort (fun x => VFloat (cpu x)) value_ltb l'
               = stable_sort (fun x => cpu x) (fun a b => negb (Qle_bool b a)) l').
    { induction l' as [|x l' IH]; [reflexivity|]. cbn [stable_sort fold_right].
      fold (stable_sort (fun x => VFloat (cpu x)) value_ltb l').
      fold (stable_sort (fun x => cpu x) (fun a b => negb (Qle_bool b a)) l').
      rewrite IH. apply Hins. }
    intros l'. unfold sorted. destruct reverse; rewrite Hsort; reflexivity. }
  rewrite Heq. apply H.
  - intros a b Hab. apply negb_true_iff in Hab.
    apply Qlt_le_weak, Qnot_le_lt. intros Hle. apply Qle_bool_iff in Hle. congruence.
  - intros a b Hab. apply negb_false_iff, Qle_bool_iff in Hab. exact Hab.
Qed.

(** A sort by CPU% orders the rows by their raw percentage, highest first
    unless ascending, in both files. *)
Theorem cpu_sort_orders_rows :
  (forall io procs ascending rows,
      SystemMonitor.get_processes_info io procs "cpu" ascending = Ok rows ->
      StronglySorted
        (fun a b => if ascending
                    then (SystemMonitor.cpu_percent a <= SystemMonitor.cpu_percent b)%Q
                    else (SystemMonitor.cpu_percent b <= SystemMonitor.cpu_percent a)%Q)
        rows) /\
  (forall procs ascending rows,
      AnotherMonitor.get_processes_info procs "cpu" ascending = Ok rows ->
      StronglySorted
        (fun a b => if ascending
                    then (AnotherMonitor.cpu_percent a <= AnotherMonitor.cpu_percent b)%Q
                    else (AnotherMonitor.cpu_percent b <= AnotherMonitor.cpu_percent a)%Q)
        rows).
Proof.
  split.
  - intros io procs ascending rows H.
    unfold SystemMonitor.get_processes_info in H.
    destruct (SystemMonitor.get_total_disk_io io) as [t|e]; cbn [bind] in H;
      [|discriminate].
    destruct (mapM _ procs) as [collected|e]; cbn [bind] in H; [|discriminate].
    change (if ("cpu" =? "cpu")%string then 2 else 4) with 2 in H.
    inversion H as [Hrows]. clear H.
    assert (Hs := sorted_by_float SystemMonitor.cpu_percent (negb ascending)
                    collected).
    destruct ascending; exact Hs.
  - intros procs ascending rows H.
    unfold AnotherMonitor.get_processes_info in H.
    destruct (mapM _ procs) as [collected|e]; cbn [bind] in H; [|discriminate].
    change (if ("cpu" =? "cpu")%string then 2 else 4) with 2 in H.
    inversion H as [Hrows]. clear H.
    assert (Hs := sorted_by_float AnotherMonitor.cpu_percent (negb ascending)
                    collected).
    destruct ascending; exact Hs.
Qed.

Lemma cpu_sort_orders_rows_witness :
  exists rows,
    SystemMonitor.get_processes_info [] [proc_gamma; proc_alpha; proc_beta]
      "cpu" false = Ok rows /\
    map SystemMonitor.pid rows = [1; 2; 3] /\
    StronglySorted
      (fun a b => (SystemMonitor.cpu_percent b <= SystemMonitor.cpu_percent a)%Q)
      rows.
Proof.
  eexists. split; [vm_compute; reflexivity|]. split; [reflexivity|].
  apply (proj1 cpu_sort_orders_rows [] [proc_gamma; proc_alpha; proc_beta] false).
  vm_compute. reflexivity.
Defined.

(** ** The share of the disk I/O *)

Lemma round_half_even_le_int (n d K : Z) :
  0 < d -> n <= K * d -> round_half_even n d <= K.
Proof.
  intros Hd Hn. unfold round_half_even.
  assert (Hdm := Z.div_mod n d ltac:(lia)).
  assert (Hm := Z.mod_pos_bound n d Hd).
  assert (Hq : n / d <= K) by nia.
  destruct (Z.eq_dec (n / d) K) as [E|E].
  - assert (Hr : n mod d = 0) by nia. rewrite Hr.
    destruct (2 * 0 ?= d) eqn:C; try lia.
    + apply Z.compare_eq in C. lia.
    + apply Z.compare_gt_iff in C. lia.
  - destruct (2 * (n mod d) ?= d); [destruct (Z.even (n / d))| |]; lia.
Qed.

(** rounding never crosses a small integer from below *)
Lemma binary64_le_int (q : Q) (c : Z) :
  0 < c -> c <= 2 ^ 52 -> (0 <= q)%Q -> (q <= inject_Z c)%Q ->
  (binary64 q <= inject_Z c)%Q.
Proof.
  intros Hc Hc52 H0 Hq.
  destruct (Qlt_le_dec 0 q) as [Hpos|Hz].
  - destruct (Qlt_le_dec q 1) as [Hlt|Hge].
    + rewrite (binary64_of_pos q Hpos).
      apply Qle_trans with 1%Q.
      * unfold Qlt in Hpos, Hlt. cbn [Qnum Qden] in Hpos, Hlt.
        apply binary64_pos_le_1; lia.
      * rewrite <- (Zle_Qle 1). lia.
    + destruct (Qlt_le_dec q (inject_Z (2 ^ 52))) as [Hlt|Hbig].
      * rewrite (binary64_of_pos q Hpos).
        destruct q as [n d]. unfold Qle in Hq, Hge. unfold Qlt in Hlt, Hpos.
        cbn [Qnum Qden inject_Z] in *.
        assert (Hdn : Zpos d <= n) by lia.
        destruct (ilog2_ratio_spec n (Zpos d) ltac:(lia) Hdn) as (He & Hlo & Hhi).
        unfold binary64_pos, round_mantissa.
        rewrite (ulp_exp_normal n (Zpos d)) by lia.
        set (e := ilog2_ratio n (Zpos d)) in *.
        assert (Hpe := pow2_pos e He).
        assert (He52 : e < 52).
        { destruct (Z_lt_ge_dec e 52) as [|Hge52]; [assumption|exfalso].
          assert (2 ^ 52 <= 2 ^ e) by (apply Z.pow_le_mono_r; lia). nia. }
        unfold scale2. destruct (0 <=? e - 52) eqn:Eu; [apply Z.leb_le in Eu; lia|].
        assert (HP := pow2_pos (- (e - 52)) ltac:(lia)).
        set (P := 2 ^ (- (e - 52))) in *.
        assert (Hm : round_half_even (n * P) (Zpos d) <= c * P)
          by (apply round_half_even_le_int; nia).
        rewrite Qred_correct. unfold Qle. cbn [Qnum Qden inject_Z].
        rewrite Z2Pos.id by assumption. lia.
      * assert (Hceq : c = 2 ^ 52).
        { assert (Hle : (inject_Z (2 ^ 52) <= inject_Z c)%Q)
            by (eapply Qle_trans; eassumption).
          rewrite <- Zle_Qle in Hle. lia. }
        subst c. apply binary64_le_pow2; [lia|assumption|assumption].
  - assert (Hq0 : Qnum q = 0).
    { destruct q as [n d]. unfold Qle in H0, Hz. cbn [Qnum Qden] in *. lia. }
    unfold binary64. rewrite Hq0. rewrite <- (Zle_Qle 0). lia.
Qed.

Lemma share_quotient_bounds (process_io total_io : Z) :
  0 <= process_io <= total_io -> 0 < total_io ->
  (0 <= inject_Z process_io / inject_Z total_io)%Q /\
  (inject_Z process_io / inject_Z total_io <= 1)%Q.
Proof.
  intros Hp Ht.
  assert (HtQ : (0 < inject_Z total_io)%Q) by (rewrite <- (Zlt_Qlt 0); lia).
  split.
  - apply Qle_shift_div_l; [exact HtQ|]. rewrite Qmult_0_l.
    rewrite <- (Zle_Qle 0). lia.
  - apply Qle_shift_div_r; [exact HtQ|]. rewrite Qmult_1_l.
    rewrite <- Zle_Qle. lia.
Qed.

Lemma unit_float_in_range (b : Q) :
  (0 <= b)%Q -> (b <= 1)%Q ->
  Qle_bool (inject_Z (2 ^ 1024)) (Qabs b) = false.
Proof.
  intros H0 H1. destruct (Qle_bool _ _) eqn:E; [|reflexivity]. exfalso.
  apply Qle_bool_iff in E. rewrite (Qabs_pos b H0) in E.
  assert (Hbig : (1 < inject_Z (2 ^ 1024))%Q).
  { rewrite <- (Zlt_Qlt 1). apply (Z.pow_gt_1 2 1024); lia. }
  generalize dependent (inject_Z (2 ^ 1024)). intros X E Hbig. lra.
Qed.

(** The share of the disk I/O that system_monitor computes for a process
    whose bytes are at most the total is a percentage between 0 and 100:
    neither the division nor the product by 100 rounds beyond that range or
    raises. It is 0 when the total is 0, and exactly 100 for a process that
    did all the I/O. *)
Theorem percent_usage_within_100 (process_io total_io : Z) :
  0 <= process_io <= total_io ->
  exists percent,
    SystemMonitor.percent_usage process_io total_io = Ok percent /\
    (0 <= to_Q percent)%Q /\ (to_Q percent <= 100)%Q /\
    (total_io = 0 -> percent = Int 0) /\
    (0 < total_io -> process_io = total_io -> (to_Q percent == 100)%Q).
Proof.
  intros Hp. unfold SystemMonitor.percent_usage.
  destruct (0 <? total_io) eqn:Et.
  - apply Z.ltb_lt in Et.
    destruct (share_quotient_bounds process_io total_io Hp Et) as [Hq0 Hq1].
    unfold truediv. cbn [to_Q].
    assert (Hnz : Qeq_bool (inject_Z total_io) 0 = false).
    { destruct (Qeq_bool _ _) eqn:E; [|reflexivity]. apply Qeq_bool_iff in E.
      unfold Qeq in E. cbn [Qnum Qden inject_Z] in E. lia. }
    rewrite Hnz.
    set (q := (inject_Z process_io / inject_Z total_io)%Q) in *.
    assert (Hb0 : (0 <= binary64 q)%Q) by (apply binary64_nonneg, Hq0).
    assert (Hb1 : (binary64 q <= 1)%Q)
      by (apply (binary64_le_int q 1); [lia|lia|exact Hq0|exact Hq1]).
    unfold overflows. rewrite (unit_float_in_range _ Hb0 Hb1). cbn [bind].
    eexists. split; [reflexivity|]. unfold fmul. cbn [to_Q].
    assert (Hx0 : (0 <= binary64 q * inject_Z 100)%Q).
    { apply Qmult_le_0_compat; [exact Hb0|]. rewrite <- (Zle_Qle 0). lia. }
    assert (Hx1 : (binary64 q * inject_Z 100 <= inject_Z 100)%Q).
    { change (inject_Z 100) with 100%Q. lra. }
    split; [apply binary64_nonneg, Hx0|].
    split; [apply (binary64_le_int _ 100); [lia|lia|exact Hx0|exact Hx1]|].
    split; [lia|]. intros _ Heq.
    assert (Hq1' : (1 <= q)%Q).
    { unfold q. apply Qle_shift_div_l; [rewrite <- (Zlt_Qlt 0); lia|].
      rewrite Qmult_1_l, <- Zle_Qle. lia. }
    assert (Hb1' : (1 <= binary64 q)%Q)
      by (apply (binary64_ge_int q 1); [lia|lia|exact Hq1']).
    assert (Hx1' : (inject_Z 100 <= binary64 q * inject_Z 100)%Q).
    { change (inject_Z 100) with 100%Q. lra. }
    apply Qle_antisym.
    + apply (binary64_le_int _ 100); [lia|lia|exact Hx0|exact Hx1].
    + apply (binary64_ge_int _ 100); [lia|lia|exact Hx1'].
  - apply Z.ltb_ge in Et. exists (Int 0). split; [reflexivity|]. cbn [to_Q].
    split; [apply Qle_refl|]. split; [discriminate|].
    split; [reflexivity|]. intros Hpos. lia.
Qed.

Lemma percent_usage_within_100_witness :
  exists percent,
    SystemMonitor.percent_usage 1 3 = Ok percent /\
    (0 <= to_Q percent)%Q /\ (to_Q percent <= 100)%Q.
Proof.
  destruct (percent_usage_within_100 1 3 ltac:(lia)) as (p & H & H0 & H1 & _).
  exists p. split; [exact H|]. split; [exact H0|exact H1].
Defined.

(** ** The rows and the total *)

Lemma readable_io_counters_seen (procs : list proc_info) :
  readable_io (map counters_seen procs) = column_sum (map io_bytes procs).
Proof.
  induction procs as [|p procs IH]; [reflexivity|].
  cbn [map readable_io column_sum fold_right]. fold (column_sum (map io_bytes procs)).
  rewrite <- IH. unfold counters_seen, io_bytes.
  destruct (info_io_counters p) as [[r w]|]; cbn [readable_io]; lia.
Qed.

Lemma counters_seen_skippable (procs : list proc_info) :
  Forall skippable (map counters_seen procs).
Proof.
  induction procs as [|p procs IH]; [constructor|].
  cbn [map]. constructor; [|exact IH].
  unfold counters_seen. destruct (info_io_counters p); exact I.
Qed.

Lemma column_sum_perm (l l' : list Z) :
  Permutation l l' -> column_sum l = column_sum l'.
Proof.
  unfold column_sum.
  induction 1 as [|x l l' _ IH|x y l|l l' l'' _ IH1 _ IH2];
    cbn [fold_right]; lia.
Qed.

Lemma column_sum_rows (procs : list proc_info) (collected : list SystemMonitor.row) :
  Forall2 (fun p r => SystemMonitor.process_io r = io_bytes p) procs collected ->
  column_sum (map SystemMonitor.process_io collected)
  = column_sum (map io_bytes procs).
Proof.
  unfold column_sum.
  induction 1 as [|p r ps rs Hpr _ IH]; [reflexivity|].
  cbn [map fold_right]. rewrite IH, Hpr. reflexivity.
Qed.

Lemma column_sum_bound (l : list Z) (x : Z) :
  Forall (fun y => 0 <= y) l -> In x l -> 0 <= x <= column_sum l.
Proof.
  unfold column_sum.
  induction 1 as [|y l Hy Hl IH]; intros Hin; [destruct Hin|].
  cbn [fold_right].
  assert (Hs : 0 <= fold_right Z.add 0 l).
  { clear IH Hin. induction Hl as [|z l Hz _ IH]; cbn [fold_right]; lia. }
  destruct Hin as [-> | Hin]; [lia|]. specialize (IH Hin). lia.
Qed.

(** When the enumeration inside get_total_disk_io sees the same counters
    as the one that builds the rows, the total that the shares are taken of
    is the sum of the rows' read plus write bytes, and with counters that
    are not negative every row's bytes lie between 0 and that total. *)
Theorem rows_io_sum_to_total
  (procs : list proc_info) (sort_by : string) (ascending : bool)
  (rows : list SystemMonitor.row) :
  SystemMonitor.get_processes_info (map counters_seen procs) procs
    sort_by ascending = Ok rows ->
  SystemMonitor.get_total_disk_io (map counters_seen procs)
  = Ok (column_sum (map SystemMonitor.process_io rows)) /\
  (Forall (fun p => 0 <= io_bytes p) procs ->
   Forall (fun r => 0 <= SystemMonitor.process_io r
                    <= column_sum (map SystemMonitor.process_io rows)) rows).
Proof.
  unfold SystemMonitor.get_processes_info, SystemMonitor.get_total_disk_io.
  rewrite (total_io_loop_readable _ (counters_seen_skippable procs)).
  cbn [bind]. intros H.
  destruct (mapM _ procs) as [collected|e] eqn:Ec; cbn [bind] in H; [|discriminate].
  inversion H as [Hrows]. clear H.
  set (sorted_rows := sorted _ _ _ collected).
  assert (Hperm : Permutation sorted_rows collected) by apply sorted_perm.
  assert (Hall : Forall2 (fun p r => SystemMonitor.process_io r = io_bytes p)
                   procs collected).
  { eapply mapM_Forall2; [|exact Ec]. intros p r Hr.
    apply (system_process_row_fields _ _ _ Hr). }
  assert (Hsum : column_sum (map SystemMonitor.process_io sorted_rows)
                 = column_sum (map io_bytes procs)).
  { rewrite (column_sum_perm _ _ (Permutation_map _ Hperm)).
    apply column_sum_rows, Hall. }
  split.
  - rewrite readable_io_counters_seen, Hsum. f_equal; lia.
  - intros Hnn.
    assert (Hcol : Forall (fun y => 0 <= y)
                     (map SystemMonitor.process_io sorted_rows)).
    { apply Forall_forall. intros y Hy. apply in_map_iff in Hy.
      destruct Hy as (r & <- & Hr).
      apply (Permutation_in _ Hperm) in Hr.
      clear Hperm Hsum Hrows sorted_rows Ec.
      induction Hall as [|p r' ps rs Hpr _ IH]; [destruct Hr|].
      apply Forall_cons_iff in Hnn. destruct Hnn as [Hp Hps].
      destruct Hr as [-> | Hr]; [rewrite Hpr; exact Hp|apply IH; assumption]. }
    apply Forall_forall. intros r Hr.
    apply (column_sum_bound _ _ Hcol), in_map, Hr.
Qed.

Lemma rows_io_sum_to_total_witness :
  exists rows,
    SystemMonitor.get_processes_info
      (map counters_seen [proc_alpha; proc_beta; proc_gamma])
      [proc_alpha; proc_beta; proc_gamma] "cpu" false = Ok rows /\
    SystemMonitor.get_total_disk_io
      (map counters_seen [proc_alpha; proc_beta; proc_gamma])
    = Ok (column_sum (map SystemMonitor.process_io rows)).
Proof.
  eexists. split; [vm_compute; reflexivity|].
  apply (rows_io_sum_to_total [proc_alpha; proc_beta; proc_gamma] "cpu" false).
  vm_compute. reflexivity.
Defined.

(** ** get_processes_info returns *)

Lemma float_in_range (b : Q) :
  (0 <= b)%Q -> (b <= inject_Z (2 ^ 1023))%Q ->
  Qle_bool (inject_Z (2 ^ 1024)) (Qabs b) = false.
Proof.
  intros H0 H1. destruct (Qle_bool _ _) eqn:E; [|reflexivity]. exfalso.
  apply Qle_bool_iff in E. rewrite (Qabs_pos b H0) in E.
  assert (Hbig : (inject_Z (2 ^ 1023) < inject_Z (2 ^ 1024))%Q).
  { rewrite <- Zlt_Qlt. apply Z.pow_lt_mono_r; lia. }
  generalize dependent (inject_Z (2 ^ 1024)).
  generalize dependent (inject_Z (2 ^ 1023)). intros Y H1 X E Hbig. lra.
Qed.

Lemma percent_usage_total (process_io total_io : Z) :
  0 <= process_io < 2 ^ 1023 ->
  exists percent text,
    SystemMonitor.percent_usage process_io total_io = Ok percent /\
    format_2f percent = Ok text.
Proof.
  intros Hp. unfold SystemMonitor.percent_usage.
  destruct (0 <? total_io) eqn:Et;
    [|eexists; eexists; split; [reflexivity|exact format_2f_zero]].
  apply Z.ltb_lt in Et. unfold truediv. cbn [to_Q].
  assert (Hnz : Qeq_bool (inject_Z total_io) 0 = false).
  { destruct (Qeq_bool _ _) eqn:E; [|reflexivity]. apply Qeq_bool_iff in E.
    unfold Qeq in E. cbn [Qnum Qden inject_Z] in E. lia. }
  rewrite Hnz.
  assert (HtQ : (0 < inject_Z total_io)%Q) by (rewrite <- (Zlt_Qlt 0); lia).
  assert (Hq0 : (0 <= inject_Z process_io / inject_Z total_io)%Q).
  { apply Qle_shift_div_l; [exact HtQ|]. rewrite Qmult_0_l.
    rewrite <- (Zle_Qle 0). lia. }
  assert (Hq1 : (inject_Z process_io / inject_Z total_io <= inject_Z (2 ^ 1023))%Q).
  { apply Qle_shift_div_r; [exact HtQ|]. rewrite <- inject_Z_mult, <- Zle_Qle.
    assert (0 < 2 ^ 1023) by (apply pow2_pos; lia). nia. }
  set (q := (inject_Z process_io / inject_Z total_io)%Q) in *.
  assert (Hb0 : (0 <= binary64 q)%Q) by (apply binary64_nonneg, Hq0).
  assert (Hb1 : (binary64 q <= inject_Z (2 ^ 1023))%Q).
  { destruct (Qlt_le_dec 0 q) as [Hpos|Hz].
    - apply binary64_le_pow2_pos; [lia|exact Hpos|exact Hq1].
    - assert (Hn : Qnum q = 0).
      { clearbody q. destruct q as [n d]. unfold Qle in Hq0, Hz.
        cbn [Qnum Qden] in *. lia. }
      unfold binary64. rewrite Hn. rewrite <- (Zle_Qle 0).
      assert (0 < 2 ^ 1023) by (apply pow2_pos; lia). lia. }
  unfold overflows. rewrite (float_in_range _ Hb0 Hb1). cbn [bind].
  eexists. eexists. split; reflexivity.
Qed.

Lemma system_process_row_total (total_io : Z) (p : proc_info) :
  counts_in_range p -> exists r, SystemMonitor.process_row total_io p = Ok r.
Proof.
  intros ((Hrss0 & Hrss) & Hio). unfold SystemMonitor.process_row.
  assert (Hlt : 2 ^ 1023 < 2 ^ 1024) by (apply Z.pow_lt_mono_r; lia).
  destruct (get_size_total (info_rss p) Hrss0 ltac:(lia)) as (m & ->).
  cbn [bind].
  set (rb := match info_io_counters p with Some (r, _) => r | None => 0 end).
  set (wb := match info_io_counters p with Some (_, w) => w | None => 0 end).
  assert (Hrw : 0 <= rb /\ 0 <= wb /\ rb + wb < 2 ^ 1023).
  { unfold rb, wb. destruct (info_io_counters p) as [[r w]|]; [exact Hio|].
    assert (0 < 2 ^ 1023) by (apply pow2_pos; lia). lia. }
  destruct Hrw as (Hr0 & Hw0 & Hsum).
  destruct (percent_usage_total (rb + wb) total_io ltac:(lia))
    as (pc & text & -> & Htext).
  cbn [bind]. unfold SystemMonitor.disk_usage_text.
  destruct (get_size_total rb Hr0 ltac:(lia)) as (a & ->).
  destruct (get_size_total wb Hw0 ltac:(lia)) as (b & ->).
  cbn [bind]. rewrite Htext. cbn [bind]. eexists. reflexivity.
Qed.

Lemma another_process_row_total (p : proc_info) :
  counts_in_range p -> exists r, AnotherMonitor.process_row p = Ok r.
Proof.
  intros ((Hrss0 & Hrss) & Hio). unfold AnotherMonitor.process_row.
  assert (Hlt : 2 ^ 1023 < 2 ^ 1024) by (apply Z.pow_lt_mono_r; lia).
  destruct (get_size_total (info_rss p) Hrss0 ltac:(lia)) as (m & ->).
  cbn [bind].
  destruct (info_io_counters p) as [[r w]|].
  - destruct Hio as (Hr0 & Hw0 & Hsum).
    destruct (get_size_total (r + w) ltac:(lia) ltac:(lia)) as (a & ->).
    cbn [bind]. eexists. reflexivity.
  - cbn [bind]. eexists. reflexivity.
Qed.

Lemma mapM_returns {A B : Type} (f : A -> result B) (l : list A) :
  Forall (fun a => exists b, f a = Ok b) l ->
  exists l', mapM f l = Ok l' /\ List.length l' = List.length l.
Proof.
  induction 1 as [|a l (b & Hb) _ (l' & Hl' & Hlen)]; cbn [mapM].
  - exists []. split; reflexivity.
  - exists (b :: l'). rewrite Hb, Hl'. split; [reflexivity|].
    cbn [List.length]. rewrite Hlen. reflexivity.
Qed.

(** With byte counts as an operating system reports them (not negative,
    below 2^1023), get_processes_info returns in both files, for any sort
    key and direction, and the list has one row per enumerated process: no
    division, conversion or formatting in the loop raises, whatever the
    total I/O is. In system_monitor this needs the enumeration inside
    get_total_disk_io to raise nothing but the two exceptions it catches. *)
Theorem get_processes_info_returns :
  (forall io procs sort_by ascending,
      Forall skippable io ->
      Forall counts_in_range procs ->
      exists rows,
        SystemMonitor.get_processes_info io procs sort_by ascending = Ok rows /\
        List.length rows = List.length procs) /\
  (forall procs sort_by ascending,
      Forall counts_in_range procs ->
      exists rows,
        AnotherMonitor.get_processes_info procs sort_by ascending = Ok rows /\
        List.length rows = List.length procs).
Proof.
  split.
  - intros io procs sort_by ascending Hio Hprocs.
    unfold SystemMonitor.get_processes_info, SystemMonitor.get_total_disk_io.
    rewrite (total_io_loop_readable io Hio). cbn [bind].
    destruct (mapM_returns (SystemMonitor.process_row (0 + readable_io io)) procs)
      as (collected & -> & Hlen).
    { eapply Forall_impl; [|exact Hprocs]. apply system_process_row_total. }
    cbn [bind]. eexists. split; [reflexivity|].
    rewrite <- Hlen. apply Permutation_length, sorted_perm.
  - intros procs sort_by ascending Hprocs.
    unfold AnotherMonitor.get_processes_info.
    destruct (mapM_returns AnotherMonitor.process_row procs)
      as (collected & -> & Hlen).
    { eapply Forall_impl; [|exact Hprocs]. apply another_process_row_total. }
    cbn [bind]. eexists. split; [reflexivity|].
    rewrite <- Hlen. apply Permutation_length, sorted_perm.
Qed.

Lemma get_processes_info_returns_witness :
  Forall counts_in_range [proc_alpha; proc_beta; proc_gamma] /\
  exists rows,
    AnotherMonitor.get_processes_info [proc_alpha; proc_beta; proc_gamma]
      "memory" true = Ok rows /\
    List.length rows = 3%nat.
Proof.
  assert (H : Forall counts_in_range [proc_alpha; proc_beta; proc_gamma]).
  { repeat constructor; unfold counts_in_range; cbn; try lia;
      repeat split; try lia; try reflexivity. }
  split; [exact H|].
  exact (proj2 get_processes_info_returns _ "memory" true H).
Defined.
